(** * mom: the QEMU guest agent client and two host collectors

    A shallow embedding of
      - [mom/Collectors/QemuGuestAgentClient.py]
      - [mom/Collectors/HostKSM.py]
      - [mom/Collectors/HostMemory.py]
    The Python code is effectful: it mutates [self], talks to sockets and
    raises exceptions.  It is embedded in a state-and-exception monad over
    an explicit world: a heap of socket objects (so that the [sock]
    argument and [self.sock] alias the same object, as in the source), the
    scripts of what the operating system will answer, and the clock. *)

From Stdlib Require Import ZArith NArith QArith List Strings.String Strings.Ascii Strings.Byte Lia Bool.
From stdpp Require Import base gmap sets list strings pretty.

Open Scope Z_scope.

(** ** Python values, exceptions and results *)

Module Py.

(** Python 3 [bytes]. *)
Abbreviation bytes := (list byte).

(** The text of a Python [str] is kept as a Rocq [string] holding its
    UTF-8 encoding. *)
Abbreviation str := string.

Definition b (s : string) : bytes := list_byte_of_string s.

(** The values the client handles: what [json.loads] can produce, plus
    [bytes] (produced by [base64]). Dictionaries have [str] keys and keep
    insertion order. A float is kept by the exact rational value of the
    binary64 number, which is all that [==] and the truth test look at;
    [json.loads] also accepts [NaN], [Infinity] and [-Infinity]. *)
Inductive pyfloat : Type :=
| FFinite (q : Q)
| FInf (negative : bool)
| FNaN.

Inductive pyval : Type :=
| PyNone
| PyBool (v : bool)
| PyInt (v : Z)
| PyFloat (v : pyfloat)
| PyStr (v : str)
| PyBytes (v : bytes)
| PyList (v : list pyval)
| PyDict (v : list (str * pyval)).

(** The exceptions that occur. [OutOfFuel] is not a Python exception: it
    is the answer of a loop of the embedding whose iteration budget is
    spent; the budgets are shown to be sufficient below. *)
Inductive exn : Type :=
| ProtocolError (errno : Z) (msg : string)
| socket_timeout
| socket_error (errno : Z) (strerror : string)
| AttributeError
| TypeError
| KeyError
| ValueError
| UnicodeDecodeError
| binascii_Error
| ZeroDivisionError
| Exception (msg : string)
| FatalError (msg : string)
| CollectionError (msg : string)
| OutOfFuel.

Inductive result (A : Type) : Type :=
| Ok (a : A)
| Raise (e : exn).
Arguments Ok {A} a.
Arguments Raise {A} e.

(** State and exceptions: a computation runs on a state [S] and either
    returns or raises, in both cases with the state it has reached. *)
Definition M (S A : Type) : Type := S -> result A * S.

Definition ret {S A} (a : A) : M S A := fun s => (Ok a, s).
Definition raise {S A} (e : exn) : M S A := fun s => (Raise e, s).
Definition bind {S A B} (m : M S A) (k : A -> M S B) : M S B :=
  fun s => match m s with
           | (Ok a, s') => k a s'
           | (Raise e, s') => (Raise e, s')
           end.
Definition get {S} : M S S := fun s => (Ok s, s).
Definition put {S} (s : S) : M S unit := fun _ => (Ok tt, s).
Definition lift {S A} (r : result A) : M S A := fun s => (r, s).

(** [try m except h]: [h e = Some k] when an [except] clause matches [e]. *)
Definition try_except {S A} (m : M S A) (h : exn -> option (M S A)) : M S A :=
  fun s => match m s with
           | (Ok a, s') => (Ok a, s')
           | (Raise e, s') =>
               match h e with
               | Some k => k s'
               | None => (Raise e, s')
               end
           end.

Declare Scope py_scope.
Delimit Scope py_scope with py.
Notation "x <- m ;; k" := (bind m (fun x => k))
  (at level 100, m at next level, right associativity) : py_scope.
Notation "m ;;; k" := (bind m (fun _ => k))
  (at level 100, right associativity) : py_scope.

(** *** The operators of Python that the client applies to parsed JSON *)

Definition dict_get (k : str) (d : list (str * pyval)) : option pyval :=
  snd <$> find (fun kv => String.eqb (fst kv) k) d.

Definition dict_has (k : str) (d : list (str * pyval)) : bool :=
  match dict_get k d with Some _ => true | None => false end.

(** [d[k] = v]: replaces the value of an existing key in place, appends a
    new key. *)
Fixpoint dict_set (k : str) (v : pyval) (d : list (str * pyval)) : list (str * pyval) :=
  match d with
  | [] => [(k, v)]
  | (k', v') :: d' =>
      if String.eqb k' k then (k, v) :: d' else (k', v') :: dict_set k v d'
  end.

(** [s in t] on two [str]: substring test. *)
Fixpoint str_prefix (s t : string) : bool :=
  match s, t with
  | EmptyString, _ => true
  | String a s', String c t' => Ascii.eqb a c && str_prefix s' t'
  | String _ _, EmptyString => false
  end.

Fixpoint str_in (s t : string) : bool :=
  str_prefix s t ||
  match t with
  | EmptyString => false
  | String _ t' => str_in s t'
  end.

(** [v == s] for a [str] [s]. *)
Definition eq_str (v : pyval) (s : str) : bool :=
  match v with
  | PyStr t => String.eqb t s
  | _ => false
  end.

(** [f == z] for a float and an [int]: Python compares the exact values. *)
Definition float_eq_int (f : pyfloat) (z : Z) : bool :=
  match f with
  | FFinite q => Qeq_bool q (inject_Z z)
  | _ => false
  end.

(** [v == z] for an [int] [z]. [True == 1] and [False == 0] hold in
    Python, values of other types compare unequal without raising. *)
Definition eq_int (v : pyval) (z : Z) : bool :=
  match v with
  | PyInt z' => Z.eqb z' z
  | PyBool true => Z.eqb 1 z
  | PyBool false => Z.eqb 0 z
  | PyFloat f => float_eq_int f z
  | _ => false
  end.

(** [k in obj] for a [str] [k]. *)
Definition contains (k : str) (obj : pyval) : result bool :=
  match obj with
  | PyDict d => Ok (dict_has k d)
  | PyList l => Ok (existsb (fun v => eq_str v k) l)
  | PyStr t => Ok (str_in k t)
  | _ => Raise TypeError
  end.

(** [obj[k]] for a [str] [k]. *)
Definition getitem (obj : pyval) (k : str) : result pyval :=
  match obj with
  | PyDict d => match dict_get k d with
                | Some v => Ok v
                | None => Raise KeyError
                end
  | _ => Raise TypeError
  end.

(** [obj[k] = v] for a [str] [k]. *)
Definition setitem (obj : pyval) (k : str) (v : pyval) : result pyval :=
  match obj with
  | PyDict d => Ok (PyDict (dict_set k v d))
  | _ => Raise TypeError
  end.

(** Truth value of an object, as [if obj:] tests it. *)
Definition truthy (v : pyval) : bool :=
  match v with
  | PyNone => false
  | PyBool v => v
  | PyInt z => negb (Z.eqb z 0)
  | PyFloat f => negb (float_eq_int f 0)
  | PyStr s => negb (String.eqb s "")
  | PyBytes l => match l with [] => false | _ => true end
  | PyList l => match l with [] => false | _ => true end
  | PyDict d => match d with [] => false | _ => true end
  end.

End Py.

(** ** The standard library functions the code calls

    [base64], [str.encode], [bytes.decode] and [json] belong to Python,
    not to the repository. The first three are written out; [json] is an
    interface, with a small codec as an instance for the examples. *)

Module Base64.
Import Py.

Definition byte_of_N (n : N) : byte :=
  match Byte.of_N n with Some c => c | None => x00 end.

(** The character of a 6-bit value in the standard alphabet. *)
Definition b2a (n : N) : byte :=
  if (n <? 26)%N then byte_of_N (65 + n)
  else if (n <? 52)%N then byte_of_N (97 + (n - 26))
  else if (n <? 62)%N then byte_of_N (48 + (n - 52))
  else if (n =? 62)%N then "+"%byte
  else "/"%byte.

(** The 6-bit value of a character of the alphabet. *)
Definition a2b (c : byte) : option N :=
  let n := Byte.to_N c in
  if ((65 <=? n) && (n <=? 90))%N then Some (n - 65)%N
  else if ((97 <=? n) && (n <=? 122))%N then Some (n - 97 + 26)%N
  else if ((48 <=? n) && (n <=? 57))%N then Some (n - 48 + 52)%N
  else if (n =? 43)%N then Some 62%N
  else if (n =? 47)%N then Some 63%N
  else None.

(** Three bytes make four characters, the last group is padded with [=]. *)
Fixpoint encode (data : bytes) : bytes :=
  match data with
  | [] => []
  | [x] =>
      let n := Byte.to_N x in
      [b2a (N.shiftr n 2); b2a (N.shiftl (N.land n 3) 4); "="%byte; "="%byte]
  | [x; y] =>
      let n := Byte.to_N x in
      let m := Byte.to_N y in
      [b2a (N.shiftr n 2);
       b2a (N.lor (N.shiftl (N.land n 3) 4) (N.shiftr m 4));
       b2a (N.shiftl (N.land m 15) 2); "="%byte]
  | x :: y :: z :: rest =>
      let n := Byte.to_N x in
      let m := Byte.to_N y in
      let k := Byte.to_N z in
      b2a (N.shiftr n 2)
      :: b2a (N.lor (N.shiftl (N.land n 3) 4) (N.shiftr m 4))
      :: b2a (N.lor (N.shiftl (N.land m 15) 2) (N.shiftr k 6))
      :: b2a (N.land k 63)
      :: encode rest
  end.

(** [base64.b64encode(s)]: [s] is bytes-like, and so is the answer. *)
Definition b64encode (s : pyval) : result pyval :=
  match s with
  | PyBytes l => Ok (PyBytes (encode l))
  | _ => Raise TypeError
  end.

(** [binascii.a2b_base64] without [strict_mode]: characters outside the
    alphabet are skipped, a pad that completes a group ends the input, an
    incomplete last group is an error. [quad_pos] is the position in the
    current group of four, [leftchar] the bits not yet written, [pads]
    the pads seen since the last character. *)
Fixpoint a2b_base64 (input : bytes) (quad_pos : N) (leftchar : N) (pads : N)
  : option bytes :=
  match input with
  | [] => if (quad_pos =? 0)%N then Some [] else None
  | c :: rest =>
      if Byte.eqb c "="%byte then
        if (2 <=? quad_pos)%N then
          if (4 <=? quad_pos + (pads + 1))%N then Some []
          else a2b_base64 rest quad_pos leftchar (pads + 1)
        else a2b_base64 rest quad_pos leftchar pads
      else
        match a2b c with
        | None => a2b_base64 rest quad_pos leftchar pads
        | Some v =>
            if (quad_pos =? 0)%N then a2b_base64 rest 1 v 0
            else
              let '(out, rest_bits, pos) :=
                if (quad_pos =? 1)%N
                then (N.lor (N.shiftl leftchar 2) (N.shiftr v 4), N.land v 15, 2%N)
                else if (quad_pos =? 2)%N
                then (N.lor (N.shiftl leftchar 4) (N.shiftr v 2), N.land v 3, 3%N)
                else (N.lor (N.shiftl leftchar 6) v, 0%N, 0%N) in
              cons (byte_of_N (N.land out 255)) <$> a2b_base64 rest pos rest_bits 0
        end
  end.

(** [base64.b64decode(s)]: [s] is [bytes] or an ASCII-only [str], the
    answer is [bytes]. *)
Definition b64decode (s : pyval) : result pyval :=
  match s with
  | PyBytes l =>
      match a2b_base64 l 0 0 0 with
      | Some out => Ok (PyBytes out)
      | None => Raise binascii_Error
      end
  | PyStr t =>
      let l := list_byte_of_string t in
      if forallb (fun c => (Byte.to_N c <? 128)%N) l then
        match a2b_base64 l 0 0 0 with
        | Some out => Ok (PyBytes out)
        | None => Raise binascii_Error
        end
      else Raise ValueError
  | _ => Raise TypeError
  end.

Example b64encode_hello : b64encode (PyBytes (b "hello")) = Ok (PyBytes (b "aGVsbG8=")).
Proof. reflexivity. Qed.

Example b64decode_hello : b64decode (PyStr "aGVsbG8=") = Ok (PyBytes (b "hello")).
Proof. reflexivity. Qed.

Example b64_round_trip_sample :
  b64decode (PyBytes (encode (b "any carnal pleas"))) = Ok (PyBytes (b "any carnal pleas")).
Proof. reflexivity. Qed.

End Base64.

Module Utf8.
Import Py.

Definition in_range (lo hi : N) (c : byte) : bool :=
  ((lo <=? Byte.to_N c) && (Byte.to_N c <=? hi))%N.

Definition is_cont : byte -> bool := in_range 128 191.

(** Well-formed UTF-8 (Unicode 15, table 3-7): what [bytes.decode('utf-8')]
    accepts. *)
Fixpoint valid (l : bytes) (fuel : nat) : bool :=
  match fuel with
  | O => match l with [] => true | _ => false end
  | S fuel =>
      match l with
      | [] => true
      | c :: r =>
          if in_range 0 127 c then valid r fuel
          else if in_range 194 223 c then
            match r with
            | c1 :: r => is_cont c1 && valid r fuel
            | _ => false
            end
          else if in_range 224 239 c then
            match r with
            | c1 :: c2 :: r =>
                (if in_range 224 224 c then in_range 160 191 c1
                 else if in_range 237 237 c then in_range 128 159 c1
                 else is_cont c1)
                && is_cont c2 && valid r fuel
            | _ => false
            end
          else if in_range 240 244 c then
            match r with
            | c1 :: c2 :: c3 :: r =>
                (if in_range 240 240 c then in_range 144 191 c1
                 else if in_range 244 244 c then in_range 128 143 c1
                 else is_cont c1)
                && is_cont c2 && is_cont c3 && valid r fuel
            | _ => false
            end
          else false
      end
  end.

(** [s.encode('utf-8')] *)
Definition encode (s : str) : bytes := list_byte_of_string s.

(** [data.decode('utf-8')] *)
Definition decode (data : bytes) : result str :=
  if valid data (length data) then Ok (string_of_list_byte data)
  else Raise UnicodeDecodeError.

Lemma valid_ascii (l : bytes) (fuel : nat) :
  (length l <= fuel)%nat ->
  forallb (in_range 0 127) l = true -> valid l fuel = true.
Proof.
  revert l; induction fuel as [|fuel IH]; intros [|c r] Hlen Hall; simpl in *;
    try reflexivity; try lia.
  apply andb_true_iff in Hall as [Hc Hr].
  rewrite Hc. apply IH; [lia | exact Hr].
Qed.

Lemma decode_ascii (l : bytes) :
  forallb (in_range 0 127) l = true -> decode l = Ok (string_of_list_byte l).
Proof.
  intros H. unfold decode. rewrite valid_ascii; auto.
Qed.

Lemma decode_encode_ascii (s : str) :
  forallb (in_range 0 127) (encode s) = true -> decode (encode s) = Ok s.
Proof.
  intros H. rewrite decode_ascii by exact H.
  unfold encode. now rewrite string_of_list_byte_of_string.
Qed.

End Utf8.

Module Json.
Import Py.

(** What [json.dumps] can write: everything but [bytes], at any depth. *)
Fixpoint serializable (v : pyval) : bool :=
  match v with
  | PyBytes _ => false
  | PyList l => forallb serializable l
  | PyDict d => forallb (fun kv => serializable (snd kv)) d
  | _ => true
  end.

(** The interface of the [json] module. [encoder] is [None] on an object
    that is not JSON serializable, [decoder] is [None] on a text that is
    not JSON. *)
Class Codec : Type := {
  encoder : pyval -> option str;
  decoder : str -> option pyval;
  encoder_not_serializable : forall v, serializable v = false -> encoder v = None
}.

(** [json.dumps(obj)] *)
Definition dumps `{Codec} (obj : pyval) : result str :=
  match encoder obj with
  | Some s => Ok s
  | None => Raise TypeError
  end.

(** [json.loads(s)] *)
Definition loads `{Codec} (s : str) : result pyval :=
  match decoder s with
  | Some v => Ok v
  | None => Raise ValueError
  end.

(** *** A codec for the examples

    It writes as [json.dumps] does (separators [", "] and [": "]) and
    reads JSON text, on ASCII text without floats and without [\u]
    escapes; outside of that it gives up. *)

Definition dq : ascii := "034"%char.
Definition bs : ascii := "092"%char.

Definition escape_char (c : ascii) : option string :=
  if Ascii.eqb c dq then Some (String bs (String dq EmptyString))
  else if Ascii.eqb c bs then Some (String bs (String bs EmptyString))
  else if Ascii.eqb c "010"%char then Some (String bs "n")
  else if Ascii.eqb c "013"%char then Some (String bs "r")
  else if Ascii.eqb c "009"%char then Some (String bs "t")
  else if Ascii.eqb c "008"%char then Some (String bs "b")
  else if Ascii.eqb c "012"%char then Some (String bs "f")
  else if (nat_of_ascii c <? 32)%nat then None
  else if (127 <? nat_of_ascii c)%nat then None
  else Some (String c EmptyString).

Fixpoint escape (s : string) : option string :=
  match s with
  | EmptyString => Some EmptyString
  | String c r =>
      match escape_char c, escape r with
      | Some e, Some r' => Some (e +:+ r')
      | _, _ => None
      end
  end.

Definition quote (s : string) : option string :=
  match escape s with
  | Some e => Some (String dq e +:+ String dq EmptyString)
  | None => None
  end.

Fixpoint join (sep : string) (l : list string) : string :=
  match l with
  | [] => EmptyString
  | [x] => x
  | x :: r => x +:+ sep +:+ join sep r
  end.

Fixpoint sequence {A} (l : list (option A)) : option (list A) :=
  match l with
  | [] => Some []
  | Some a :: r => match sequence r with Some r' => Some (a :: r') | None => None end
  | None :: _ => None
  end.

Fixpoint write (v : pyval) : option str :=
  match v with
  | PyNone => Some "null"
  | PyBool true => Some "true"
  | PyBool false => Some "false"
  | PyInt z => Some (pretty z)
  | PyFloat _ => None
  | PyStr s => quote s
  | PyBytes _ => None
  | PyList l =>
      match sequence (map write l) with
      | Some items => Some ("[" +:+ join ", " items +:+ "]")
      | None => None
      end
  | PyDict d =>
      match sequence (map (fun kv =>
                match quote (fst kv), write (snd kv) with
                | Some k, Some t => Some (k +:+ ": " +:+ t)
                | _, _ => None
                end) d) with
      | Some items => Some ("{" +:+ join ", " items +:+ "}")
      | None => None
      end
  end.

Definition ref_encoder (v : pyval) : option str :=
  if serializable v then write v else None.

Definition is_ws (c : ascii) : bool :=
  Ascii.eqb c " "%char || Ascii.eqb c "009"%char
  || Ascii.eqb c "010"%char || Ascii.eqb c "013"%char.

Fixpoint skip_ws (s : string) : string :=
  match s with
  | String c r => if is_ws c then skip_ws r else s
  | EmptyString => s
  end.

Definition is_digit (c : ascii) : bool :=
  ((48 <=? nat_of_ascii c) && (nat_of_ascii c <=? 57))%nat.

Fixpoint read_digits (s : string) (acc : Z) : Z * string :=
  match s with
  | String c r =>
      if is_digit c then read_digits r (10 * acc + (Z.of_nat (nat_of_ascii c) - 48))
      else (acc, s)
  | EmptyString => (acc, s)
  end.

(** An integer literal: ['0'] or a digit string without a leading zero;
    a fraction or an exponent makes it a float, which this codec leaves. *)
Definition read_int (s : string) : option (Z * string) :=
  match s with
  | String c r =>
      if is_digit c then
        let '(z, rest) := if Ascii.eqb c "0"%char then (0, r) else read_digits s 0 in
        match rest with
        | String c' _ =>
            if is_digit c' || Ascii.eqb c' "."%char
               || Ascii.eqb c' "e"%char || Ascii.eqb c' "E"%char
            then None else Some (z, rest)
        | EmptyString => Some (z, rest)
        end
      else None
  | EmptyString => None
  end.

(** The body of a string literal, after the opening quote. *)
Fixpoint read_string (s : string) : option (string * string) :=
  match s with
  | EmptyString => None
  | String c r =>
      if Ascii.eqb c dq then Some (EmptyString, r)
      else if Ascii.eqb c bs then
        match r with
        | String e r' =>
            let unescaped :=
              if Ascii.eqb e dq then Some dq
              else if Ascii.eqb e bs then Some bs
              else if Ascii.eqb e "/"%char then Some "/"%char
              else if Ascii.eqb e "n"%char then Some "010"%char
              else if Ascii.eqb e "r"%char then Some "013"%char
              else if Ascii.eqb e "t"%char then Some "009"%char
              else if Ascii.eqb e "b"%char then Some "008"%char
              else if Ascii.eqb e "f"%char then Some "012"%char
              else None in
            match unescaped, read_string r' with
            | Some u, Some (t, rest) => Some (String u t, rest)
            | _, _ => None
            end
        | EmptyString => None
        end
      else if (nat_of_ascii c <? 32)%nat || (127 <? nat_of_ascii c)%nat then None
      else match read_string r with
           | Some (t, rest) => Some (String c t, rest)
           | None => None
           end
  end.

Definition expect (word : string) (v : pyval) (s : string) : option (pyval * string) :=
  if str_prefix word s
  then Some (v, String.substring (String.length word) (String.length s - String.length word) s)
  else None.

Fixpoint read_value (fuel : nat) (s : string) : option (pyval * string) :=
  match fuel with
  | O => None
  | S fuel =>
      match skip_ws s with
      | EmptyString => None
      | String c r =>
          if Ascii.eqb c "n"%char then expect "null" PyNone (String c r)
          else if Ascii.eqb c "t"%char then expect "true" (PyBool true) (String c r)
          else if Ascii.eqb c "f"%char then expect "false" (PyBool false) (String c r)
          else if Ascii.eqb c dq then
            match read_string r with
            | Some (t, rest) => Some (PyStr t, rest)
            | None => None
            end
          else if Ascii.eqb c "-"%char then
            match read_int r with
            | Some (z, rest) => Some (PyInt (- z), rest)
            | None => None
            end
          else if Ascii.eqb c "["%char then
            match skip_ws r with
            | String "]"%char rest => Some (PyList [], rest)
            | _ => match read_items fuel r with
                   | Some (l, rest) => Some (PyList l, rest)
                   | None => None
                   end
            end
          else if Ascii.eqb c "{"%char then
            match skip_ws r with
            | String "}"%char rest => Some (PyDict [], rest)
            | _ => match read_members fuel r [] with
                   | Some (d, rest) => Some (PyDict d, rest)
                   | None => None
                   end
            end
          else match read_int (String c r) with
               | Some (z, rest) => Some (PyInt z, rest)
               | None => None
               end
      end
  end
with read_items (fuel : nat) (s : string) : option (list pyval * string) :=
  match fuel with
  | O => None
  | S fuel =>
      match read_value fuel s with
      | Some (v, rest) =>
          match skip_ws rest with
          | String ","%char rest' =>
              match read_items fuel rest' with
              | Some (l, rest'') => Some (v :: l, rest'')
              | None => None
              end
          | String "]"%char rest' => Some ([v], rest')
          | _ => None
          end
      | None => None
      end
  end
with read_members (fuel : nat) (s : string) (acc : list (str * pyval))
  : option (list (str * pyval) * string) :=
  match fuel with
  | O => None
  | S fuel =>
      match skip_ws s with
      | String c r =>
          if Ascii.eqb c dq then
            match read_string r with
            | Some (k, rest) =>
                match skip_ws rest with
                | String ":"%char rest' =>
                    match read_value fuel rest' with
                    | Some (v, rest'') =>
                        match skip_ws rest'' with
                        | String ","%char rest3 => read_members fuel rest3 (dict_set k v acc)
                        | String "}"%char rest3 => Some (dict_set k v acc, rest3)
                        | _ => None
                        end
                    | None => None
                    end
                | _ => None
                end
            | None => None
            end
          else None
      | EmptyString => None
      end
  end.

Definition ref_decoder (s : str) : option pyval :=
  match read_value (S (String.length s)) s with
  | Some (v, rest) =>
      match skip_ws rest with
      | EmptyString => Some v
      | _ => None
      end
  | None => None
  end.

Lemma ref_encoder_not_serializable (v : pyval) :
  serializable v = false -> ref_encoder v = None.
Proof. intros H. unfold ref_encoder. now rewrite H. Qed.

#[export] Instance ref_codec : Codec := {|
  encoder := ref_encoder;
  decoder := ref_decoder;
  encoder_not_serializable := ref_encoder_not_serializable
|}.

End Json.

(** ** Sockets

    A socket object carries the script of what the operating system will
    answer to the calls made on it, and the record of what the client has
    done with it. Socket objects live in a heap and are named by their
    index, so that two variables can hold the same object. *)

Module Socket.
Import Py.

Inductive connect_outcome : Type :=
| ConnectOk
| ConnectTimeout
| ConnectError (errno : Z) (strerror : string).

(** [send(data)] either takes the first [n] bytes it has room for (never
    more than [data] holds) and returns how many it took, or raises. *)
Inductive send_outcome : Type :=
| SendAccept (n : nat)
| SendTimeout
| SendError (errno : Z) (strerror : string).

(** [recv(1)] returns one byte, or [b''] when the peer has closed, or
    raises. *)
Inductive recv_outcome : Type :=
| RecvByte (c : byte)
| RecvEOF
| RecvTimeout
| RecvError (errno : Z) (strerror : string).

Record pysocket : Type := {
  on_connect : connect_outcome;
  on_send : list send_outcome;
  on_recv : list recv_outcome;
  on_shutdown : option (Z * string);  (* [Some]: [shutdown] raises socket.error *)
  connected : bool;
  wire : bytes;                       (* the bytes handed to the peer, in order *)
  shutdown_calls : nat;
  closed : bool
}.

Definition with_connected (v : bool) (sk : pysocket) : pysocket :=
  {| on_connect := on_connect sk; on_send := on_send sk; on_recv := on_recv sk;
     on_shutdown := on_shutdown sk; connected := v; wire := wire sk;
     shutdown_calls := shutdown_calls sk; closed := closed sk |}.

Definition with_on_send (v : list send_outcome) (sk : pysocket) : pysocket :=
  {| on_connect := on_connect sk; on_send := v; on_recv := on_recv sk;
     on_shutdown := on_shutdown sk; connected := connected sk; wire := wire sk;
     shutdown_calls := shutdown_calls sk; closed := closed sk |}.

Definition with_on_recv (v : list recv_outcome) (sk : pysocket) : pysocket :=
  {| on_connect := on_connect sk; on_send := on_send sk; on_recv := v;
     on_shutdown := on_shutdown sk; connected := connected sk; wire := wire sk;
     shutdown_calls := shutdown_calls sk; closed := closed sk |}.

Definition with_wire (v : bytes) (sk : pysocket) : pysocket :=
  {| on_connect := on_connect sk; on_send := on_send sk; on_recv := on_recv sk;
     on_shutdown := on_shutdown sk; connected := connected sk; wire := v;
     shutdown_calls := shutdown_calls sk; closed := closed sk |}.

Definition with_shutdown_calls (v : nat) (sk : pysocket) : pysocket :=
  {| on_connect := on_connect sk; on_send := on_send sk; on_recv := on_recv sk;
     on_shutdown := on_shutdown sk; connected := connected sk; wire := wire sk;
     shutdown_calls := v; closed := closed sk |}.

Definition with_closed (v : bool) (sk : pysocket) : pysocket :=
  {| on_connect := on_connect sk; on_send := on_send sk; on_recv := on_recv sk;
     on_shutdown := on_shutdown sk; connected := connected sk; wire := wire sk;
     shutdown_calls := shutdown_calls sk; closed := v |}.

(** The state of a [_QemuGuestAgentSocketClient] and of its surroundings. *)
Record world : Type := {
  self_sock : option nat;     (* [self.sock] *)
  self_where : string;        (* [self.where] *)
  heap : list pysocket;
  incoming : list pysocket;   (* the sockets [socket.socket()] will hand out *)
  now : Z                     (* [time.time()], in whole seconds *)
}.

Definition with_self_sock (o : option nat) (w : world) : world :=
  {| self_sock := o; self_where := self_where w; heap := heap w;
     incoming := incoming w; now := now w |}.

Definition with_heap (h : list pysocket) (w : world) : world :=
  {| self_sock := self_sock w; self_where := self_where w; heap := h;
     incoming := incoming w; now := now w |}.

(** [self.sock = o] *)
Definition set_self_sock (o : option nat) : M world unit :=
  fun w => (Ok tt, with_self_sock o w).

Definition get_self_sock : M world (option nat) := fun w => (Ok (self_sock w), w).

(** The world in which the socket object [r] has become [sk]. *)
Definition upd (r : nat) (sk : pysocket) (w : world) : world :=
  with_heap (<[r := sk]> (heap w)) w.

(** A method call on a variable that may hold [None]. *)
Definition on_object {A} (o : option nat) (f : nat -> M world A) : M world A :=
  match o with
  | Some r => f r
  | None => raise AttributeError
  end.

(** A call on the socket object [r]: [f] gives the answer and the object
    after the call. *)
Definition method {A} (r : nat) (f : pysocket -> result A * pysocket) : M world A :=
  fun w => match heap w !! r with
           | Some sk => let '(a, sk') := f sk in (a, upd r sk' w)
           | None => (Raise (socket_error 9 "Bad file descriptor"), w)
           end.

(** A socket nobody listens on: what [socket.socket()] hands out when the
    surroundings have nothing else planned. *)
Definition refused : pysocket :=
  {| on_connect := ConnectError 111 "Connection refused"; on_send := []; on_recv := [];
     on_shutdown := None; connected := false; wire := []; shutdown_calls := 0;
     closed := false |}.

(** [socket.socket(AF_UNIX, SOCK_STREAM)] *)
Definition socket_socket : M world nat :=
  fun w =>
    let sk := match incoming w with sk :: _ => sk | [] => refused end in
    (Ok (length (heap w)),
     {| self_sock := self_sock w; self_where := self_where w;
        heap := heap w ++ [sk]; incoming := tl (incoming w); now := now w |}).

(** [sock.connect(where)] *)
Definition connect (r : nat) (addr : string) : M world unit :=
  method r (fun sk =>
    match on_connect sk with
    | ConnectOk => (Ok tt, with_connected true sk)
    | ConnectTimeout => (Raise socket_timeout, sk)
    | ConnectError errno strerror => (Raise (socket_error errno strerror), sk)
    end).

(** [sock.send(data)]. With nothing planned the call waits until the
    timeout set on the socket. *)
Definition send (r : nat) (data : bytes) : M world nat :=
  method r (fun sk =>
    match on_send sk with
    | SendAccept n :: rest =>
        let k := Nat.min n (length data) in
        (Ok k, with_wire (wire sk ++ take k data) (with_on_send rest sk))
    | SendTimeout :: rest => (Raise socket_timeout, with_on_send rest sk)
    | SendError errno strerror :: rest =>
        (Raise (socket_error errno strerror), with_on_send rest sk)
    | [] => (Raise socket_timeout, sk)
    end).

(** [sock.recv(1)]. The end of the stream stays: every later [recv]
    returns [b''] again. With nothing planned the call waits until the
    timeout. *)
Definition recv1 (r : nat) : M world bytes :=
  method r (fun sk =>
    match on_recv sk with
    | RecvByte c :: rest => (Ok [c], with_on_recv rest sk)
    | RecvEOF :: _ => (Ok [], sk)
    | RecvTimeout :: rest => (Raise socket_timeout, with_on_recv rest sk)
    | RecvError errno strerror :: rest =>
        (Raise (socket_error errno strerror), with_on_recv rest sk)
    | [] => (Raise socket_timeout, sk)
    end).

(** [sock.shutdown(socket.SHUT_RDWR)] *)
Definition shutdown (r : nat) : M world unit :=
  method r (fun sk =>
    (match on_shutdown sk with
     | Some (errno, strerror) => Raise (socket_error errno strerror)
     | None => Ok tt
     end,
     with_shutdown_calls (S (shutdown_calls sk)) sk)).

(** [sock.close()] *)
Definition close (r : nat) : M world unit :=
  method r (fun sk => (Ok tt, with_closed true (with_connected false sk))).

(** [time.time()] *)
Definition time_time : M world Z := fun w => (Ok (now w), w).

End Socket.

(** ** mom/Collectors/QemuGuestAgentClient.py *)

Module QemuGuestAgentClient.
Import Py Socket.
Open Scope py_scope.

(** The return value of a guest agent API call: the two attributes
    [error] and [data] of a [QemuAgentRet]. *)
Record QemuAgentRet : Type := {
  error : pyval;
  data : pyval
}.

(** The answer of [_sock_recv_until(...).decode('utf-8')]: [None] has no
    attribute [decode]. *)
Definition decode (received : option bytes) : result str :=
  match received with
  | Some d => Utf8.decode d
  | None => Raise AttributeError
  end.

Definition newline : bytes := [x0a].

(** [data[-n:]] *)
Definition last_bytes (n : nat) (d : bytes) : bytes :=
  match n with
  | O => d
  | _ => drop (length d - n) d
  end.

Definition bytes_eqb (x y : bytes) : bool :=
  (length x =? length y)%nat && forallb (fun p => Byte.eqb (fst p) (snd p)) (combine x y).

Section Client.
Context `{Json.Codec}.

(** [QemuAgentRet.__init__(json_str)] *)
Definition QemuAgentRet_init (json_str : str) : result QemuAgentRet :=
  match Json.loads json_str with
  | Raise e => Raise e
  | Ok obj =>
      match contains "error" obj with
      | Raise e => Raise e
      | Ok true =>
          match getitem obj "error" with
          | Ok v => Ok {| error := v; data := PyNone |}
          | Raise e => Raise e
          end
      | Ok false =>
          match getitem obj "return" with
          | Ok v => Ok {| error := PyNone; data := v |}
          | Raise e => Raise e
          end
      end
  end.

(** *** class _QemuGuestAgentSocketClient

    The calls to [self.logger.debug] are left out: they change nothing
    the client looks at. *)

(** [_sock_close(sock)]. In Python 3 [socket.timeout] is a subclass of
    [socket.error]. *)
Definition _sock_close (sock : option nat) : M world unit :=
  try_except
    (on_object sock shutdown ;;;
     on_object sock close)
    (fun e => match e with
              | socket_error _ _ | socket_timeout => Some (ret tt)
              | _ => None
              end).

(** The three statements of every fault handler:
    [self._sock_close(self.sock); self.sock = None; raise ProtocolError(errno, msg)] *)
Definition close_and_raise {A} (errno : Z) (msg : string) : M world A :=
  s <- get_self_sock ;;
  _sock_close s ;;;
  set_self_sock None ;;;
  raise (ProtocolError errno msg).

(** The handlers [except socket.timeout] and [except socket.error as e]
    of [_sock_send] and [_sock_recv_until]. *)
Definition transport_fault {A} (e : exn) : option (M world A) :=
  match e with
  | socket_timeout => Some (close_and_raise (-1) "Timed out")
  | socket_error errno strerror => Some (close_and_raise errno strerror)
  | _ => None
  end.

(** The loop of [_sock_send]; [sent] grows by at least one in every
    round, so [len(msg) - sent] rounds are enough. *)
Fixpoint sock_send_loop (fuel : nat) (sock : option nat) (msg : bytes) (sent : nat)
  : M world unit :=
  if (sent <? length msg)%nat then
    match fuel with
    | O => raise OutOfFuel
    | S fuel =>
        n <- try_except (on_object sock (fun r => send r (drop sent msg))) transport_fault ;;
        if (n =? 0)%nat then close_and_raise (-1) "Unable to send on socket"
        else sock_send_loop fuel sock msg (sent + n)
    end
  else ret tt.

(** [_sock_send(sock, msg)] *)
Definition _sock_send (sock : option nat) (msg : bytes) : M world unit :=
  sock_send_loop (length msg) sock msg 0.

Definition recv_limit : nat := 4096.

(** The loop of [_sock_recv_until]; [data] grows by one byte in every
    round and the loop leaves when it is longer than [recv_limit]. *)
Fixpoint sock_recv_loop (fuel : nat) (sock : option nat) (token : bytes) (data : bytes)
  : M world (option bytes) :=
  if (recv_limit <? length data)%nat then ret None
  else
    match fuel with
    | O => raise OutOfFuel
    | S fuel =>
        ch <- try_except (on_object sock recv1) transport_fault ;;
        match ch with
        | [] => ret None
        | _ =>
            let data := data ++ ch in
            if bytes_eqb (last_bytes (length token) data) token then ret (Some data)
            else sock_recv_loop fuel sock token data
        end
    end.

(** [_sock_recv_until(sock, token)] *)
Definition _sock_recv_until (sock : option nat) (token : bytes) : M world (option bytes) :=
  sock_recv_loop (S (S recv_limit)) sock token [].

Definition request (command : str) (args : pyval) : pyval :=
  PyDict [("execute", PyStr command); ("arguments", args)].

(** The loop of [_reset_conn]. Every round takes at least one answer of
    [recv] from the socket or leaves the loop. *)
Fixpoint reset_conn_loop (fuel : nat) (sock : option nat) (seq : Z) : M world unit :=
  match fuel with
  | O => raise OutOfFuel
  | S fuel =>
      received <- _sock_recv_until sock newline ;;
      response <- lift (decode received) ;;
      resp_obj <- lift (Json.loads response) ;;
      found <- lift (contains "return" resp_obj) ;;
      if found : bool then
        matched <- try_except
                     (v <- lift (getitem resp_obj "return") ;;
                      ret (eq_int v seq))
                     (fun e => match e with
                               | TypeError => Some (ret false)
                               | _ => None
                               end) ;;
        if matched : bool then ret tt else reset_conn_loop fuel sock seq
      else reset_conn_loop fuel sock seq
  end.

(** The answers of [recv] still planned on [sock], plus one. *)
Definition recv_budget (sock : option nat) : M world nat :=
  fun w => (Ok (match sock with
                | Some r => match heap w !! r with
                            | Some sk => S (length (on_recv sk))
                            | None => 1%nat
                            end
                | None => 1%nat
                end), w).

(** [_reset_conn(sock)] *)
Definition _reset_conn (sock : option nat) : M world unit :=
  t <- time_time ;;
  let seq := t mod 2147483647 in
  req_str <- lift (Json.dumps (request "guest-sync" (PyDict [("id", PyInt seq)]))) ;;
  _sock_send sock (Utf8.encode req_str) ;;;
  fuel <- recv_budget sock ;;
  reset_conn_loop fuel sock seq.

(** [_connect()] *)
Definition _connect : M world unit :=
  try_except
    (r <- socket_socket ;;
     set_self_sock (Some r) ;;;
     s <- get_self_sock ;;
     w <- get ;;
     on_object s (fun r => connect r (self_where w)) ;;;
     s <- get_self_sock ;;
     _reset_conn s)
    (fun e => match e with
              | socket_timeout => Some (close_and_raise (-1) "Timed out")
              | socket_error errno strerror =>
                  Some (close_and_raise errno ("Connection failed: " +:+ strerror))
              | _ => None
              end).

(** [_make_connection()] *)
Definition _make_connection : M world (option nat) :=
  s <- get_self_sock ;;
  match s with
  | None => _connect
  | Some _ => ret tt
  end ;;;
  get_self_sock.

(** [_QemuGuestAgentSocketClient._call(command, args)] *)
Definition _call (command : str) (args : pyval) : M world QemuAgentRet :=
  json_str <- lift (Json.dumps (request command args)) ;;
  sock <- _make_connection ;;
  _sock_send sock (Utf8.encode json_str) ;;;
  received <- _sock_recv_until sock newline ;;
  response <- lift (decode received) ;;
  lift (QemuAgentRet_init response).

(** *** class _QemuGuestAgentLibvirtClient

    The hypervisor interface is an object of the surroundings. What the
    client can see of it: whether looking up its attribute
    [qemuAgentCommand] succeeds, and what the method answers. What is
    recorded of the client: the statements it has run on the interface. *)

Inductive iface_event : Type :=
| Probe                            (* [getattr(hypervisor_iface, 'qemuAgentCommand')] *)
| Command (uuid : str) (text : str). (* [hypervisor_iface.qemuAgentCommand(uuid, text)] *)

Record hypervisor : Type := {
  (** the bound method, if the interface has the attribute *)
  qemuAgentCommand : option (list iface_event -> str -> str -> result str);
  (** what the lookup of a missing attribute raises: [AttributeError]
      for a plain object, [KeyError] for an interface that resolves its
      methods in a table *)
  missing : exn;
  events : list iface_event
}.

Definition record_event (ev : iface_event) (h : hypervisor) : hypervisor :=
  {| qemuAgentCommand := qemuAgentCommand h; missing := missing h;
     events := events h ++ [ev] |}.

Record LibvirtClient : Type := {
  uuid : str
}.

(** [_QemuGuestAgentLibvirtClient.__init__(uuid, hypervisor_iface)] *)
Definition Libvirt_init (guest : str) : M hypervisor LibvirtClient :=
  try_except
    (fun h => (match qemuAgentCommand h with
               | Some _ => Ok tt
               | None => Raise (missing h)
               end, record_event Probe h))
    (fun e => match e with
              | KeyError => Some (raise (Exception "hypervisor does not support qemuAgentCommand"))
              | _ => None
              end) ;;;
  ret {| uuid := guest |}.

(** [_QemuGuestAgentLibvirtClient._call(command, args)] *)
Definition Libvirt_call (self : LibvirtClient) (command : str) (args : pyval)
  : M hypervisor QemuAgentRet :=
  json_str <- lift (Json.dumps (request command args)) ;;
  response <- (fun h => match qemuAgentCommand h with
                        | Some f => (f (events h) (uuid self) json_str,
                                     record_event (Command (uuid self) json_str) h)
                        | None => (Raise (missing h), h)
                        end) ;;
  lift (QemuAgentRet_init response).

End Client.

(** *** class _QemuGuestAgentAPI

    [client_call] is the [_call] of the client the API was built on. *)
Section API.
Context {S : Type} (client_call : str -> pyval -> M S QemuAgentRet).

Definition ping : M S QemuAgentRet :=
  client_call "guest-ping" (PyDict []).

(** [mode] defaults to ["r"] in the source. *)
Definition file_open (path mode : pyval) : M S QemuAgentRet :=
  client_call "guest-file-open" (PyDict [("path", path); ("mode", mode)]).

Definition file_close (handle : pyval) : M S QemuAgentRet :=
  client_call "guest-file-close" (PyDict [("handle", handle)]).

Definition file_read (handle count : pyval) : M S QemuAgentRet :=
  r <- client_call "guest-file-read" (PyDict [("handle", handle); ("count", count)]) ;;
  if truthy (data r) then
    encoded <- lift (getitem (data r) "buf-b64") ;;
    buf <- lift (Base64.b64decode encoded) ;;
    d <- lift (setitem (data r) "buf" buf) ;;
    ret {| error := error r; data := d |}
  else ret r.

(** The argument mapping [file_write] builds. *)
Definition file_write_args (handle buffer : pyval) : result pyval :=
  match Base64.b64encode buffer with
  | Ok encoded => Ok (PyDict [("handle", handle); ("buf-b64", encoded)])
  | Raise e => Raise e
  end.

Definition file_write (handle buffer : pyval) : M S QemuAgentRet :=
  args <- lift (file_write_args handle buffer) ;;
  client_call "guest-file-write" args.

End API.

End QemuGuestAgentClient.

(** ** The host collectors

    [parse_int], [FatalError] and [CollectionError] come from
    [mom.Collectors.Collector], which is not among the sources: [parse_int]
    is a parameter. It returns an [int] or [None], or raises. *)

Module Collector.
Import Py.

(** An [int] or [None]. *)
Abbreviation value := (option Z).

(** [x + y] and [x - y]: [None] is no operand. *)
Definition add (x y : value) : result value :=
  match x, y with
  | Some a, Some c => Ok (Some (a + c))
  | _, _ => Raise TypeError
  end.

Definition sub (x y : value) : result value :=
  match x, y with
  | Some a, Some c => Ok (Some (a - c))
  | _, _ => Raise TypeError
  end.

End Collector.

(** *** mom/Collectors/HostKSM.py *)

Module HostKSM.
Import Py Collector.
Open Scope py_scope.

Definition sysfs_keys : list string :=
  ["full_scans"; "pages_sharing"; "pages_unshared"; "run";
   "pages_shared"; "pages_to_scan"; "pages_volatile";
   "sleep_millisecs"; "merge_across_nodes"].

(** What the host answers. *)
Record host : Type := {
  (** [open(name, 'r')]: [Some strerror] when it raises [IOError] *)
  open_error : string -> option string;
  (** [file.seek(0); file.read()] on the file of that name *)
  read : string -> string;
  (** [pidof ksmd]: [int(out)] when the return code is 0 *)
  pidof_ksmd : option (result Z);
  (** [map(int, open('/proc/%s/stat' % pid).read().split()[13:15])] *)
  stat_13_15 : Z -> result (list Z);
  (** the words [pgrep qemu] prints; [None]: [Popen] raises [OSError] *)
  pgrep_qemu : option (list string);
  (** [int(mem)] for the words [ps -ovsz h pids...] prints *)
  ps_vsz : list string -> result (list Z);
  (** [os.sysconf('SC_CLK_TCK')] *)
  clk_tck : Z
}.

(** The attributes of a [HostKSM]; a file object is kept by its name.
    [files] is a [dict] in insertion order. *)
Record self : Type := {
  files : list (string * string);
  interval : Z;
  pid : option Z;
  last_jiff : Z
}.

Definition with_last_jiff (v : Z) (s : self) : self :=
  {| files := files s; interval := interval s; pid := pid s; last_jiff := v |}.

Section Collect.
Variable parse_int : string -> string -> result value.
Variable h : host.

(** [self.files[datum] = f] *)
Fixpoint files_set (datum f : string) (d : list (string * string)) : list (string * string) :=
  match d with
  | [] => [(datum, f)]
  | (k, v) :: d' =>
      if String.eqb k datum then (datum, f) :: d' else (k, v) :: files_set datum f d'
  end.

(** The loop of [open_files] over [keys]. *)
Fixpoint open_files_loop (keys : list string) (acc : list (string * string))
  : result (list (string * string)) :=
  match keys with
  | [] => Ok acc
  | datum :: rest =>
      let name := "/sys/kernel/mm/ksm/" +:+ datum in
      match open_error h name with
      | None => open_files_loop rest (files_set datum name acc)
      | Some strerror =>
          Raise (FatalError ("HostKSM: open " +:+ name +:+ " failed: " +:+ strerror))
      end
  end.

(** [open_files()] *)
Definition open_files : result (list (string * string)) :=
  open_files_loop sysfs_keys [].

(** [_get_ksmd_pid()] *)
Definition _get_ksmd_pid : result (option Z) :=
  match pidof_ksmd h with
  | Some (Ok p) => Ok (Some p)
  | Some (Raise e) => Raise e
  | None => Ok None
  end.

(** [get_ksmd_jiffies()] *)
Definition get_ksmd_jiffies (p : option Z) : result Z :=
  match p with
  | None => Ok 0
  | Some p =>
      match stat_13_15 h p with
      | Ok l => Ok (foldr Z.add 0 l)
      | Raise e => Raise e
      end
  end.

(** [__init__(properties)] *)
Definition init (properties : gmap string Z) : result self :=
  match open_files with
  | Raise e => Raise e
  | Ok fs =>
      match properties !! "interval" with
      | None => Raise KeyError
      | Some i =>
          match _get_ksmd_pid with
          | Raise e => Raise e
          | Ok p =>
              match get_ksmd_jiffies p with
              | Raise e => Raise e
              | Ok j => Ok {| files := fs; interval := i; pid := p; last_jiff := j |}
              end
          end
      end
  end.

(** [get_ksmd_cpu_usage()]. The quotient of the source is a float
    division followed by [int()], which truncates. *)
Definition get_ksmd_cpu_usage : M self value :=
  s <- get ;;
  cur_jiff <- lift (get_ksmd_jiffies (pid s)) ;;
  let interval_jiffs := (cur_jiff - last_jiff s) mod 2 ^ 32 in
  let total_jiffs := clk_tck h * interval s in
  put (with_last_jiff cur_jiff s) ;;;
  if total_jiffs =? 0 then raise ZeroDivisionError
  else ret (Some (Z.quot (100 * interval_jiffs) total_jiffs)).

(** [get_shareable_mem()] *)
Definition get_shareable_mem : result value :=
  match pgrep_qemu h with
  | None => Raise (CollectionError "HostKSM: Unable to execute pgrep")
  | Some pids =>
      match pids with
      | [] => Ok (Some 0)
      | _ =>
          match ps_vsz h pids with
          | Ok mems => Ok (Some (fold_left Z.add mems 0))
          | Raise e => Raise e
          end
      end
  end.

(** The loop of [collect] over [self.files.items()]. *)
Fixpoint collect_files (fs : list (string * string)) (data : gmap string value)
  : result (gmap string value) :=
  match fs with
  | [] => Ok data
  | (datum, file) :: rest =>
      match parse_int "(.*)" (read h file) with
      | Ok v => collect_files rest (<["ksm_" +:+ datum := v]> data)
      | Raise e => Raise e
      end
  end.

(** [collect()] *)
Definition collect : M self (gmap string value) :=
  s <- get ;;
  data <- lift (collect_files (files s) ∅) ;;
  shareable <- lift get_shareable_mem ;;
  let data := <["ksm_shareable" := shareable]> data in
  usage <- get_ksmd_cpu_usage ;;
  let data := <["ksmd_cpu_usage" := usage]> data in
  ret data.

End Collect.

(** [getFields()] *)
Definition getFields : gset string :=
  list_to_set (map (fun x => "ksm_" +:+ x) sysfs_keys)
  ∪ {[ "ksm_shareable"; "ksmd_cpu_usage" ]}.

End HostKSM.

(** *** mom/Collectors/HostMemory.py *)

Module HostMemory.
Import Py Collector.
Open Scope py_scope.

(** The attributes of a [HostMemory] that [collect] uses, and what its
    two files hold when they are read. *)
Record self : Type := {
  meminfo : string;          (* [self.meminfo.seek(0); self.meminfo.read()] *)
  vmstat : string;           (* [self.vmstat.seek(0); self.vmstat.read()] *)
  swap_in_prev : value;
  swap_in_cur : value;
  swap_out_prev : value;
  swap_out_cur : value
}.

Definition with_swap_in (prev cur : value) (s : self) : self :=
  {| meminfo := meminfo s; vmstat := vmstat s;
     swap_in_prev := prev; swap_in_cur := cur;
     swap_out_prev := swap_out_prev s; swap_out_cur := swap_out_cur s |}.

Definition with_swap_out (prev cur : value) (s : self) : self :=
  {| meminfo := meminfo s; vmstat := vmstat s;
     swap_in_prev := swap_in_prev s; swap_in_cur := swap_in_cur s;
     swap_out_prev := prev; swap_out_cur := cur |}.

Definition modify (f : self -> self) : M self unit := fun s => (Ok tt, f s).

Section Collect.
Variable parse_int : string -> string -> result value.

(** [collect()] *)
Definition collect : M self (gmap string value) :=
  s <- get ;;
  let contents := meminfo s in
  avail <- lift (parse_int "^MemTotal: (.*) kB" contents) ;;
  anon <- lift (parse_int "^AnonPages: (.*) kB" contents) ;;
  unused <- lift (parse_int "^MemFree: (.*) kB" contents) ;;
  buffers <- lift (parse_int "^Buffers: (.*) kB" contents) ;;
  cached <- lift (parse_int "^Cached: (.*) kB" contents) ;;
  unused_buffers <- lift (add unused buffers) ;;
  free <- lift (add unused_buffers cached) ;;
  swap_total <- lift (parse_int "^SwapTotal: (.*) kB" contents) ;;
  swap_free <- lift (parse_int "^SwapFree: (.*) kB" contents) ;;
  let contents := vmstat s in
  modify (fun s => with_swap_in (swap_in_cur s) (swap_in_cur s) s) ;;;
  modify (fun s => with_swap_out (swap_out_cur s) (swap_out_cur s) s) ;;;
  in_cur <- lift (parse_int "^pswpin (.*)" contents) ;;
  modify (fun s => with_swap_in (swap_in_prev s) in_cur s) ;;;
  out_cur <- lift (parse_int "^pswpout (.*)" contents) ;;
  modify (fun s => with_swap_out (swap_out_prev s) out_cur s) ;;;
  modify (fun s => match swap_in_prev s with
                   | None => with_swap_in (swap_in_cur s) (swap_in_cur s) s
                   | Some _ => s
                   end) ;;;
  modify (fun s => match swap_out_prev s with
                   | None => with_swap_out (swap_out_cur s) (swap_out_cur s) s
                   | Some _ => s
                   end) ;;;
  s <- get ;;
  swap_in <- lift (sub (swap_in_cur s) (swap_in_prev s)) ;;
  swap_out <- lift (sub (swap_out_cur s) (swap_out_prev s)) ;;
  swap_usage <- lift (sub swap_total swap_free) ;;
  ret (<["swap_usage" := swap_usage]>
       (<["swap_total" := swap_total]>
        (<["anon_pages" := anon]>
         (<["swap_out" := swap_out]>
          (<["swap_in" := swap_in]>
           (<["mem_free" := free]>
            (<["mem_unused" := unused]>
             (<["mem_available" := avail]> ∅)))))))).

End Collect.

(** [getFields()] *)
Definition getFields : gset string :=
  {[ "mem_available"; "mem_unused"; "mem_free"; "swap_in"; "swap_out";
     "anon_pages"; "swap_total"; "swap_usage" ]}.

End HostMemory.

(** * Verification *)

(** ** Worlds and the socket in use *)

Module WorldFacts.
Import Py Socket.

Lemma with_heap_id (w : world) : with_heap (heap w) w = w.
Proof. now destruct w. Qed.

Lemma upd_id (r : nat) (sk : pysocket) (w : world) :
  heap w !! r = Some sk -> upd r sk w = w.
Proof.
  intros E. unfold upd. rewrite list_insert_id by exact E. apply with_heap_id.
Qed.

Lemma upd_upd (r : nat) (sk sk' : pysocket) (w : world) :
  upd r sk' (upd r sk w) = upd r sk' w.
Proof.
  unfold upd, with_heap; simpl. now rewrite list_insert_insert_eq.
Qed.

Lemma heap_upd (r : nat) (sk : pysocket) (w : world) :
  (r < length (heap w))%nat -> heap (upd r sk w) !! r = Some sk.
Proof. intros L. simpl. now apply list_lookup_insert_eq. Qed.



Lemma self_sock_upd (r : nat) (sk : pysocket) (w : world) :
  self_sock (upd r sk w) = self_sock w.
Proof. reflexivity. Qed.

(** A call on the object [r] of a world in which [r] is [sk]. *)
Lemma method_upd {A} (r : nat) (f : pysocket -> result A * pysocket)
      (sk : pysocket) (w : world) :
  (r < length (heap w))%nat ->
  method r f (upd r sk w) = (fst (f sk), upd r (snd (f sk)) w).
Proof.
  intros L. unfold method. rewrite heap_upd by exact L.
  destruct (f sk) as [a sk']. simpl fst; simpl snd. now rewrite upd_upd.
Qed.

(** What [_sock_close] leaves of a socket: [shutdown] has been called,
    and [close] too unless [shutdown] raised. *)
Definition after_close (sk : pysocket) : pysocket :=
  let sk' := with_shutdown_calls (S (shutdown_calls sk)) sk in
  match on_shutdown sk with
  | Some _ => sk'
  | None => with_closed true (with_connected false sk')
  end.

End WorldFacts.

(** ** Sending *)

Module SendFacts.
Import Py Socket QemuGuestAgentClient WorldFacts.

(** The socket after [k] bytes of the message went out and the planned
    answers [rest] of [send] are left. *)
Definition sent_on (sk : pysocket) (out : bytes) (rest : list send_outcome) : pysocket :=
  with_wire (wire sk ++ out) (with_on_send rest sk).

Lemma sent_on_nil (sk : pysocket) : sent_on sk [] (on_send sk) = sk.
Proof. unfold sent_on. rewrite app_nil_r. now destruct sk. Qed.

Lemma with_on_send_id (sk : pysocket) : with_on_send (on_send sk) sk = sk.
Proof. now destruct sk. Qed.

Lemma sent_on_sent_on (sk : pysocket) (o1 o2 : bytes) (r1 r2 : list send_outcome) :
  sent_on (sent_on sk o1 r1) o2 r2 = sent_on sk (o1 ++ o2) r2.
Proof. unfold sent_on, with_wire, with_on_send; simpl. now rewrite app_assoc. Qed.

Lemma sock_send_loop_unfold (fuel : nat) (sock : option nat) (msg : bytes) (sent : nat) :
  sock_send_loop fuel sock msg sent =
  if (sent <? length msg)%nat then
    match fuel with
    | O => raise OutOfFuel
    | S fuel =>
        bind (try_except (on_object sock (fun r => send r (drop sent msg))) transport_fault)
             (fun n => if (n =? 0)%nat then close_and_raise (-1) "Unable to send on socket"
                       else sock_send_loop fuel sock msg (sent + n))
    end
  else ret tt.
Proof. now destruct fuel. Qed.

(** [self._sock_close(self.sock); self.sock = None; raise ProtocolError]
    when [self.sock] is the socket [r]. *)
Lemma close_and_raise_current {A} (errno : Z) (msg : string) (r : nat)
      (sk : pysocket) (w : world) :
  (r < length (heap w))%nat -> self_sock w = Some r ->
  @close_and_raise A errno msg (upd r sk w) =
  (Raise (ProtocolError errno msg), with_self_sock None (upd r (after_close sk) w)).
Proof.
  intros L E. unfold close_and_raise, bind, get_self_sock. rewrite self_sock_upd, E.
  unfold _sock_close, try_except, bind, on_object, shutdown, close.
  rewrite method_upd by exact L. simpl fst; simpl snd.
  unfold after_close. destruct (on_shutdown sk) as [[errno' strerror]|] eqn:Esh.
  - reflexivity.
  - rewrite method_upd by exact L. reflexivity.
Qed.

Section Send.
Variables (r : nat) (msg : bytes) (w : world).
Hypothesis r_valid : (r < length (heap w))%nat.

(** As long as [send] takes at least one byte, the loop goes on until the
    whole message is out. *)
Lemma sock_send_loop_accepts (ns : list nat) :
  forall (fuel sent : nat) (sk : pysocket) (tail : list send_outcome),
    on_send sk = map SendAccept ns ++ tail ->
    Forall (fun n => 0 < n)%nat ns ->
    (sent <= length msg)%nat ->
    (length msg <= sent + sum_list ns)%nat ->
    (length msg - sent <= fuel)%nat ->
    exists rest,
      sock_send_loop fuel (Some r) msg sent (upd r sk w)
      = (Ok tt, upd r (sent_on sk (drop sent msg) rest) w)
      /\ (exists used, on_send sk = used ++ rest /\ (length used <= length msg - sent)%nat).
Proof.
  induction ns as [|n ns IH]; intros fuel sent sk tail Hs Hpos Hle Hcap Hfuel;
    rewrite sock_send_loop_unfold.
  - simpl in Hcap. assert (sent = length msg) as -> by lia.
    rewrite Nat.ltb_irrefl. exists (on_send sk). split.
    + unfold ret. rewrite drop_all, sent_on_nil. reflexivity.
    + exists []. split; [reflexivity | simpl; lia].
  - destruct (sent <? length msg)%nat eqn:Hlt.
    + apply Nat.ltb_lt in Hlt. destruct fuel as [|fuel]; [lia|].
      inversion Hpos as [|? ? Hn Hpos']; subst.
      unfold bind at 1, try_except, on_object, send.
      rewrite method_upd by exact r_valid. cbv beta. rewrite Hs. simpl fst; simpl snd.
      rewrite length_drop.
      destruct (Nat.min n (length msg - sent) =? 0)%nat eqn:Hz;
        [apply Nat.eqb_eq in Hz; lia|].
      set (k := Nat.min n (length msg - sent)).
      destruct (IH fuel (sent + k)%nat
                   (with_wire (wire sk ++ take k (drop sent msg))
                              (with_on_send (map SendAccept ns ++ tail) sk)) tail)
        as (rest & Hrun & used & Hused & Hlen);
        [reflexivity | exact Hpos' | lia | simpl in Hcap; lia | lia |].
      exists rest. split.
      * rewrite Hrun. f_equal. f_equal.
        change (with_wire (wire sk ++ take k (drop sent msg))
                          (with_on_send (map SendAccept ns ++ tail) sk))
          with (sent_on sk (take k (drop sent msg)) (map SendAccept ns ++ tail)).
        rewrite sent_on_sent_on. f_equal.
        rewrite <- (drop_drop msg k sent). apply take_drop.
      * exists (SendAccept n :: used). simpl in Hused. split.
        -- simpl. now rewrite Hused.
        -- simpl. lia.
    + apply Nat.ltb_ge in Hlt. assert (sent = length msg) as -> by lia.
      exists (on_send sk). split.
      * unfold ret. rewrite drop_all, sent_on_nil. reflexivity.
      * exists []. split; [reflexivity | simpl; lia].
Qed.

(** The planned answers of [send] start with a fault: a timeout (also
    when nothing is planned), a socket error, or a [send] that takes no
    byte. The fault has the code and the text of the [ProtocolError] it
    becomes, and leaves the planned answers after it. *)
Definition send_fault (plan : list send_outcome) : option (Z * string * list send_outcome) :=
  match plan with
  | [] => Some (-1, "Timed out", [])
  | SendTimeout :: rest => Some (-1, "Timed out", rest)
  | SendError errno strerror :: rest => Some (errno, strerror, rest)
  | SendAccept O :: rest => Some (-1, "Unable to send on socket", rest)
  | SendAccept (S _) :: _ => None
  end.

(** A fault of [send] before the message is out: the socket in
    [self.sock] goes through [_sock_close], [self.sock] becomes [None],
    [ProtocolError] is raised. *)
Lemma sock_send_loop_fault (ns : list nat) :
  forall (fuel sent : nat) (sk : pysocket) (tail rest : list send_outcome)
         (errno : Z) (text : string),
    self_sock w = Some r ->
    on_send sk = map SendAccept ns ++ tail ->
    send_fault tail = Some (errno, text, rest) ->
    Forall (fun n => 0 < n)%nat ns ->
    (sent + sum_list ns < length msg)%nat ->
    (length msg - sent <= fuel)%nat ->
    sock_send_loop fuel (Some r) msg sent (upd r sk w)
    = (Raise (ProtocolError errno text),
       with_self_sock None
         (upd r (after_close (sent_on sk (take (sum_list ns) (drop sent msg)) rest)) w)).
Proof.
  intros fuel sent sk tail rest errno text Hself. revert fuel sent sk.
  induction ns as [|n ns IH]; intros fuel sent sk Hs Hfault Hpos Hcap Hfuel;
    rewrite sock_send_loop_unfold;
    (destruct (sent <? length msg)%nat eqn:Hlt;
     [apply Nat.ltb_lt in Hlt | apply Nat.ltb_ge in Hlt; simpl in Hcap; lia]);
    (destruct fuel as [|fuel]; [lia|]);
    unfold bind at 1, try_except, on_object, send;
    rewrite method_upd by exact r_valid; cbv beta; rewrite Hs; simpl app.
  - assert (sent_on sk (take (sum_list []) (drop sent msg)) rest = with_on_send rest sk) as ->.
    { unfold sent_on. simpl. rewrite app_nil_r. now destruct sk. }
    destruct tail as [|[[|n]| |errno' strerror] tail]; simpl in Hfault;
      inversion Hfault; subst; simpl fst; simpl snd; cbv beta iota.
    + assert (with_on_send [] sk = sk) as ->
        by (simpl in Hs; rewrite <- Hs; apply with_on_send_id).
      unfold transport_fault. now rewrite close_and_raise_current by assumption.
    + change (0 =? 0)%nat with true. cbv iota.
      rewrite close_and_raise_current by assumption.
      do 4 f_equal. simpl take. rewrite app_nil_r. now destruct sk.
    + unfold transport_fault. now rewrite close_and_raise_current by assumption.
    + unfold transport_fault. now rewrite close_and_raise_current by assumption.
  - inversion Hpos as [|? ? Hn Hpos']; subst. simpl in Hcap.
    simpl fst; simpl snd. rewrite length_drop.
    destruct (Nat.min n (length msg - sent) =? 0)%nat eqn:Hz;
      [apply Nat.eqb_eq in Hz; lia|].
    assert (Nat.min n (length msg - sent) = n) as -> by lia.
    rewrite (IH fuel (sent + n)%nat); [| reflexivity | exact Hfault | exact Hpos' | lia | lia].
    f_equal. f_equal. f_equal. f_equal.
    change (with_wire (wire sk ++ take n (drop sent msg))
                      (with_on_send (map SendAccept ns ++ tail) sk))
      with (sent_on sk (take n (drop sent msg)) (map SendAccept ns ++ tail)).
    rewrite sent_on_sent_on. f_equal.
    rewrite <- (drop_drop msg n sent).
    simpl sum_list. rewrite <- (take_take_drop (drop sent msg) n (sum_list ns)).
    reflexivity.
Qed.

End Send.

End SendFacts.

(** ** Worlds for the examples *)

Module Examples.
Import Py Socket QemuGuestAgentClient.

(** A socket that connects, with the given plans for [send] and [recv]. *)
Definition listening (sends : list send_outcome) (recvs : list recv_outcome) : pysocket :=
  {| on_connect := ConnectOk; on_send := sends; on_recv := recvs; on_shutdown := None;
     connected := false; wire := []; shutdown_calls := 0; closed := false |}.

(** A client that is connected to the socket [sk]. *)
Definition connected_to (sk : pysocket) : world :=
  {| self_sock := Some 0%nat; self_where := "/var/lib/libvirt/qemu/guest.agent";
     heap := [with_connected true sk]; incoming := []; now := 1700000000 |}.

(** A client that has no connection yet and will get [sk] from
    [socket.socket()]. *)
Definition disconnected (sk : pysocket) : world :=
  {| self_sock := None; self_where := "/var/lib/libvirt/qemu/guest.agent";
     heap := []; incoming := [sk]; now := 1700000000 |}.

(** The text the codec of the examples writes for an object. *)
Definition text_of (v : pyval) : str :=
  match Json.ref_encoder v with
  | Some s => s
  | None => EmptyString
  end.

(** The bytes the agent writes for an object, without the newline. *)
Definition reply (v : pyval) : bytes := Utf8.encode (text_of v).

(** [{"return": v}] *)
Definition returning (v : pyval) : pyval := PyDict [("return", v)].

Definition arriving (data : bytes) : list recv_outcome := map RecvByte data.

End Examples.

Module SendTheorems.
Import Py Socket QemuGuestAgentClient WorldFacts SendFacts Examples.

(** C5. [_sock_send] on partial sends: when the socket takes fewer bytes
    than it is handed, but at least one each time, the loop goes on until
    the whole message is on the wire, every byte once and in order; a
    [send] that takes no byte before the message is complete tears the
    connection down and raises [ProtocolError(-1, "Unable to send on socket")]. *)
Theorem sock_send_partial_writes :
  (forall (r : nat) (msg : bytes) (w : world) (sk : pysocket)
          (ns : list nat) (tail : list send_outcome),
      heap w !! r = Some sk ->
      on_send sk = map SendAccept ns ++ tail ->
      Forall (fun n => 0 < n)%nat ns ->
      (length msg <= sum_list ns)%nat ->
      exists rest,
        _sock_send (Some r) msg w = (Ok tt, upd r (sent_on sk msg rest) w)
        /\ wire (sent_on sk msg rest) = wire sk ++ msg
        /\ (exists used, on_send sk = used ++ rest /\ (length used <= length msg)%nat))
  /\
  (forall (r : nat) (msg : bytes) (w : world) (sk : pysocket)
          (ns : list nat) (tail : list send_outcome),
      heap w !! r = Some sk ->
      self_sock w = Some r ->
      on_send sk = map SendAccept ns ++ SendAccept 0 :: tail ->
      Forall (fun n => 0 < n)%nat ns ->
      (sum_list ns < length msg)%nat ->
      _sock_send (Some r) msg w
      = (Raise (ProtocolError (-1) "Unable to send on socket"),
         with_self_sock None
           (upd r (after_close (sent_on sk (take (sum_list ns) msg) tail)) w))).
Proof.
  split.
  - intros r msg w sk ns tail Hr Hs Hpos Hcap.
    pose proof (lookup_lt_Some _ _ _ Hr) as L.
    destruct (sock_send_loop_accepts r msg w L ns (length msg) 0 sk tail)
      as (rest & Hrun & used & Hused & Hlen); try assumption; try lia.
    exists rest. rewrite (upd_id r sk w Hr) in Hrun. rewrite drop_0 in Hrun.
    split; [exact Hrun | split; [reflexivity |]].
    exists used. split; [exact Hused | lia].
  - intros r msg w sk ns tail Hr Hself Hs Hpos Hcap.
    pose proof (lookup_lt_Some _ _ _ Hr) as L.
    pose proof (sock_send_loop_fault r msg w L ns (length msg) 0 sk (SendAccept 0 :: tail) tail
                  (-1) "Unable to send on socket" Hself Hs eq_refl Hpos) as Hrun.
    rewrite (upd_id r sk w Hr), drop_0 in Hrun.
    apply Hrun; lia.
Qed.

(** Eleven bytes go out in pieces of 3, 1, 4 and 3; and a socket that
    takes 3 bytes and then none. *)
Lemma sock_send_partial_writes_witness :
  (exists rest,
      _sock_send (Some 0%nat) (b "hello world")
                 (connected_to (listening (map SendAccept [3; 1; 4; 100]%nat) []))
      = (Ok tt,
         upd 0 (sent_on (with_connected true (listening (map SendAccept [3; 1; 4; 100]%nat) []))
                        (b "hello world") rest)
             (connected_to (listening (map SendAccept [3; 1; 4; 100]%nat) [])))
      /\ wire (sent_on (with_connected true (listening (map SendAccept [3; 1; 4; 100]%nat) []))
                       (b "hello world") rest) = [] ++ b "hello world"
      /\ (exists used,
             map SendAccept [3; 1; 4; 100]%nat = used ++ rest
             /\ (length used <= length (b "hello world"))%nat))
  /\ fst (_sock_send (Some 0%nat) (b "hello world")
                     (connected_to (listening [SendAccept 3; SendAccept 0] [])))
     = Raise (ProtocolError (-1) "Unable to send on socket").
Proof.
  split.
  - apply (proj1 sock_send_partial_writes 0%nat (b "hello world")
                 (connected_to (listening (map SendAccept [3; 1; 4; 100]%nat) []))
                 (with_connected true (listening (map SendAccept [3; 1; 4; 100]%nat) []))
                 [3; 1; 4; 100]%nat []).
    + reflexivity.
    + reflexivity.
    + repeat constructor.
    + vm_compute. lia.
  - rewrite (proj2 sock_send_partial_writes 0%nat (b "hello world")
                   (connected_to (listening [SendAccept 3; SendAccept 0] []))
                   (with_connected true (listening [SendAccept 3; SendAccept 0] []))
                   [3]%nat []).
    + reflexivity.
    + reflexivity.
    + reflexivity.
    + reflexivity.
    + repeat constructor.
    + vm_compute. lia.
Defined.

End SendTheorems.

(** ** Receiving *)

Module RecvFacts.
Import Py Socket QemuGuestAgentClient WorldFacts SendFacts.

(** [data[-len(token):] == token] *)
Definition ends_with (token data : bytes) : bool :=
  bytes_eqb (last_bytes (length token) data) token.

Definition not_newline (c : byte) : bool := negb (Byte.eqb c x0a).

Lemma with_on_recv_id (sk : pysocket) : with_on_recv (on_recv sk) sk = sk.
Proof. now destruct sk. Qed.

Lemma ends_with_newline (d : bytes) (c : byte) :
  ends_with newline (d ++ [c]) = Byte.eqb c x0a.
Proof.
  unfold ends_with, newline, last_bytes. simpl length.
  rewrite length_app. simpl length.
  replace (length d + 1 - 1)%nat with (length d) by lia.
  rewrite drop_app_length. unfold bytes_eqb.
  cbn [combine forallb fst snd length Nat.eqb andb]. now rewrite andb_true_r.
Qed.

Lemma sock_recv_loop_unfold (fuel : nat) (sock : option nat) (token data : bytes) :
  sock_recv_loop fuel sock token data =
  if (recv_limit <? length data)%nat then ret None
  else
    match fuel with
    | O => raise OutOfFuel
    | S fuel =>
        bind (try_except (on_object sock recv1) transport_fault)
             (fun ch => match ch with
                        | [] => ret None
                        | _ =>
                            if bytes_eqb (last_bytes (length token) (data ++ ch)) token
                            then ret (Some (data ++ ch))
                            else sock_recv_loop fuel sock token (data ++ ch)
                        end)
    end.
Proof. now destruct fuel. Qed.

Section Recv.
Variables (r : nat) (token : bytes) (w : world).
Hypothesis r_valid : (r < length (heap w))%nat.

(** One round of the loop on a byte that does not complete the token. *)
Lemma sock_recv_loop_byte (fuel : nat) (data : bytes) (sk : pysocket)
      (c : byte) (rest : list recv_outcome) :
  on_recv sk = RecvByte c :: rest ->
  (length data <= recv_limit)%nat ->
  sock_recv_loop (S fuel) (Some r) token data (upd r sk w) =
  if ends_with token (data ++ [c])
  then (Ok (Some (data ++ [c])), upd r (with_on_recv rest sk) w)
  else sock_recv_loop fuel (Some r) token (data ++ [c]) (upd r (with_on_recv rest sk) w).
Proof.
  intros Hs Hlen. rewrite sock_recv_loop_unfold.
  apply Nat.ltb_ge in Hlen. rewrite Hlen.
  unfold bind at 1, try_except, on_object, recv1.
  rewrite method_upd by exact r_valid. cbv beta. rewrite Hs. simpl fst; simpl snd.
  cbv beta iota. unfold ends_with. now destruct (bytes_eqb _ token).
Qed.

(** The loop runs through bytes that never complete the token. *)
Lemma sock_recv_loop_run (l : bytes) :
  forall (fuel : nat) (data : bytes) (sk : pysocket) (rest : list recv_outcome),
    on_recv sk = map RecvByte l ++ rest ->
    (length data + length l <= S recv_limit)%nat ->
    (forall k, (0 < k <= length l)%nat -> ends_with token (data ++ take k l) = false) ->
    sock_recv_loop (length l + fuel) (Some r) token data (upd r sk w) =
    sock_recv_loop fuel (Some r) token (data ++ l) (upd r (with_on_recv rest sk) w).
Proof.
  induction l as [|c l IH]; intros fuel data sk rest Hs Hlen Hfree.
  - simpl in Hs. rewrite app_nil_r. simpl. rewrite <- Hs. now rewrite with_on_recv_id.
  - simpl length in *. simpl Nat.add.
    rewrite (sock_recv_loop_byte _ _ _ c (map RecvByte l ++ rest)); [| exact Hs | lia].
    assert (ends_with token (data ++ [c]) = false) as -> by (apply (Hfree 1%nat); lia).
    rewrite (IH fuel (data ++ [c]) _ rest).
    + now rewrite <- app_assoc.
    + reflexivity.
    + rewrite length_app. simpl. lia.
    + intros k Hk. rewrite <- app_assoc. apply (Hfree (S k)). lia.
Qed.

(** More than [recv_limit] bytes without the token: the loop returns
    [None]; it raises nothing and leaves [self.sock] as it is. *)
Lemma sock_recv_until_overrun (l : bytes) (sk : pysocket) (rest : list recv_outcome) :
  on_recv sk = map RecvByte l ++ rest ->
  length l = S recv_limit ->
  (forall k, (0 < k <= length l)%nat -> ends_with token (take k l) = false) ->
  _sock_recv_until (Some r) token (upd r sk w) = (Ok None, upd r (with_on_recv rest sk) w).
Proof.
  intros Hs Hlen Hfree. unfold _sock_recv_until.
  replace (S (S recv_limit)) with (length l + 1)%nat by lia.
  rewrite (sock_recv_loop_run l 1 [] sk rest Hs); [| simpl; lia | exact Hfree].
  rewrite sock_recv_loop_unfold. change ([] ++ l) with l.
  assert ((recv_limit <? length l)%nat = true) as -> by (apply Nat.ltb_lt; lia).
  reflexivity.
Qed.

(** The end of the stream after fewer than [recv_limit] bytes without the
    token: [None] again. *)
Lemma sock_recv_until_eof (l : bytes) (sk : pysocket) (rest : list recv_outcome) :
  on_recv sk = map RecvByte l ++ RecvEOF :: rest ->
  (length l <= recv_limit)%nat ->
  (forall k, (0 < k <= length l)%nat -> ends_with token (take k l) = false) ->
  _sock_recv_until (Some r) token (upd r sk w)
  = (Ok None, upd r (with_on_recv (RecvEOF :: rest) sk) w).
Proof.
  intros Hs Hlen Hfree. unfold _sock_recv_until.
  replace (S (S recv_limit)) with (length l + (S (S recv_limit) - length l))%nat by lia.
  rewrite (sock_recv_loop_run l _ [] sk (RecvEOF :: rest) Hs); [| simpl; lia | exact Hfree].
  rewrite sock_recv_loop_unfold. change ([] ++ l) with l.
  apply Nat.ltb_ge in Hlen as Hlen'. rewrite Hlen'.
  destruct (S (S recv_limit) - length l)%nat as [|fuel] eqn:E; [lia|].
  unfold bind, try_except, on_object, recv1.
  rewrite method_upd by exact r_valid. reflexivity.
Qed.

(** The planned answers of [recv] start with a fault: a timeout (also
    when nothing is planned) or a socket error. *)
Definition recv_fault (plan : list recv_outcome) : option (Z * string * list recv_outcome) :=
  match plan with
  | [] => Some (-1, "Timed out", [])
  | RecvTimeout :: rest => Some (-1, "Timed out", rest)
  | RecvError errno strerror :: rest => Some (errno, strerror, rest)
  | RecvByte _ :: _ | RecvEOF :: _ => None
  end.


End Recv.

Lemma newline_free_prefixes (l : bytes) :
  forallb not_newline l = true ->
  forall k, (0 < k <= length l)%nat -> ends_with newline (take k l) = false.
Proof.
  intros Hfree k Hk. destruct k as [|k]; [lia|].
  destruct (lookup_lt_is_Some_2 l k) as [c Hc]; [lia|].
  rewrite (take_S_r l k c Hc), ends_with_newline.
  rewrite forallb_forall in Hfree.
  assert (In c l) as Hin by (apply list_elem_of_In, list_elem_of_lookup; eauto).
  specialize (Hfree c Hin). unfold not_newline in Hfree.
  now destruct (Byte.eqb c x0a).
Qed.

Section Line.
Variables (r : nat) (w : world).
Hypothesis r_valid : (r < length (heap w))%nat.

(** A line of at most [recv_limit] bytes before its newline is read
    whole, and nothing beyond it. *)
Lemma sock_recv_until_line (l : bytes) (sk : pysocket) (rest : list recv_outcome) :
  on_recv sk = map RecvByte (l ++ newline) ++ rest ->
  forallb not_newline l = true ->
  (length l <= recv_limit)%nat ->
  _sock_recv_until (Some r) newline (upd r sk w)
  = (Ok (Some (l ++ newline)), upd r (with_on_recv rest sk) w).
Proof.
  intros Hs Hfree Hlen. unfold _sock_recv_until.
  replace (S (S recv_limit)) with (length l + (S (S recv_limit) - length l))%nat by lia.
  rewrite map_app, <- app_assoc in Hs.
  rewrite (sock_recv_loop_run r newline w r_valid l _ [] sk _ Hs);
    [| simpl; lia | now apply newline_free_prefixes].
  destruct (S (S recv_limit) - length l)%nat as [|fuel] eqn:E; [lia|].
  rewrite (sock_recv_loop_byte r newline w r_valid fuel _ _ x0a rest);
    [| reflexivity | simpl; lia].
  change ([] ++ l) with l. now rewrite ends_with_newline.
Qed.

End Line.

End RecvFacts.

Module RecvTheorems.
Import Py Socket QemuGuestAgentClient WorldFacts RecvFacts Examples.

(** C2, as amended. When the first 4097 bytes of the stream never end in
    the delimiter, [_sock_recv_until] takes exactly those bytes and then
    returns [None], the value it also returns at the end of the stream:
    it raises nothing and leaves [self.sock] in place. *)
Theorem sock_recv_until_size_limit
        (r : nat) (token : bytes) (w : world) (sk : pysocket)
        (l : bytes) (rest : list recv_outcome) :
  heap w !! r = Some sk ->
  on_recv sk = map RecvByte l ++ rest ->
  length l = S recv_limit ->
  (forall k, (0 < k <= length l)%nat -> ends_with token (take k l) = false) ->
  _sock_recv_until (Some r) token w = (Ok None, upd r (with_on_recv rest sk) w).
Proof.
  intros Hr Hs Hlen Hfree.
  rewrite <- (upd_id r sk w Hr) at 1.
  apply (sock_recv_until_overrun r token w (lookup_lt_Some _ _ _ Hr) l); assumption.
Qed.

(** 4097 bytes ["a"] followed by a line. *)
Definition flood : list recv_outcome :=
  arriving (repeat "a"%byte 4097) ++ arriving (b "tail" ++ newline).

Lemma sock_recv_until_size_limit_witness :
  _sock_recv_until (Some 0%nat) newline (connected_to (listening [] flood))
  = (Ok None,
     upd 0 (with_on_recv (arriving (b "tail" ++ newline))
                         (with_connected true (listening [] flood)))
         (connected_to (listening [] flood))).
Proof.
  apply (sock_recv_until_size_limit 0 newline (connected_to (listening [] flood))
           (with_connected true (listening [] flood))
           (repeat "a"%byte 4097) (arriving (b "tail" ++ newline))).
  - reflexivity.
  - reflexivity.
  - vm_compute. reflexivity.
  - apply newline_free_prefixes. vm_compute. reflexivity.
Defined.

(** C2, as stated, fails: on 4097 bytes without a newline the read
    returns a value, [None], and raises no fault. *)
Lemma sock_recv_until_overrun_returns :
  fst (_sock_recv_until (Some 0%nat) newline (connected_to (listening [] flood))) = Ok None
  /\ ~ (exists e,
         fst (_sock_recv_until (Some 0%nat) newline (connected_to (listening [] flood)))
         = Raise e)
  /\ self_sock (snd (_sock_recv_until (Some 0%nat) newline
                                      (connected_to (listening [] flood)))) = Some 0%nat.
Proof.
  assert (fst (_sock_recv_until (Some 0%nat) newline (connected_to (listening [] flood)))
          = Ok None) as E by (vm_compute; reflexivity).
  split; [exact E | split].
  - intros [e He]. rewrite E in He. discriminate He.
  - vm_compute. reflexivity.
Qed.

End RecvTheorems.

(** ** The handshake *)

Module HandshakeFacts.
Import Py Socket QemuGuestAgentClient WorldFacts SendFacts RecvFacts.

Section Handshake.
Context `{Json.Codec}.

(** The object a line of the stream holds: the line is what
    [_sock_recv_until] returns for it, newline included. *)
Definition parses_to (l : bytes) (obj : pyval) : Prop :=
  exists s, Utf8.decode (l ++ newline) = Ok s /\ Json.loads s = Ok obj.

(** A line the read can take whole. *)
Definition framed (l : bytes) : Prop :=
  forallb not_newline l = true /\ (length l <= recv_limit)%nat.

(** A reply that is not the answer to this handshake: an object without
    ['return'], or whose ['return'] is not equal to the token. *)
Definition stale (seq : Z) (l : bytes) : Prop :=
  framed l /\
  exists d, parses_to l (PyDict d) /\
            match dict_get "return" d with
            | None => True
            | Some v => eq_int v seq = false
            end.

(** The answer to this handshake. *)
Definition matching (seq : Z) (l : bytes) : Prop :=
  framed l /\
  exists d v, parses_to l (PyDict d) /\ dict_get "return" d = Some v /\ eq_int v seq = true.

(** The bytes of lines that arrive one after the other. *)
Definition stream (lines : list bytes) : bytes :=
  concat (map (fun l => l ++ newline) lines).

Lemma length_stream (lines : list bytes) : (length lines <= length (stream lines))%nat.
Proof.
  induction lines as [|l lines IH]; simpl; [lia|].
  unfold stream in *. simpl. rewrite !length_app. simpl. lia.
Qed.

Lemma reset_conn_loop_unfold (fuel : nat) (sock : option nat) (seq : Z) :
  reset_conn_loop (S fuel) sock seq =
  bind (_sock_recv_until sock newline) (fun received =>
  bind (lift (decode received)) (fun response =>
  bind (lift (Json.loads response)) (fun resp_obj =>
  bind (lift (contains "return" resp_obj)) (fun found =>
  if found : bool then
    bind (try_except
            (bind (lift (getitem resp_obj "return")) (fun v => ret (eq_int v seq)))
            (fun e => match e with
                      | TypeError => Some (ret false)
                      | _ => None
                      end))
         (fun matched => if matched : bool then ret tt else reset_conn_loop fuel sock seq)
  else reset_conn_loop fuel sock seq)))).
Proof. reflexivity. Qed.

Variables (r : nat) (w : world) (seq : Z).
Hypothesis r_valid : (r < length (heap w))%nat.

(** A round on a stale line goes on with the next round. *)
Lemma reset_conn_loop_stale (fuel : nat) (l : bytes) (sk : pysocket)
      (rest : list recv_outcome) :
  on_recv sk = map RecvByte (l ++ newline) ++ rest ->
  stale seq l ->
  reset_conn_loop (S fuel) (Some r) seq (upd r sk w)
  = reset_conn_loop fuel (Some r) seq (upd r (with_on_recv rest sk) w).
Proof.
  intros Hs [[Hfree Hlen] (d & (s & Hdec & Hload) & Hret)].
  rewrite reset_conn_loop_unfold. unfold bind at 1.
  rewrite (sock_recv_until_line r w r_valid l sk rest Hs Hfree Hlen).
  unfold bind at 1, lift, decode. rewrite Hdec.
  unfold bind at 1. rewrite Hload.
  unfold bind at 1, contains, dict_has.
  destruct (dict_get "return" d) as [v|] eqn:Hget; [| reflexivity].
  unfold bind at 1, try_except, bind, getitem, ret. rewrite Hget, Hret. reflexivity.
Qed.

(** A round on the matching line leaves the loop. *)
Lemma reset_conn_loop_matching (fuel : nat) (l : bytes) (sk : pysocket)
      (rest : list recv_outcome) :
  on_recv sk = map RecvByte (l ++ newline) ++ rest ->
  matching seq l ->
  reset_conn_loop (S fuel) (Some r) seq (upd r sk w)
  = (Ok tt, upd r (with_on_recv rest sk) w).
Proof.
  intros Hs [[Hfree Hlen] (d & v & (s & Hdec & Hload) & Hget & Heq)].
  rewrite reset_conn_loop_unfold. unfold bind at 1.
  rewrite (sock_recv_until_line r w r_valid l sk rest Hs Hfree Hlen).
  unfold bind at 1, lift, decode. rewrite Hdec.
  unfold bind at 1. rewrite Hload.
  unfold bind at 1, contains, dict_has. rewrite Hget.
  unfold bind at 1, try_except, bind, getitem, ret. rewrite Hget, Heq. reflexivity.
Qed.

(** The loop discards stale lines one by one. *)
Lemma reset_conn_loop_discards (lines : list bytes) :
  forall (fuel : nat) (sk : pysocket) (rest : list recv_outcome),
    on_recv sk = map RecvByte (stream lines) ++ rest ->
    Forall (stale seq) lines ->
    reset_conn_loop (length lines + fuel) (Some r) seq (upd r sk w)
    = reset_conn_loop fuel (Some r) seq (upd r (with_on_recv rest sk) w).
Proof.
  induction lines as [|l lines IH]; intros fuel sk rest Hs Hstale.
  - simpl in Hs. simpl. rewrite <- Hs. now rewrite with_on_recv_id.
  - inversion Hstale as [|? ? Hl Hlines]; subst.
    change (stream (l :: lines)) with ((l ++ newline) ++ stream lines) in Hs.
    rewrite map_app, <- app_assoc in Hs.
    simpl length. simpl Nat.add.
    rewrite (reset_conn_loop_stale _ l sk _ Hs Hl).
    rewrite (IH fuel (with_on_recv (map RecvByte (stream lines) ++ rest) sk) rest);
      [reflexivity | reflexivity | exact Hlines].
Qed.

(** The end of the stream in the middle of a line: [None.decode] raises
    [AttributeError], and [self.sock] stays. *)
Lemma reset_conn_loop_eof (fuel : nat) (l : bytes) (sk : pysocket)
      (rest : list recv_outcome) :
  on_recv sk = map RecvByte l ++ RecvEOF :: rest ->
  framed l ->
  reset_conn_loop (S fuel) (Some r) seq (upd r sk w)
  = (Raise AttributeError, upd r (with_on_recv (RecvEOF :: rest) sk) w).
Proof.
  intros Hs [Hfree Hlen].
  rewrite reset_conn_loop_unfold. unfold bind at 1.
  rewrite (sock_recv_until_eof r newline w r_valid l sk rest Hs Hlen
             (newline_free_prefixes l Hfree)).
  reflexivity.
Qed.

End Handshake.

End HandshakeFacts.

Module HandshakeTheorems.
Import Py Socket QemuGuestAgentClient WorldFacts SendFacts RecvFacts HandshakeFacts Examples.

Section Handshake.
Context `{Json.Codec}.

(** The request [_reset_conn] sends at the time of the world [w]. *)
Definition token (w : world) : Z := now w mod 2147483647.

Definition sync_request (w : world) : pyval :=
  request "guest-sync" (PyDict [("id", PyInt (token w))]).

Lemma sock_send_whole (r : nat) (msg : bytes) (w : world) (sk : pysocket)
      (ns : list nat) (tail : list send_outcome) :
  (r < length (heap w))%nat ->
  on_send sk = map SendAccept ns ++ tail ->
  Forall (fun n => 0 < n)%nat ns ->
  (length msg <= sum_list ns)%nat ->
  exists rest, _sock_send (Some r) msg (upd r sk w) = (Ok tt, upd r (sent_on sk msg rest) w).
Proof.
  intros L Hs Hpos Hcap.
  destruct (sock_send_loop_accepts r msg w L ns (length msg) 0 sk tail)
    as (rest & Hrun & _); try assumption; try lia.
  exists rest. rewrite drop_0 in Hrun. exact Hrun.
Qed.

(** C1. With [N >= 0] stale lines buffered before the line whose
    ['return'] equals the token, [_reset_conn] sends the request, reads
    and discards the [N] lines, takes the matching line and returns: what
    is left to read is exactly what followed the matching line. A
    ['return'] of another type than the token is just not equal. *)
Theorem reset_conn_discards_stale_lines
        (r : nat) (w : world) (sk : pysocket) (text : str)
        (ns : list nat) (tail : list send_outcome)
        (lines : list bytes) (answer : bytes) (rest : list recv_outcome) :
  heap w !! r = Some sk ->
  Json.dumps (sync_request w) = Ok text ->
  on_send sk = map SendAccept ns ++ tail ->
  Forall (fun n => 0 < n)%nat ns ->
  (length (Utf8.encode text) <= sum_list ns)%nat ->
  on_recv sk = map RecvByte (stream lines ++ answer ++ newline) ++ rest ->
  Forall (stale (token w)) lines ->
  matching (token w) answer ->
  exists unsent,
    _reset_conn (Some r) w
    = (Ok tt, upd r (with_on_recv rest (sent_on sk (Utf8.encode text) unsent)) w).
Proof.
  intros Hr Htext Hs Hpos Hcap Hrecv Hstale Hmatch.
  pose proof (lookup_lt_Some _ _ _ Hr) as L.
  destruct (sock_send_whole r (Utf8.encode text) w sk ns tail L Hs Hpos Hcap)
    as [unsent Hsend].
  exists unsent.
  unfold _reset_conn, bind at 1, time_time.
  fold (token w). fold (sync_request w).
  unfold bind at 1, lift. rewrite Htext.
  unfold bind at 1. rewrite <- (upd_id r sk w Hr) at 1. rewrite Hsend.
  unfold bind at 1, recv_budget. rewrite heap_upd by exact L.
  change (on_recv (sent_on sk (Utf8.encode text) unsent)) with (on_recv sk).
  rewrite map_app, <- app_assoc in Hrecv.
  assert (length lines <= length (on_recv sk))%nat as Hfuel.
  { rewrite Hrecv, length_app, length_map. pose proof (length_stream lines). lia. }
  replace (S (length (on_recv sk)))
    with (length lines + S (length (on_recv sk) - length lines))%nat by lia.
  rewrite (reset_conn_loop_discards r w (token w) L lines _
             (sent_on sk (Utf8.encode text) unsent)
             (map RecvByte (answer ++ newline) ++ rest) Hrecv Hstale).
  rewrite (reset_conn_loop_matching r w (token w) L _ answer _ rest); [| reflexivity | exact Hmatch].
  reflexivity.
Qed.

End Handshake.

Import Json.

(** Two stale replies, of which one has a ['return'] of another type
    than the token, then the matching reply, then the reply to the next
    command. *)
Definition stale_then_sync : list recv_outcome :=
  arriving (stream [reply (returning (PyStr "left over"));
                    reply (PyDict [("error", PyDict [("class", PyStr "CommandNotFound")])])]
            ++ reply (returning (PyInt 1700000000)) ++ newline)
  ++ arriving (reply (returning (PyDict [])) ++ newline).

Lemma reset_conn_discards_stale_lines_witness :
  exists unsent,
    _reset_conn (Some 0%nat)
                (connected_to (listening [SendAccept 10; SendAccept 1000] stale_then_sync))
    = (Ok tt,
       upd 0 (with_on_recv
                (arriving (reply (returning (PyDict [])) ++ newline))
                (sent_on (with_connected true
                            (listening [SendAccept 10; SendAccept 1000] stale_then_sync))
                         (Utf8.encode
                            (text_of (sync_request
                                        (connected_to
                                           (listening [SendAccept 10; SendAccept 1000]
                                                      stale_then_sync)))))
                         unsent))
           (connected_to (listening [SendAccept 10; SendAccept 1000] stale_then_sync))).
Proof.
  apply (reset_conn_discards_stale_lines 0
           (connected_to (listening [SendAccept 10; SendAccept 1000] stale_then_sync))
           (with_connected true (listening [SendAccept 10; SendAccept 1000] stale_then_sync))
           (text_of (sync_request
                       (connected_to (listening [SendAccept 10; SendAccept 1000]
                                                stale_then_sync))))
           [10; 1000]%nat []
           [reply (returning (PyStr "left over"));
            reply (PyDict [("error", PyDict [("class", PyStr "CommandNotFound")])])]
           (reply (returning (PyInt 1700000000)))
           (arriving (reply (returning (PyDict [])) ++ newline))).
  - reflexivity.
  - vm_compute. reflexivity.
  - reflexivity.
  - repeat constructor.
  - vm_compute. lia.
  - vm_compute. reflexivity.
  - apply List.Forall_cons; [| apply List.Forall_cons; [| apply List.Forall_nil]].
    + split; [split; [vm_compute; reflexivity | apply Nat.leb_le; vm_compute; reflexivity]|].
      exists [("return", PyStr "left over")]. split; [| reflexivity].
      exists (string_of_list_byte (reply (returning (PyStr "left over")) ++ newline)).
      split; vm_compute; reflexivity.
    + split; [split; [vm_compute; reflexivity | apply Nat.leb_le; vm_compute; reflexivity]|].
      exists [("error", PyDict [("class", PyStr "CommandNotFound")])]. split; [| exact I].
      exists (string_of_list_byte
                (reply (PyDict [("error", PyDict [("class", PyStr "CommandNotFound")])])
                 ++ newline)).
      split; vm_compute; reflexivity.
  - split; [split; [vm_compute; reflexivity | apply Nat.leb_le; vm_compute; reflexivity]|].
    exists [("return", PyInt 1700000000)], (PyInt 1700000000).
    split; [| split; vm_compute; reflexivity].
    exists (string_of_list_byte (reply (returning (PyInt 1700000000)) ++ newline)).
    split; vm_compute; reflexivity.
Defined.

(** The peer closes while the handshake waits for the reply. *)
Definition closes_early : list recv_outcome :=
  arriving (stream [reply (returning (PyStr "left over"))]) ++ [RecvEOF].

(** C3, on the code: when the stream ends before the matching reply, the
    handshake does not raise [ProtocolError]. [_sock_recv_until] returns
    [None], [None.decode] raises [AttributeError]; no fault handler runs,
    so the socket stays open and [self.sock] stays set, and the next call
    sends on the connection that was never synchronised. *)
Theorem reset_conn_end_of_stream :
  fst (_reset_conn (Some 0%nat) (connected_to (listening [SendAccept 1000] closes_early)))
  = Raise AttributeError
  /\ fst (_call "guest-ping" (PyDict []) (disconnected (listening [SendAccept 1000] closes_early)))
     = Raise AttributeError
  /\ self_sock (snd (_call "guest-ping" (PyDict [])
                           (disconnected (listening [SendAccept 1000] closes_early))))
     = Some 0%nat
  /\ (closed <$> heap (snd (_call "guest-ping" (PyDict [])
                                  (disconnected (listening [SendAccept 1000] closes_early)))))
     = [false].
Proof. repeat split; vm_compute; reflexivity. Qed.

End HandshakeTheorems.

(** ** Teardown on transport faults *)

Module TeardownFacts.
Import Py Socket QemuGuestAgentClient WorldFacts.



Definition is_protocol_error (e : exn) : Prop :=
  match e with
  | ProtocolError _ _ => True
  | _ => False
  end.

(** [m] run from a state in [P] ends in [Q]. *)
Definition triple {A} (P : world -> Prop) (m : M world A)
           (Q : result A -> world -> Prop) : Prop :=
  forall w, P w -> Q (fst (m w)) (snd (m w)).







Lemma triple_weaken {A} (P P' : world -> Prop) (m : M world A)
      (Q Q' : result A -> world -> Prop) :
  triple P' m Q' ->
  (forall w, P w -> P' w) ->
  (forall res w, Q' res w -> Q res w) ->
  triple P m Q.
Proof. intros Hm HP HQ w Hw. apply HQ, Hm, HP, Hw. Qed.





End TeardownFacts.

Module CallFacts.
Import Py Socket QemuGuestAgentClient WorldFacts TeardownFacts.















Section Client.
Context `{Json.Codec}.






End Client.

End CallFacts.

Module ConnectFacts.
Import Py Socket QemuGuestAgentClient WorldFacts TeardownFacts CallFacts.





Lemma close_and_raise_raises {A} (errno : Z) (msg : string) (w : world) :
  exists e, fst (@close_and_raise A errno msg w) = Raise e.
Proof.
  unfold close_and_raise, bind at 1, get_self_sock. unfold bind at 1.
  destruct (_sock_close (self_sock w) w) as [[[]|e] w']; simpl; eauto.
Qed.


Section Client.
Context `{Json.Codec}.

(** What [_connect] does once the new socket is in [self.sock]. *)
Definition connect_and_sync : M world unit :=
  bind get_self_sock (fun s =>
  bind get (fun w =>
  bind (on_object s (fun r => connect r (self_where w))) (fun _ =>
  bind get_self_sock (fun s => _reset_conn s)))).


(** The world after [self.sock = socket.socket(...)]. *)
Definition with_new_socket (w : world) : world :=
  with_self_sock (Some (length (heap w)))
    {| self_sock := self_sock w; self_where := self_where w;
       heap := heap w ++ [match incoming w with sk :: _ => sk | [] => refused end];
       incoming := tl (incoming w); now := now w |}.

Lemma connect_unfold :
  _connect =
  try_except
    (fun w => connect_and_sync (with_new_socket w))
    (fun e => match e with
              | socket_timeout => Some (close_and_raise (-1) "Timed out")
              | socket_error errno strerror =>
                  Some (close_and_raise errno ("Connection failed: " +:+ strerror))
              | _ => None
              end).
Proof. reflexivity. Qed.


Lemma make_connection_unfold (w : world) :
  _make_connection w =
  match self_sock w with
  | Some r => (Ok (Some r), w)
  | None => match _connect w with
            | (Ok _, w') => (Ok (self_sock w'), w')
            | (Raise e, w') => (Raise e, w')
            end
  end.
Proof.
  unfold _make_connection, bind, get_self_sock, ret. cbv beta.
  destruct (self_sock w) as [r|] eqn:E; simpl.
  - now rewrite E.
  - destruct (_connect w) as [[[]|e] w']; reflexivity.
Qed.


(** What [_call] does once it has its socket: send the request, read
    one line, unmarshal it. *)
Definition exchange (sock : option nat) (json_str : str) : M world QemuAgentRet :=
  bind (_sock_send sock (Utf8.encode json_str)) (fun _ =>
  bind (_sock_recv_until sock newline) (fun received =>
  bind (lift (decode received)) (fun response =>
  lift (QemuAgentRet_init response)))).

Lemma call_unfold (command : str) (args : pyval) (w : world) :
  _call command args w =
  match Json.dumps (request command args) with
  | Raise e => (Raise e, w)
  | Ok json_str =>
      match _make_connection w with
      | (Ok sock, w1) => exchange sock json_str w1
      | (Raise e, w1) => (Raise e, w1)
      end
  end.
Proof.
  unfold _call, bind at 1, lift.
  destruct (Json.dumps (request command args)) as [json_str|e]; [| reflexivity].
  unfold bind at 1. now destruct (_make_connection w) as [[sock|e] w1].
Qed.



End Client.

End ConnectFacts.

(** ** Unmarshalling and the command API *)

Module ApiTheorems.
Import Py Socket QemuGuestAgentClient Examples.

Lemma dict_get_set (k : str) (v : pyval) (d : list (str * pyval)) :
  dict_get k (dict_set k v d) = Some v.
Proof.
  unfold dict_get. induction d as [|[k' v'] d IH]; simpl.
  - now rewrite String.eqb_refl.
  - destruct (String.eqb k' k) eqn:E; simpl.
    + now rewrite String.eqb_refl.
    + rewrite E. exact IH.
Qed.

Lemma dict_get_set_ne (k k' : str) (v : pyval) (d : list (str * pyval)) :
  k' <> k -> dict_get k' (dict_set k v d) = dict_get k' d.
Proof.
  intros Hne. unfold dict_get. induction d as [|[k0 v0] d IH]; simpl.
  - destruct (String.eqb k k') eqn:E; [apply String.eqb_eq in E; congruence | reflexivity].
  - destruct (String.eqb k0 k) eqn:E; simpl.
    + apply String.eqb_eq in E. subst k0.
      destruct (String.eqb k k') eqn:E'; [apply String.eqb_eq in E'; congruence | reflexivity].
    + destruct (String.eqb k0 k'); [reflexivity | exact IH].
Qed.

Section Client.
Context `{Json.Codec}.

(** C6, as amended. A Response never has both fields set. For a
    response text that is a JSON object: with an ['error'] member the
    Response has that member as [error] and [data = None]; without it
    and with a ['return'] member it has that member as [data] and
    [error = None]; with neither member [KeyError] is raised. So exactly
    one field is set whenever the member taken is not [null]. *)
Theorem QemuAgentRet_fields :
  (forall (text : str) (r : QemuAgentRet),
      QemuAgentRet_init text = Ok r -> error r = PyNone \/ data r = PyNone)
  /\
  (forall (text : str) (d : list (str * pyval)),
      Json.loads text = Ok (PyDict d) ->
      QemuAgentRet_init text =
      match dict_get "error" d, dict_get "return" d with
      | Some v, _ => Ok {| error := v; data := PyNone |}
      | None, Some v => Ok {| error := PyNone; data := v |}
      | None, None => Raise KeyError
      end)
  /\
  (forall (text : str) (d : list (str * pyval)) (v : pyval),
      Json.loads text = Ok (PyDict d) ->
      match dict_get "error" d with
      | Some e => e
      | None => default PyNone (dict_get "return" d)
      end = v ->
      v <> PyNone ->
      exists r, QemuAgentRet_init text = Ok r
                /\ ((error r = v /\ data r = PyNone) \/ (error r = PyNone /\ data r = v))).
Proof.
  split; [| split].
  - intros text r. unfold QemuAgentRet_init.
    destruct (Json.loads text) as [obj|e]; [| discriminate].
    destruct (contains "error" obj) as [[|]|e]; [| | discriminate].
    + destruct (getitem obj "error"); intros [= <-]; now right.
    + destruct (getitem obj "return"); intros [= <-]; now left.
  - intros text d Hl. unfold QemuAgentRet_init. rewrite Hl.
    unfold contains, dict_has, getitem.
    destruct (dict_get "error" d) as [e|]; [reflexivity|].
    destruct (dict_get "return" d) as [v|]; reflexivity.
  - intros text d v Hl Hv Hne. unfold QemuAgentRet_init. rewrite Hl.
    unfold contains, dict_has, getitem.
    destruct (dict_get "error" d) as [e|].
    + subst v. eexists. split; [reflexivity|]. now left.
    + destruct (dict_get "return" d) as [v'|]; simpl in Hv; [| congruence].
      subst v'. eexists. split; [reflexivity|]. now right.
Qed.

(** C7, on the code. [file_write(handle, b"hello")] does build the
    arguments with the base64 of the buffer, but as a [bytes] object:
    [base64.b64encode] returns [bytes] in Python 3. [json.dumps] cannot
    serialize it, so [_call] raises [TypeError] before anything is sent,
    on the socket client and on the libvirt client alike. *)
Theorem file_write_not_serializable (handle : pyval) :
  file_write_args handle (PyBytes (b "hello"))
  = Ok (PyDict [("handle", handle); ("buf-b64", PyBytes (b "aGVsbG8="))])
  /\ (forall w : world,
         file_write _call handle (PyBytes (b "hello")) w = (Raise TypeError, w))
  /\ (forall (self : LibvirtClient) (h : hypervisor),
         file_write (Libvirt_call self) handle (PyBytes (b "hello")) h = (Raise TypeError, h)).
Proof.
  assert (forall args,
             args = PyDict [("handle", handle); ("buf-b64", PyBytes (b "aGVsbG8="))] ->
             Json.dumps (request "guest-file-write" args) = Raise TypeError) as Hd.
  { intros args ->. unfold Json.dumps.
    rewrite Json.encoder_not_serializable; [reflexivity|].
    simpl. now rewrite andb_false_r. }
  assert (file_write_args handle (PyBytes (b "hello"))
          = Ok (PyDict [("handle", handle); ("buf-b64", PyBytes (b "aGVsbG8="))])) as Ha
      by reflexivity.
  split; [exact Ha | split].
  - intros w. unfold file_write, bind, lift. rewrite Ha.
    unfold _call, bind, lift. now rewrite (Hd _ eq_refl).
  - intros self h. unfold file_write, bind, lift. rewrite Ha.
    unfold Libvirt_call, bind, lift. now rewrite (Hd _ eq_refl).
Qed.

End Client.

Section API.
Context {S : Type} (client_call : str -> pyval -> M S QemuAgentRet).

(** C8. [file_read] decodes the buffer of a success payload. When the
    call returns a payload, an object that has ['buf-b64'], [file_read]
    hands the value of ['buf-b64'] to [base64.b64decode] and returns the
    Response with the payload extended by the decoded bytes under
    ['buf']; what [b64decode] raises comes out of [file_read]. The
    entry ['buf'] is the only one that changes. So a payload that has
    ["buf-b64": "aGVsbG8="] comes back with the bytes ["hello"] under
    ['buf']. When the call returns an error Response ([data] is [None])
    nothing is decoded and the Response is returned as it is. *)
Theorem file_read_decodes_payload :
  (forall (handle count : pyval) (st st' : S) (r : QemuAgentRet) (d : list (str * pyval))
          (encoded : pyval),
      client_call "guest-file-read" (PyDict [("handle", handle); ("count", count)]) st
      = (Ok r, st') ->
      data r = PyDict d ->
      dict_get "buf-b64" d = Some encoded ->
      file_read client_call handle count st
      = (match Base64.b64decode encoded with
         | Ok buf => Ok {| error := error r; data := PyDict (dict_set "buf" buf d) |}
         | Raise e => Raise e
         end, st'))
  /\
  (forall (d : list (str * pyval)) (buf : pyval),
      dict_get "buf" (dict_set "buf" buf d) = Some buf
      /\ forall k, k <> "buf" -> dict_get k (dict_set "buf" buf d) = dict_get k d)
  /\
  (forall (handle count : pyval) (st st' : S) (r : QemuAgentRet) (d : list (str * pyval)),
      client_call "guest-file-read" (PyDict [("handle", handle); ("count", count)]) st
      = (Ok r, st') ->
      data r = PyDict d ->
      dict_get "buf-b64" d = Some (PyStr "aGVsbG8=") ->
      file_read client_call handle count st
      = (Ok {| error := error r;
               data := PyDict (dict_set "buf" (PyBytes (b "hello")) d) |}, st')
      /\ dict_get "buf" (dict_set "buf" (PyBytes (b "hello")) d) = Some (PyBytes (b "hello")))
  /\
  (forall (handle count : pyval) (st st' : S) (r : QemuAgentRet),
      client_call "guest-file-read" (PyDict [("handle", handle); ("count", count)]) st
      = (Ok r, st') ->
      data r = PyNone ->
      file_read client_call handle count st = (Ok r, st')).
Proof.
  assert (forall (handle count : pyval) (st st' : S) (r : QemuAgentRet)
                 (d : list (str * pyval)) (encoded : pyval),
             client_call "guest-file-read" (PyDict [("handle", handle); ("count", count)]) st
             = (Ok r, st') ->
             data r = PyDict d ->
             dict_get "buf-b64" d = Some encoded ->
             file_read client_call handle count st
             = (match Base64.b64decode encoded with
                | Ok buf => Ok {| error := error r; data := PyDict (dict_set "buf" buf d) |}
                | Raise e => Raise e
                end, st')) as Hdecode.
  { intros handle count st st' r d encoded Hc Hd Hb.
    unfold file_read, bind. rewrite Hc, Hd.
    assert (truthy (PyDict d) = true) as -> by (destruct d; [discriminate Hb | reflexivity]).
    unfold lift, getitem. rewrite Hb.
    now destruct (Base64.b64decode encoded). }
  split; [exact Hdecode | split; [| split]].
  - intros d buf. split; [apply dict_get_set | intros k Hk; now apply dict_get_set_ne].
  - intros handle count st st' r d Hc Hd Hb. split; [| apply dict_get_set].
    now rewrite (Hdecode handle count st st' r d _ Hc Hd Hb).
  - intros handle count st st' r Hc Hd.
    unfold file_read, bind. rewrite Hc, Hd. reflexivity.
Qed.

End API.

(** C9. When the lookup of [qemuAgentCommand] on the hypervisor interface
    fails, [__init__] raises; when it succeeds, [__init__] returns the
    client after this one lookup. A [_call] makes no such check again:
    all it does to the interface is to call [qemuAgentCommand]. *)
Theorem Libvirt_capability_checked_once `{Json.Codec} :
  (forall (guest : str) (h : hypervisor),
      qemuAgentCommand h = None ->
      Libvirt_init guest h
      = (Raise (match missing h with
                | KeyError => Exception "hypervisor does not support qemuAgentCommand"
                | e => e
                end), record_event Probe h))
  /\
  (forall (guest : str) (h : hypervisor) f,
      qemuAgentCommand h = Some f ->
      Libvirt_init guest h = (Ok {| uuid := guest |}, record_event Probe h))
  /\
  (forall (self : LibvirtClient) (command : str) (args : pyval) (h : hypervisor),
      let h' := snd (Libvirt_call self command args h) in
      qemuAgentCommand h' = qemuAgentCommand h
      /\ (events h' = events h
          \/ exists text, events h' = events h ++ [Command (uuid self) text])).
Proof.
  split; [| split].
  - intros guest h Hq. unfold Libvirt_init, bind, try_except. rewrite Hq.
    destruct (missing h); reflexivity.
  - intros guest h f Hq. unfold Libvirt_init, bind, try_except. now rewrite Hq.
  - intros self command args h. unfold Libvirt_call, bind, lift.
    destruct (Json.dumps (request command args)) as [text|e]; [| simpl; auto].
    destruct (qemuAgentCommand h) as [f|] eqn:Hq; [| simpl; auto].
    destruct (f (events h) (uuid self) text) as [response|e]; simpl.
    + destruct (QemuAgentRet_init response); simpl; rewrite Hq; eauto.
    + rewrite Hq; eauto.
Qed.

End ApiTheorems.

Module ApiExamples.
Import Py Socket QemuGuestAgentClient Examples ApiTheorems Json.

(** C6, as stated, fails: the JSON text [{"return": null}] is
    unmarshalled to a Response with neither field set. *)
Lemma QemuAgentRet_return_null :
  ref_decoder (text_of (returning PyNone)) = Some (returning PyNone)
  /\ QemuAgentRet_init (text_of (returning PyNone))
     = Ok {| error := PyNone; data := PyNone |}.
Proof. split; vm_compute; reflexivity. Qed.

(** The reply to [guest-ping], and an error reply. *)
Definition error_reply : pyval :=
  PyDict [("error", PyDict [("class", PyStr "GenericError"); ("data", PyDict [])])].

Lemma QemuAgentRet_fields_witness :
  (error {| error := PyNone; data := PyDict [] |} = PyNone
   \/ data {| error := PyNone; data := PyDict [] |} = PyNone)
  /\ QemuAgentRet_init (text_of error_reply)
     = Ok {| error := PyDict [("class", PyStr "GenericError"); ("data", PyDict [])];
             data := PyNone |}
  /\ (exists r, QemuAgentRet_init (text_of (returning (PyDict []))) = Ok r
                /\ ((error r = PyDict [] /\ data r = PyNone)
                    \/ (error r = PyNone /\ data r = PyDict []))).
Proof.
  split; [| split].
  - apply (proj1 QemuAgentRet_fields (text_of (returning (PyDict [])))).
    vm_compute. reflexivity.
  - apply (proj1 (proj2 QemuAgentRet_fields) (text_of error_reply)
             [("error", PyDict [("class", PyStr "GenericError"); ("data", PyDict [])])]).
    vm_compute. reflexivity.
  - apply (proj2 (proj2 QemuAgentRet_fields) (text_of (returning (PyDict [])))
             [("return", PyDict [])] (PyDict [])).
    + vm_compute. reflexivity.
    + reflexivity.
    + discriminate.
Defined.

(** The agent answers [guest-file-read] with five bytes of a file. *)
Definition read_reply : pyval :=
  returning (PyDict [("count", PyInt 5); ("buf-b64", PyStr "aGVsbG8="); ("eof", PyBool false)]).

Definition file_read_args : pyval := PyDict [("handle", PyInt 1000); ("count", PyInt 5)].

(** The agent answers [guest-file-read] with three other bytes. *)
Definition short_reply : pyval :=
  returning (PyDict [("count", PyInt 3); ("buf-b64", PyStr "Zm9v"); ("eof", PyBool true)]).

Lemma file_read_decodes_payload_witness :
  file_read _call (PyInt 1000) (PyInt 5)
            (connected_to (listening [SendAccept 1000] (arriving (reply short_reply ++ newline))))
  = (Ok {| error := PyNone;
           data := PyDict [("count", PyInt 3); ("buf-b64", PyStr "Zm9v");
                           ("eof", PyBool true); ("buf", PyBytes (b "foo"))] |},
     snd (_call "guest-file-read" file_read_args
                (connected_to (listening [SendAccept 1000]
                                         (arriving (reply short_reply ++ newline))))))
  /\
  (file_read _call (PyInt 1000) (PyInt 5)
             (connected_to (listening [SendAccept 1000] (arriving (reply read_reply ++ newline))))
   = (Ok {| error := PyNone;
            data := PyDict (dict_set "buf" (PyBytes (b "hello"))
                                     [("count", PyInt 5); ("buf-b64", PyStr "aGVsbG8=");
                                      ("eof", PyBool false)]) |},
      snd (_call "guest-file-read" file_read_args
                 (connected_to (listening [SendAccept 1000]
                                          (arriving (reply read_reply ++ newline))))))
   /\ dict_get "buf" (dict_set "buf" (PyBytes (b "hello"))
                               [("count", PyInt 5); ("buf-b64", PyStr "aGVsbG8=");
                                ("eof", PyBool false)])
      = Some (PyBytes (b "hello")))
  /\
  file_read _call (PyInt 1000) (PyInt 5)
            (connected_to (listening [SendAccept 1000] (arriving (reply error_reply ++ newline))))
  = (Ok {| error := PyDict [("class", PyStr "GenericError"); ("data", PyDict [])];
           data := PyNone |},
     snd (_call "guest-file-read" file_read_args
                (connected_to (listening [SendAccept 1000]
                                         (arriving (reply error_reply ++ newline)))))).
Proof.
  split; [| split].
  - apply (proj1 (file_read_decodes_payload _call) (PyInt 1000) (PyInt 5) _ _
             {| error := PyNone;
                data := PyDict [("count", PyInt 3); ("buf-b64", PyStr "Zm9v");
                                ("eof", PyBool true)] |}
             [("count", PyInt 3); ("buf-b64", PyStr "Zm9v"); ("eof", PyBool true)]
             (PyStr "Zm9v")).
    + vm_compute. reflexivity.
    + reflexivity.
    + reflexivity.
  - apply (proj1 (proj2 (proj2 (file_read_decodes_payload _call))) (PyInt 1000) (PyInt 5) _ _
             {| error := PyNone;
                data := PyDict [("count", PyInt 5); ("buf-b64", PyStr "aGVsbG8=");
                                ("eof", PyBool false)] |}).
    + vm_compute. reflexivity.
    + reflexivity.
    + reflexivity.
  - apply (proj2 (proj2 (proj2 (file_read_decodes_payload _call))) (PyInt 1000) (PyInt 5)).
    + vm_compute. reflexivity.
    + reflexivity.
Defined.

(** An interface with the capability, whose guest answers every command
    with an empty payload, and an interface without it that resolves its
    methods in a table. *)
Definition capable : hypervisor :=
  {| qemuAgentCommand := Some (fun _ _ _ => Ok (text_of (returning (PyDict []))));
     missing := AttributeError; events := [] |}.

Definition incapable : hypervisor :=
  {| qemuAgentCommand := None; missing := KeyError; events := [] |}.

Lemma Libvirt_capability_checked_once_witness :
  Libvirt_init "guest-1" incapable
  = (Raise (Exception "hypervisor does not support qemuAgentCommand"),
     record_event Probe incapable)
  /\ Libvirt_init "guest-1" capable = (Ok {| uuid := "guest-1" |}, record_event Probe capable).
Proof.
  split.
  - apply (proj1 Libvirt_capability_checked_once "guest-1" incapable). reflexivity.
  - apply (proj1 (proj2 Libvirt_capability_checked_once) "guest-1" capable
             (fun _ _ _ => Ok (text_of (returning (PyDict []))))).
    reflexivity.
Defined.

End ApiExamples.

(** ** The collectors *)

Module CollectorFacts.
Import Py Collector.

Lemma files_set_keys (datum f : string) (d : list (string * string)) :
  ~ In datum (map fst d) -> map fst (HostKSM.files_set datum f d) = map fst d ++ [datum].
Proof.
  induction d as [|[k v] d IH]; simpl; intros Hnot; [reflexivity|].
  destruct (String.eqb k datum) eqn:E.
  - apply String.eqb_eq in E. tauto.
  - simpl. rewrite IH; [reflexivity | tauto].
Qed.

(** [open_files] that returns has opened one file per key, in the order
    of [sysfs_keys]. *)
Lemma open_files_keys (h : HostKSM.host) (fs : list (string * string)) :
  HostKSM.open_files h = Ok fs -> map fst fs = HostKSM.sysfs_keys.
Proof.
  unfold HostKSM.open_files, HostKSM.sysfs_keys. simpl.
  repeat (match goal with
          | |- context [HostKSM.open_error h ?n] =>
              destruct (HostKSM.open_error h n); [discriminate|]
          end).
  intros [= <-]. reflexivity.
Qed.

Section KSM.
Variable parse_int : string -> string -> result value.
Variable h : HostKSM.host.

Lemma collect_files_dom (fs : list (string * string)) :
  forall data data' : gmap string value,
    HostKSM.collect_files parse_int h fs data = Ok data' ->
    dom data' = dom data ∪ list_to_set (map (fun x => "ksm_" +:+ x) (map fst fs)).
Proof.
  induction fs as [|[datum file] fs IH]; simpl; intros data data'.
  - intros [= <-]. set_solver.
  - destruct (parse_int "(.*)" (HostKSM.read h file)) as [v|e]; [| discriminate].
    intros Hc. rewrite (IH _ _ Hc), dom_insert_L. set_solver.
Qed.

Lemma get_ksmd_cpu_usage_files (s s' : HostKSM.self) (res : result value) :
  HostKSM.get_ksmd_cpu_usage h s = (res, s') -> HostKSM.files s' = HostKSM.files s.
Proof.
  unfold HostKSM.get_ksmd_cpu_usage, bind, get, lift, put.
  destruct (HostKSM.get_ksmd_jiffies h (HostKSM.pid s)) as [j|e]; [| now intros [= _ <-]].
  destruct (_ =? 0); now intros [= _ <-].
Qed.

End KSM.

End CollectorFacts.

Module CollectorTheorems.
Import Py Collector CollectorFacts.

(** C10. A [collect()] that returns gives a mapping whose keys are
    exactly [getFields()]: for [HostKSM] on a collector made by
    [__init__] (however often [collect] has run since), and for
    [HostMemory]. A value may be [None] where [parse_int] found no
    match. *)
Theorem collect_keys_are_getFields (parse_int : string -> string -> result value) :
  (forall (h0 h : HostKSM.host) (properties : gmap string Z)
          (s0 s s' : HostKSM.self) (data : gmap string value),
      HostKSM.init h0 properties = Ok s0 ->
      HostKSM.files s = HostKSM.files s0 ->
      HostKSM.collect parse_int h s = (Ok data, s') ->
      dom data = HostKSM.getFields /\ HostKSM.files s' = HostKSM.files s)
  /\
  (forall (s s' : HostMemory.self) (data : gmap string value),
      HostMemory.collect parse_int s = (Ok data, s') ->
      dom data = HostMemory.getFields).
Proof.
  split.
  - intros h0 h properties s0 s s' data Hinit Hfiles.
    assert (map fst (HostKSM.files s) = HostKSM.sysfs_keys) as Hkeys.
    { rewrite Hfiles. unfold HostKSM.init in Hinit.
      destruct (HostKSM.open_files h0) as [fs|e] eqn:Ho; [| discriminate].
      destruct (properties !! "interval"); [| discriminate].
      destruct (HostKSM._get_ksmd_pid h0) as [p|e]; [| discriminate].
      destruct (HostKSM.get_ksmd_jiffies h0 p); [| discriminate].
      injection Hinit as <-. simpl. now apply open_files_keys in Ho. }
    unfold HostKSM.collect, bind at 1, get. unfold bind at 1, lift.
    destruct (HostKSM.collect_files parse_int h (HostKSM.files s) ∅) as [d|e] eqn:Hc;
      [| discriminate].
    unfold bind at 1.
    destruct (HostKSM.get_shareable_mem h) as [shareable|e]; [| discriminate].
    unfold bind at 1.
    destruct (HostKSM.get_ksmd_cpu_usage h s) as [[usage|e] s1] eqn:Hu; [| discriminate].
    unfold ret. intros [= <- <-]. split.
    + rewrite !dom_insert_L, (collect_files_dom _ _ _ _ _ Hc), Hkeys.
      unfold HostKSM.getFields. set_solver.
    + exact (get_ksmd_cpu_usage_files h s s1 _ Hu).
  - intros s s' data. unfold HostMemory.collect, bind, get, lift, HostMemory.modify, ret.
    repeat (match goal with
            | |- context [parse_int ?r ?c] => destruct (parse_int r c); [| discriminate]
            | |- context [add ?x ?y] => destruct (add x y); [| discriminate]
            | |- context [sub ?x ?y] => destruct (sub x y); [| discriminate]
            end).
    intros [= <- _]. rewrite !dom_insert_L. unfold HostMemory.getFields. set_solver.
Qed.

End CollectorTheorems.

Module CollectorExamples.
Import Py Collector CollectorTheorems.

Definition nl : string := String "010"%char EmptyString.

(** The text of a pattern of the collectors before its group, without
    the anchor. *)
Fixpoint before_group (regex : string) : string :=
  match regex with
  | String c r =>
      if Ascii.eqb c "("%char then EmptyString
      else if Ascii.eqb c "^"%char then before_group r
      else String c (before_group r)
  | EmptyString => EmptyString
  end.

Fixpoint strip (p s : string) : option string :=
  match p, s with
  | EmptyString, _ => Some s
  | String a p', String c s' => if Ascii.eqb a c then strip p' s' else None
  | String _ _, EmptyString => None
  end.

Fixpoint digits (s : string) (acc : option Z) : option Z :=
  match s with
  | String c r =>
      if Json.is_digit c
      then digits r (Some (10 * default 0 acc + (Z.of_nat (nat_of_ascii c) - 48)))
      else acc
  | EmptyString => acc
  end.

(** The rest of the text from the start of each line. *)
Fixpoint line_starts (s : string) (at_start : bool) : list string :=
  match s with
  | EmptyString => if at_start then [EmptyString] else []
  | String c r =>
      (if at_start then [s] else []) ++ line_starts r (Ascii.eqb c "010"%char)
  end.

(** A [parse_int] for the examples, good for the patterns of the two
    collectors: the number after the text of the pattern on the first
    line that starts with it, [None] when no line does. *)
Definition sample_parse_int (regex src : string) : result value :=
  match omap (strip (before_group regex)) (line_starts src true) with
  | rest :: _ =>
      match digits rest None with
      | Some z => Ok (Some z)
      | None => Raise ValueError
      end
  | [] => Ok None
  end.

Definition sample_meminfo : string :=
  "MemTotal: 16384 kB" +:+ nl +:+ "MemFree: 4096 kB" +:+ nl +:+
  "Buffers: 512 kB" +:+ nl +:+ "Cached: 2048 kB" +:+ nl +:+
  "SwapTotal: 8192 kB" +:+ nl +:+ "SwapFree: 8000 kB" +:+ nl +:+
  "AnonPages: 1024 kB" +:+ nl.

Definition sample_vmstat : string :=
  "pswpin 10" +:+ nl +:+ "pswpout 25" +:+ nl.

Definition sample_memory : HostMemory.self :=
  {| HostMemory.meminfo := sample_meminfo; HostMemory.vmstat := sample_vmstat;
     HostMemory.swap_in_prev := None; HostMemory.swap_in_cur := None;
     HostMemory.swap_out_prev := None; HostMemory.swap_out_cur := None |}.

(** A host with KSM, where [ksmd] runs and two [qemu] processes do. *)
Definition sample_host : HostKSM.host :=
  {| HostKSM.open_error := fun _ => None;
     HostKSM.read := fun _ => "1" +:+ nl;
     HostKSM.pidof_ksmd := Some (Ok 37);
     HostKSM.stat_13_15 := fun _ => Ok [120; 30];
     HostKSM.pgrep_qemu := Some ["2101"; "2102"];
     HostKSM.ps_vsz := fun _ => Ok [4194304; 2097152];
     HostKSM.clk_tck := 100 |}.

Definition sample_ksm : HostKSM.self :=
  match HostKSM.init sample_host {[ "interval" := 10 ]} with
  | Ok s => s
  | Raise _ => {| HostKSM.files := []; HostKSM.interval := 0;
                  HostKSM.pid := None; HostKSM.last_jiff := 0 |}
  end.

Lemma collect_keys_are_getFields_witness :
  (dom (default ∅ (match fst (HostKSM.collect sample_parse_int sample_host sample_ksm) with
                   | Ok data => Some data
                   | Raise _ => None
                   end)) = HostKSM.getFields
   /\ HostKSM.files (snd (HostKSM.collect sample_parse_int sample_host sample_ksm))
      = HostKSM.files sample_ksm)
  /\ dom (default ∅ (match fst (HostMemory.collect sample_parse_int sample_memory) with
                     | Ok data => Some data
                     | Raise _ => None
                     end)) = HostMemory.getFields.
Proof.
  split.
  - apply (proj1 (collect_keys_are_getFields sample_parse_int)
             sample_host sample_host {[ "interval" := 10 ]} sample_ksm sample_ksm).
    + vm_compute. reflexivity.
    + reflexivity.
    + vm_compute. reflexivity.
  - apply (proj2 (collect_keys_are_getFields sample_parse_int) sample_memory
             (snd (HostMemory.collect sample_parse_int sample_memory))).
    vm_compute. reflexivity.
Defined.

End CollectorExamples.

(** ** The iteration budgets are enough

    No function of the client ever answers [OutOfFuel]: the loops of the
    embedding stop for the reasons the loops of the source stop. *)

Module FuelFacts.
Import Py Socket QemuGuestAgentClient WorldFacts.

Definition fueled {A} (m : M world A) : Prop :=
  forall w, fst (m w) <> Raise OutOfFuel.

Lemma fueled_ret {A} (a : A) : fueled (@ret world A a).
Proof. intros w. discriminate. Qed.

Lemma fueled_lift {A} (res : result A) : res <> Raise OutOfFuel -> fueled (@lift world A res).
Proof. intros Hres w. exact Hres. Qed.

Lemma fueled_bind {A B} (m : M world A) (k : A -> M world B) :
  fueled m -> (forall a, fueled (k a)) -> fueled (bind m k).
Proof.
  intros Hm Hk w. unfold bind. specialize (Hm w).
  destruct (m w) as [[a|e] w']; simpl in *; [apply Hk | intros [= ->]; now apply Hm].
Qed.

Lemma fueled_try {A} (m : M world A) (h : exn -> option (M world A)) :
  fueled m -> (forall e k, h e = Some k -> fueled k) -> fueled (try_except m h).
Proof.
  intros Hm Hh w. unfold try_except. specialize (Hm w).
  destruct (m w) as [[a|e] w']; simpl in *; [discriminate|].
  destruct (h e) as [k|] eqn:E; [apply (Hh e k E) | exact Hm].
Qed.

Lemma fueled_method {A} (r : nat) (f : pysocket -> result A * pysocket) :
  (forall sk, fst (f sk) <> Raise OutOfFuel) -> fueled (method r f).
Proof.
  intros Hf w. unfold method. destruct (heap w !! r) as [sk|]; [| discriminate].
  specialize (Hf sk). now destruct (f sk).
Qed.

Lemma fueled_on_object {A} (s : option nat) (f : nat -> M world A) :
  (forall r, fueled (f r)) -> fueled (on_object s f).
Proof. intros Hf. destruct s as [r|]; [apply Hf | intros w; discriminate]. Qed.

Lemma fueled_shutdown (r : nat) : fueled (shutdown r).
Proof. apply fueled_method. intros sk. simpl. now destruct (on_shutdown sk) as [[? ?]|]. Qed.

Lemma fueled_close (r : nat) : fueled (close r).
Proof. apply fueled_method. intros sk. discriminate. Qed.

Lemma fueled_close_and_raise {A} (errno : Z) (msg : string) :
  fueled (@close_and_raise A errno msg).
Proof.
  unfold close_and_raise. apply fueled_bind; [intros w; discriminate | intros s].
  apply fueled_bind.
  - unfold _sock_close. apply fueled_try.
    + apply fueled_bind; [| intros _]; apply fueled_on_object;
        [apply fueled_shutdown | apply fueled_close].
    + intros e k Hk. destruct e; try discriminate Hk; injection Hk as <-; apply fueled_ret.
  - intros _. apply fueled_bind; [intros w; discriminate | intros _ w; discriminate].
Qed.

Lemma fueled_transport_fault {A} (e : exn) (k : M world A) :
  transport_fault e = Some k -> fueled k.
Proof.
  destruct e; simpl; try discriminate; intros [= <-]; apply fueled_close_and_raise.
Qed.

Lemma fueled_send (s : option nat) (data : bytes) :
  fueled (try_except (on_object s (fun r => send r data)) transport_fault).
Proof.
  apply fueled_try; [| apply @fueled_transport_fault].
  apply fueled_on_object. intros r. apply fueled_method. intros sk.
  now destruct (on_send sk) as [|[n| |errno strerror] rest].
Qed.

Lemma fueled_recv (s : option nat) :
  fueled (try_except (on_object s recv1) transport_fault).
Proof.
  apply fueled_try; [| apply @fueled_transport_fault].
  apply fueled_on_object. intros r. apply fueled_method. intros sk.
  now destruct (on_recv sk) as [|[c| | |errno strerror] rest].
Qed.

(** [sent] grows in every round of [_sock_send]. *)
Lemma fueled_sock_send_loop (s : option nat) (msg : bytes) (fuel : nat) :
  forall sent, (length msg - sent <= fuel)%nat -> fueled (sock_send_loop fuel s msg sent).
Proof.
  induction fuel as [|fuel IH]; intros sent Hfuel; rewrite SendFacts.sock_send_loop_unfold;
    destruct (sent <? length msg)%nat eqn:Hlt; try apply fueled_ret;
    apply Nat.ltb_lt in Hlt; [lia|].
  apply fueled_bind; [apply fueled_send | intros n].
  destruct (n =? 0)%nat eqn:Hn; [apply fueled_close_and_raise|].
  apply Nat.eqb_neq in Hn. apply IH. lia.
Qed.

Lemma fueled_sock_send (s : option nat) (msg : bytes) : fueled (_sock_send s msg).
Proof. apply fueled_sock_send_loop. lia. Qed.

(** [data] grows in every round of [_sock_recv_until]. *)
Lemma fueled_sock_recv_loop (s : option nat) (token : bytes) (fuel : nat) :
  forall data, (S recv_limit - length data <= fuel)%nat ->
               fueled (sock_recv_loop fuel s token data).
Proof.
  induction fuel as [|fuel IH]; intros data Hfuel; rewrite RecvFacts.sock_recv_loop_unfold;
    destruct (recv_limit <? length data)%nat eqn:Hlt; try apply fueled_ret;
    apply Nat.ltb_ge in Hlt; [lia|].
  apply fueled_bind; [apply fueled_recv | intros [|c ch]]; [apply fueled_ret|].
  destruct (bytes_eqb _ token); [apply fueled_ret|].
  apply IH. rewrite length_app. simpl. lia.
Qed.

Lemma fueled_sock_recv_until (s : option nat) (token : bytes) :
  fueled (_sock_recv_until s token).
Proof. apply fueled_sock_recv_loop. lia. Qed.

(** The answers of [recv] still planned on the socket [s]. *)
Definition planned (s : option nat) (w : world) : nat :=
  match s with
  | Some r => match heap w !! r with
              | Some sk => length (on_recv sk)
              | None => O
              end
  | None => O
  end.

(** A [recv] that returns a byte has taken a planned answer. *)
Lemma recv_takes (s : option nat) (w : world) :
  match try_except (on_object s recv1) transport_fault w with
  | (Ok (_ :: _), w1) => (planned s w1 < planned s w)%nat
  | _ => True
  end.
Proof.
  assert (forall errno msg w0,
             match @close_and_raise bytes errno msg w0 with
             | (Ok (_ :: _), w1) => (planned s w1 < planned s w)%nat
             | _ => True
             end) as Hfault.
  { intros errno msg w0.
    destruct (@ConnectFacts.close_and_raise_raises bytes errno msg w0) as [e He].
    destruct (close_and_raise errno msg w0) as [[[|c ch]|e'] w1]; simpl in He;
      try exact I; discriminate He. }
  unfold try_except. destruct s as [r|]; simpl on_object; [| exact I].
  unfold recv1, method.
  destruct (heap w !! r) as [sk|] eqn:Hr; [| apply Hfault].
  pose proof (lookup_lt_Some _ _ _ Hr) as L.
  destruct (on_recv sk) as [|[c| | |errno strerror] rest] eqn:Hs; simpl;
    try apply Hfault; try exact I.
  rewrite Hr, Hs, list_lookup_insert_eq by exact L. simpl. lia.
Qed.

(** A read that returns data has taken at least one planned answer. *)
Lemma sock_recv_loop_takes (s : option nat) (token : bytes) (fuel : nat) :
  forall (data d : bytes) (w w' : world),
    sock_recv_loop fuel s token data w = (Ok (Some d), w') ->
    (planned s w' < planned s w)%nat.
Proof.
  induction fuel as [|fuel IH]; intros data d w w'; rewrite RecvFacts.sock_recv_loop_unfold;
    destruct (recv_limit <? length data)%nat; try discriminate.
  unfold bind at 1. pose proof (recv_takes s w) as Hstep.
  destruct (try_except (on_object s recv1) transport_fault w) as [[[|c ch]|e] w1];
    try discriminate.
  destruct (bytes_eqb _ token).
  - unfold ret. intros [= <- <-]. exact Hstep.
  - intros Hrec. apply IH in Hrec. lia.
Qed.

Lemma decode_fueled (received : option bytes) : decode received <> Raise OutOfFuel.
Proof.
  unfold decode, Utf8.decode. destruct received as [d|]; [destruct (Utf8.valid _ _)|];
    discriminate.
Qed.

Lemma contains_fueled (k : str) (obj : pyval) : contains k obj <> Raise OutOfFuel.
Proof. destruct obj; discriminate. Qed.

Lemma getitem_fueled (obj : pyval) (k : str) : getitem obj k <> Raise OutOfFuel.
Proof. destruct obj; simpl; try discriminate. destruct (dict_get k v); discriminate. Qed.

Section Client.
Context `{Json.Codec}.

Lemma dumps_fueled (obj : pyval) : Json.dumps obj <> Raise OutOfFuel.
Proof. unfold Json.dumps. destruct (Json.encoder obj); discriminate. Qed.

Lemma loads_fueled (s : str) : Json.loads s <> Raise OutOfFuel.
Proof. unfold Json.loads. destruct (Json.decoder s); discriminate. Qed.

Lemma QemuAgentRet_init_fueled (s : str) : QemuAgentRet_init s <> Raise OutOfFuel.
Proof.
  unfold QemuAgentRet_init.
  pose proof (loads_fueled s). destruct (Json.loads s) as [obj|e]; [| congruence].
  pose proof (contains_fueled "error" obj).
  destruct (contains "error" obj) as [[|]|e]; [| | congruence].
  - pose proof (getitem_fueled obj "error"). destruct (getitem obj "error"); congruence.
  - pose proof (getitem_fueled obj "return"). destruct (getitem obj "return"); congruence.
Qed.

(** Every round of the handshake takes a planned answer of [recv] or
    leaves the loop. *)
Lemma fueled_reset_conn_loop (s : option nat) (seq : Z) (fuel : nat) :
  forall w, (planned s w < fuel)%nat -> fst (reset_conn_loop fuel s seq w) <> Raise OutOfFuel.
Proof.
  induction fuel as [|fuel IH]; intros w Hfuel; [lia|].
  rewrite HandshakeFacts.reset_conn_loop_unfold. unfold bind at 1.
  pose proof (fueled_sock_recv_until s newline w) as Hrecv.
  destruct (_sock_recv_until s newline w) as [[[d|]|e] w1] eqn:Hr; simpl in Hrecv;
    [| discriminate | simpl; intros [= ->]; now apply Hrecv].
  apply (sock_recv_loop_takes s newline) in Hr.
  assert (planned s w1 < fuel)%nat as Hfuel1 by lia.
  unfold bind at 1, lift.
  pose proof (decode_fueled (Some d)).
  destruct (decode (Some d)) as [response|e]; [| simpl; congruence].
  unfold bind at 1. pose proof (loads_fueled response).
  destruct (Json.loads response) as [resp_obj|e]; [| simpl; congruence].
  unfold bind at 1. pose proof (contains_fueled "return" resp_obj).
  destruct (contains "return" resp_obj) as [[|]|e]; [| now apply IH | simpl; congruence].
  unfold bind at 1, try_except, bind, lift, ret.
  pose proof (getitem_fueled resp_obj "return").
  destruct (getitem resp_obj "return") as [v|e].
  - destruct (eq_int v seq); [discriminate | now apply IH].
  - destruct e; try (simpl; congruence). now apply IH.
Qed.

Lemma fueled_reset_conn (s : option nat) : fueled (_reset_conn s).
Proof.
  unfold _reset_conn.
  apply fueled_bind; [intros w; discriminate | intros t].
  apply fueled_bind; [apply fueled_lift, dumps_fueled | intros req_str].
  apply fueled_bind; [apply fueled_sock_send | intros _].
  intros w. unfold bind, recv_budget. apply fueled_reset_conn_loop.
  unfold planned. destruct s as [r|]; [destruct (heap w !! r)|]; lia.
Qed.

Lemma fueled_connect : fueled _connect.
Proof.
  unfold _connect. apply fueled_try.
  - apply fueled_bind; [intros w; discriminate | intros r].
    apply fueled_bind; [intros w; discriminate | intros _].
    apply fueled_bind; [intros w; discriminate | intros s].
    apply fueled_bind; [intros w; discriminate | intros w0].
    apply fueled_bind.
    + apply fueled_on_object. intros r'. apply fueled_method. intros sk.
      now destruct (on_connect sk).
    + intros _. apply fueled_bind; [intros w; discriminate | apply fueled_reset_conn].
  - intros e k Hk. destruct e; try discriminate Hk; injection Hk as <-;
      apply fueled_close_and_raise.
Qed.

(** [_call] never answers [OutOfFuel]. *)
Lemma fueled_call (command : str) (args : pyval) : fueled (_call command args).
Proof.
  unfold _call.
  apply fueled_bind; [apply fueled_lift, dumps_fueled | intros json_str].
  apply fueled_bind.
  - unfold _make_connection.
    apply fueled_bind; [intros w; discriminate | intros s].
    apply fueled_bind; [| intros _ w; discriminate].
    destruct s; [apply fueled_ret | apply fueled_connect].
  - intros sock.
    apply fueled_bind; [apply fueled_sock_send | intros _].
    apply fueled_bind; [apply fueled_sock_recv_until | intros received].
    apply fueled_bind; [apply fueled_lift, decode_fueled | intros response].
    apply fueled_lift, QemuAgentRet_init_fueled.
Qed.

End Client.

End FuelFacts.
(** * Further properties of the code *)

(** ** [_sock_send] and [_sock_recv_until] on any plan *)

Module TransportProperties.
Import Py Socket QemuGuestAgentClient WorldFacts SendFacts RecvFacts Examples.

Lemma after_close_fields (sk : pysocket) :
  wire (after_close sk) = wire sk
  /\ on_recv (after_close sk) = on_recv sk
  /\ on_send (after_close sk) = on_send sk
  /\ shutdown_calls (after_close sk) = S (shutdown_calls sk).
Proof. unfold after_close. now destruct (on_shutdown sk). Qed.

Section Send.
Variables (r : nat) (msg : bytes) (w0 : world).
Hypothesis r_valid : (r < length (heap w0))%nat.
Hypothesis r_current : self_sock w0 = Some r.

(** Whatever the socket answers, the loop puts a prefix of what is left
    of the message on the wire and nothing else; it returns when the
    prefix is everything, and otherwise ends in the fault handler. *)
Lemma sock_send_loop_prefix (fuel : nat) :
  forall (sent : nat) (sk : pysocket) (res : result unit) (w' : world),
    (sent <= length msg)%nat ->
    (length msg - sent <= fuel)%nat ->
    sock_send_loop fuel (Some r) msg sent (upd r sk w0) = (res, w') ->
    exists sk' k,
      (sent <= k <= length msg)%nat
      /\ heap w' = <[r := sk']> (heap w0)
      /\ wire sk' = wire sk ++ take (k - sent) (drop sent msg)
      /\ on_recv sk' = on_recv sk
      /\ match res with
         | Ok _ => k = length msg /\ self_sock w' = Some r
                   /\ shutdown_calls sk' = shutdown_calls sk /\ closed sk' = closed sk
         | Raise e => (exists errno text, e = ProtocolError errno text)
                      /\ (k < length msg)%nat
                      /\ self_sock w' = None
                      /\ shutdown_calls sk' = S (shutdown_calls sk)
         end.
Proof.
  assert (forall (sk : pysocket) errno text sent,
             (sent < length msg)%nat ->
             exists sk' k,
               (sent <= k <= length msg)%nat
               /\ heap (with_self_sock None (upd r (after_close sk) w0)) = <[r := sk']> (heap w0)
               /\ wire sk' = wire sk ++ take (k - sent) (drop sent msg)
               /\ on_recv sk' = on_recv sk
               /\ (exists errno' text', ProtocolError errno text = ProtocolError errno' text')
               /\ (k < length msg)%nat
               /\ self_sock (with_self_sock None (upd r (after_close sk) w0)) = None
               /\ shutdown_calls sk' = S (shutdown_calls sk)) as Hfault.
  { intros sk errno text sent Hle. exists (after_close sk), sent.
    destruct (after_close_fields sk) as (Hw & Hr & _ & Hc).
    rewrite Nat.sub_diag, Hw, Hr, Hc. simpl take. rewrite app_nil_r.
    repeat split; eauto; lia. }
  induction fuel as [|fuel IH]; intros sent sk res w' Hle Hfuel;
    rewrite sock_send_loop_unfold;
    destruct (sent <? length msg)%nat eqn:Hlt;
    try (apply Nat.ltb_lt in Hlt; lia);
    try (apply Nat.ltb_ge in Hlt; unfold ret; intros [= <- <-];
         exists sk, sent; rewrite Nat.sub_diag; simpl take; rewrite app_nil_r;
         repeat split; try lia; try reflexivity; exact r_current).
  apply Nat.ltb_lt in Hlt.
  unfold bind at 1, try_except, on_object, send.
  rewrite method_upd by exact r_valid. cbv beta.
  destruct (on_send sk) as [|[n| |errno strerror] rest] eqn:Hs; simpl fst; simpl snd;
    cbv beta iota; unfold transport_fault.
  - rewrite close_and_raise_current by assumption. intros [= <- <-]. now apply Hfault.
  - rewrite length_drop. set (m := Nat.min n (length msg - sent)).
    destruct (m =? 0)%nat eqn:Hm.
    + rewrite close_and_raise_current by assumption. intros [= <- <-].
      apply Nat.eqb_eq in Hm.
      destruct (Hfault (with_wire (wire sk ++ take m (drop sent msg)) (with_on_send rest sk))
                       (-1) "Unable to send on socket" sent Hlt)
        as (sk' & k & Hk & Hh & Hw & Hr & He & Hkl & Hn & Hc).
      exists sk', k. rewrite Hm in Hw. simpl in Hw. rewrite app_nil_r in Hw.
      repeat split; try assumption; lia.
    + apply Nat.eqb_neq in Hm. intros Hrun.
      apply IH in Hrun; [| lia | lia].
      destruct Hrun as (sk' & k & Hk & Hh & Hw & Hr & Hres).
      exists sk', k. simpl in Hw, Hr. repeat split; try assumption; try lia.
      rewrite Hw, <- app_assoc. f_equal.
      rewrite <- (drop_drop msg m sent).
      replace (k - sent)%nat with (m + (k - (sent + m)))%nat by lia.
      now rewrite <- take_take_drop.
  - rewrite close_and_raise_current by assumption. intros [= <- <-].
    destruct (Hfault (with_on_send rest sk) (-1) "Timed out" sent Hlt)
      as (sk' & k & Hk & Hh & Hw & Hr & He & Hkl & Hn & Hc).
    exists sk', k. repeat split; assumption || lia.
  - rewrite close_and_raise_current by assumption. intros [= <- <-].
    destruct (Hfault (with_on_send rest sk) errno strerror sent Hlt)
      as (sk' & k & Hk & Hh & Hw & Hr & He & Hkl & Hn & Hc).
    exists sk', k. repeat split; assumption || lia.
Qed.

(** One [send] call per planned answer, and none after the last byte. *)
Lemma sock_send_loop_exact (ns : list nat) :
  forall (fuel sent n : nat) (sk : pysocket) (tail : list send_outcome),
    on_send sk = map SendAccept ns ++ SendAccept n :: tail ->
    Forall (fun n => 0 < n)%nat ns ->
    (sent + sum_list ns < length msg <= sent + sum_list ns + n)%nat ->
    (length msg - sent <= fuel)%nat ->
    sock_send_loop fuel (Some r) msg sent (upd r sk w0)
    = (Ok tt, upd r (sent_on sk (drop sent msg) tail) w0).
Proof.
  induction ns as [|n0 ns IH]; intros fuel sent n sk tail Hs Hpos Hcap Hfuel;
    rewrite sock_send_loop_unfold; simpl in Hcap;
    (destruct (sent <? length msg)%nat eqn:Hlt;
     [apply Nat.ltb_lt in Hlt | apply Nat.ltb_ge in Hlt; lia]);
    (destruct fuel as [|fuel]; [lia|]);
    unfold bind at 1, try_except, on_object, send;
    rewrite method_upd by exact r_valid; cbv beta; rewrite Hs; simpl app;
    simpl fst; simpl snd; cbv beta iota; rewrite length_drop.
  - assert (Nat.min n (length msg - sent) = length msg - sent)%nat as -> by lia.
    destruct (length msg - sent =? 0)%nat eqn:Hz; [apply Nat.eqb_eq in Hz; lia|].
    rewrite sock_send_loop_unfold.
    assert ((sent + (length msg - sent) <? length msg)%nat = false) as ->
        by (apply Nat.ltb_ge; lia).
    unfold ret. do 3 f_equal. rewrite take_ge by (rewrite length_drop; lia). reflexivity.
  - inversion Hpos as [|? ? Hn0 Hpos']; subst.
    assert (Nat.min n0 (length msg - sent) = n0)%nat as -> by lia.
    destruct (n0 =? 0)%nat eqn:Hz; [apply Nat.eqb_eq in Hz; lia|].
    rewrite (IH fuel (sent + n0)%nat n _ tail); [| reflexivity | exact Hpos' | lia | lia].
    do 2 f_equal.
    change (with_wire (wire sk ++ take n0 (drop sent msg))
                      (with_on_send (map SendAccept ns ++ SendAccept n :: tail) sk))
      with (sent_on sk (take n0 (drop sent msg)) (map SendAccept ns ++ SendAccept n :: tail)).
    rewrite sent_on_sent_on. f_equal.
    rewrite <- (drop_drop msg n0 sent). apply take_drop.
Qed.

End Send.

Section Recv.
Variables (r : nat) (token : bytes) (w0 : world).
Hypothesis r_valid : (r < length (heap w0))%nat.
Hypothesis r_current : self_sock w0 = Some r.

(** What a read can end in, whatever the stream holds: it has taken
    bytes [l], none of which but the last completed the token, and then
    either returns the frame, or returns [None] because the stream has
    ended or the limit is passed, or has met a fault. *)
Lemma sock_recv_loop_outcome (fuel : nat) :
  forall (data : bytes) (sk : pysocket) (res : result (option bytes)) (w' : world),
    (S recv_limit - length data <= fuel)%nat ->
    sock_recv_loop fuel (Some r) token data (upd r sk w0) = (res, w') ->
    exists l plan,
      on_recv sk = map RecvByte l ++ plan
      /\ (forall k, (0 < k < length l)%nat -> ends_with token (data ++ take k l) = false)
      /\ (length l <= S recv_limit - length data)%nat
      /\ match res with
         | Ok (Some d) =>
             d = data ++ l /\ l <> [] /\ ends_with token d = true
             /\ w' = upd r (with_on_recv plan sk) w0
         | Ok None =>
             (l = [] \/ ends_with token (data ++ l) = false)
             /\ ((recv_limit < length (data ++ l))%nat \/ exists p, plan = RecvEOF :: p)
             /\ w' = upd r (with_on_recv plan sk) w0
         | Raise e =>
             (l = [] \/ ends_with token (data ++ l) = false)
             /\ (length (data ++ l) <= recv_limit)%nat
             /\ exists errno text rest,
                 e = ProtocolError errno text
                 /\ recv_fault plan = Some (errno, text, rest)
                 /\ w' = with_self_sock None (upd r (after_close (with_on_recv rest sk)) w0)
         end.
Proof.
  induction fuel as [|fuel IH]; intros data sk res w' Hfuel;
    rewrite sock_recv_loop_unfold;
    destruct (recv_limit <? length data)%nat eqn:Hlt;
    try (apply Nat.ltb_ge in Hlt; lia);
    try (apply Nat.ltb_lt in Hlt; unfold ret; intros [= <- <-];
         exists [], (on_recv sk); rewrite app_nil_r, with_on_recv_id;
         split; [reflexivity|]; split; [simpl; intros; lia|]; split; [simpl; lia|];
         split; [now left|]; split; [now left | reflexivity]).
  apply Nat.ltb_ge in Hlt.
  unfold bind at 1, try_except, on_object, recv1.
  rewrite method_upd by exact r_valid. cbv beta.
  destruct (on_recv sk) as [|[c| | |errno strerror] rest] eqn:Hs; simpl fst; simpl snd;
    cbv beta iota; unfold transport_fault.
  - rewrite close_and_raise_current by assumption. intros [= <- <-].
    exists [], []. rewrite app_nil_r.
    split; [reflexivity|]; split; [simpl; intros; lia|]; split; [simpl; lia|].
    split; [now left|]. split; [now rewrite ?app_nil_r|].
    exists (-1), "Timed out", []. repeat split.
    now rewrite <- Hs, with_on_recv_id.
  - fold (ends_with token (data ++ [c])).
    destruct (ends_with token (data ++ [c])) eqn:He.
    + unfold ret. intros [= <- <-]. exists [c], rest.
      split; [reflexivity|]; split; [simpl; intros; lia|]; split; [simpl; lia|].
      repeat split; [discriminate | exact He].
    + intros Hrun. apply IH in Hrun; [| rewrite length_app; simpl; lia].
      destruct Hrun as (l & plan & Hp & Hfree & Hlen & Hres).
      exists (c :: l), plan. simpl in Hp.
      assert (forall x : bytes, (data ++ [c]) ++ x = data ++ c :: x) as Happ
          by (intros x; now rewrite <- app_assoc).
      rewrite Happ in Hres. rewrite length_app in Hlen. simpl in Hlen.
      split; [simpl; now rewrite Hp|]. split; [| split].
      * intros k Hk. destruct k as [|k]; [lia|]. simpl take.
        destruct k as [|k]; [exact He|]. rewrite <- Happ. apply Hfree. simpl in Hk. lia.
      * simpl. lia.
      * assert (l = [] \/ ends_with token (data ++ c :: l) = false ->
                c :: l = [] \/ ends_with token (data ++ c :: l) = false) as Hlast.
        { intros [-> | Hf]; right; [exact He | exact Hf]. }
        destruct res as [[d|]|e].
        -- destruct Hres as (Hd & Hne & Hend & Hw). repeat split; auto.
        -- destruct Hres as (Hl & Hwhy & Hw). repeat split; auto.
        -- destruct Hres as (Hl & Hwhy & Hw). repeat split; auto.
  - unfold ret. intros [= <- <-]. exists [], (RecvEOF :: rest). rewrite app_nil_r.
    split; [reflexivity|]; split; [simpl; intros; lia|]; split; [simpl; lia|].
    split; [now left|]. split; [right; eauto|].
    rewrite <- Hs. now rewrite with_on_recv_id.
  - rewrite close_and_raise_current by assumption. intros [= <- <-].
    exists [], (RecvTimeout :: rest). rewrite app_nil_r.
    split; [reflexivity|]; split; [simpl; intros; lia|]; split; [simpl; lia|].
    split; [now left|]. split; [now rewrite ?app_nil_r|].
    exists (-1), "Timed out", rest. repeat split.
  - rewrite close_and_raise_current by assumption. intros [= <- <-].
    exists [], (RecvError errno strerror :: rest). rewrite app_nil_r.
    split; [reflexivity|]; split; [simpl; intros; lia|]; split; [simpl; lia|].
    split; [now left|]. split; [now rewrite ?app_nil_r|].
    exists errno, strerror, rest. repeat split.
Qed.

End Recv.

(** X1. [_sock_send] on any behaviour of the socket: what reaches the
    wire is a prefix of the message and nothing else, and no byte is
    read; the call returns only when the prefix is the whole message, the
    connection untouched; otherwise the socket goes through
    [_sock_close], [self.sock] is [None] and the exception is a
    [ProtocolError]. *)
Theorem sock_send_writes_a_prefix (r : nat) (msg : bytes) (w w' : world)
        (sk : pysocket) (res : result unit) :
  heap w !! r = Some sk ->
  self_sock w = Some r ->
  _sock_send (Some r) msg w = (res, w') ->
  exists sk' k,
    heap w' = <[r := sk']> (heap w)
    /\ wire sk' = wire sk ++ take k msg
    /\ on_recv sk' = on_recv sk
    /\ match res with
       | Ok _ => k = length msg /\ self_sock w' = Some r
                 /\ shutdown_calls sk' = shutdown_calls sk /\ closed sk' = closed sk
       | Raise e => (exists errno text, e = ProtocolError errno text)
                    /\ (k < length msg)%nat
                    /\ self_sock w' = None
                    /\ shutdown_calls sk' = S (shutdown_calls sk)
       end.
Proof.
  intros Hsk Hcur Hrun. pose proof (lookup_lt_Some _ _ _ Hsk) as Hr.
  unfold _sock_send in Hrun. rewrite <- (upd_id r sk w Hsk) in Hrun.
  apply (sock_send_loop_prefix r msg w Hr Hcur) in Hrun; [| lia | lia].
  destruct Hrun as (sk' & k & Hk & Hh & Hw & Hrecv & Hres).
  exists sk', k. rewrite Nat.sub_0_r, drop_0 in Hw. auto.
Qed.

(** The socket takes the two bytes it is handed. *)
Definition takes_all : pysocket :=
  with_connected true (listening [SendAccept 3; SendTimeout] []).

Lemma sock_send_writes_a_prefix_witness :
  exists sk' k,
    heap (snd (_sock_send (Some 0%nat) (b "{}") (connected_to takes_all)))
    = <[0%nat := sk']> (heap (connected_to takes_all))
    /\ wire sk' = [] ++ take k (b "{}")
    /\ on_recv sk' = []
    /\ k = 2%nat
    /\ self_sock (snd (_sock_send (Some 0%nat) (b "{}") (connected_to takes_all))) = Some 0%nat
    /\ shutdown_calls sk' = 0%nat /\ closed sk' = false.
Proof.
  apply (sock_send_writes_a_prefix 0 (b "{}") (connected_to takes_all)
           (snd (_sock_send (Some 0%nat) (b "{}") (connected_to takes_all)))
           takes_all (Ok tt)); vm_compute; reflexivity.
Defined.

(** X2. A frame [_sock_recv_until] returns is exactly what it has taken
    from the stream: it is not empty, at most 4097 bytes long, ends with
    the token, no shorter prefix of it does, and the bytes that follow it
    are still to be read; the connection is as it was. *)
Theorem sock_recv_until_frame (r : nat) (token d : bytes) (w w' : world) (sk : pysocket) :
  heap w !! r = Some sk ->
  self_sock w = Some r ->
  _sock_recv_until (Some r) token w = (Ok (Some d), w') ->
  d <> []
  /\ (length d <= S recv_limit)%nat
  /\ ends_with token d = true
  /\ (forall k, (0 < k < length d)%nat -> ends_with token (take k d) = false)
  /\ exists rest, on_recv sk = map RecvByte d ++ rest
                  /\ w' = upd r (with_on_recv rest sk) w.
Proof.
  intros Hsk Hcur Hrun. pose proof (lookup_lt_Some _ _ _ Hsk) as Hr.
  unfold _sock_recv_until in Hrun. rewrite <- (upd_id r sk w Hsk) in Hrun.
  apply (sock_recv_loop_outcome r token w Hr Hcur) in Hrun; [| simpl; lia].
  destruct Hrun as (l & plan & Hp & Hfree & Hlen & Hd & Hne & Hend & Hw).
  simpl in Hd, Hlen, Hfree. subst d.
  repeat split; try assumption. now exists plan.
Qed.

(** Two lines arrive one after the other. *)
Definition two_lines : pysocket :=
  with_connected true (listening [] (arriving (b "ab" ++ newline ++ b "cd" ++ newline))).

Lemma sock_recv_until_frame_witness :
  b "ab" ++ newline <> []
  /\ (length (b "ab" ++ newline) <= S recv_limit)%nat
  /\ ends_with newline (b "ab" ++ newline) = true
  /\ (forall k, (0 < k < length (b "ab" ++ newline))%nat ->
                ends_with newline (take k (b "ab" ++ newline)) = false)
  /\ exists rest,
      on_recv two_lines = map RecvByte (b "ab" ++ newline) ++ rest
      /\ upd 0 (with_on_recv (arriving (b "cd" ++ newline)) two_lines) (connected_to two_lines)
         = upd 0 (with_on_recv rest two_lines) (connected_to two_lines).
Proof.
  apply (sock_recv_until_frame 0 newline (b "ab" ++ newline) (connected_to two_lines)
           (upd 0 (with_on_recv (arriving (b "cd" ++ newline)) two_lines)
                (connected_to two_lines))
           two_lines); vm_compute; reflexivity.
Defined.

(** X3. [_sock_recv_until] returns [None] in two cases only: the stream
    has ended, or 4097 bytes have come without the token. In both the
    bytes read are dropped, [self.sock] and the socket stay as they are,
    nothing is closed, and the end of the stream is still there for the
    next read. *)
Theorem sock_recv_until_none (r : nat) (token : bytes) (w w' : world) (sk : pysocket) :
  heap w !! r = Some sk ->
  self_sock w = Some r ->
  _sock_recv_until (Some r) token w = (Ok None, w') ->
  exists l rest,
    on_recv sk = map RecvByte l ++ rest
    /\ w' = upd r (with_on_recv rest sk) w
    /\ (forall k, (0 < k <= length l)%nat -> ends_with token (take k l) = false)
    /\ (length l = S recv_limit
        \/ ((length l <= recv_limit)%nat /\ exists p, rest = RecvEOF :: p)).
Proof.
  intros Hsk Hcur Hrun. pose proof (lookup_lt_Some _ _ _ Hsk) as Hr.
  unfold _sock_recv_until in Hrun. rewrite <- (upd_id r sk w Hsk) in Hrun.
  apply (sock_recv_loop_outcome r token w Hr Hcur) in Hrun; [| simpl; lia].
  destruct Hrun as (l & plan & Hp & Hfree & Hlen & Hlast & Hwhy & Hw).
  simpl in Hlen, Hfree, Hlast, Hwhy. exists l, plan.
  split; [exact Hp|]. split; [exact Hw|]. split.
  - intros k Hk. destruct (decide (k = length l)) as [->|Hn].
    + rewrite firstn_all. destruct Hlast as [-> | Hf]; [simpl in Hk; lia | exact Hf].
    + apply Hfree. lia.
  - destruct (decide (recv_limit < length l)%nat) as [Hover|Hunder]; [left; lia|].
    right. split; [lia|]. destruct Hwhy as [Hover | Heof]; [lia | exact Heof].
Qed.

(** The peer closes in the middle of a line. *)
Definition closes_mid_line : pysocket :=
  with_connected true (listening [] (arriving (b "ab") ++ [RecvEOF])).

Lemma sock_recv_until_none_witness :
  exists l rest,
    on_recv closes_mid_line = map RecvByte l ++ rest
    /\ upd 0 (with_on_recv [RecvEOF] closes_mid_line) (connected_to closes_mid_line)
       = upd 0 (with_on_recv rest closes_mid_line) (connected_to closes_mid_line)
    /\ (forall k, (0 < k <= length l)%nat -> ends_with newline (take k l) = false)
    /\ (length l = S recv_limit
        \/ ((length l <= recv_limit)%nat /\ exists p, rest = RecvEOF :: p)).
Proof.
  apply (sock_recv_until_none 0 newline (connected_to closes_mid_line)
           (upd 0 (with_on_recv [RecvEOF] closes_mid_line) (connected_to closes_mid_line))
           closes_mid_line); vm_compute; reflexivity.
Defined.

(** X4. [_sock_recv_until] raises only where [recv] has: after at most
    4096 bytes without the token the next answer of the socket is a
    timeout or an error; the exception is the [ProtocolError] of that
    fault, the socket has gone through [_sock_close] and [self.sock] is
    [None]. *)
Theorem sock_recv_until_raises (r : nat) (token : bytes) (w w' : world) (sk : pysocket)
        (e : exn) :
  heap w !! r = Some sk ->
  self_sock w = Some r ->
  _sock_recv_until (Some r) token w = (Raise e, w') ->
  exists l plan errno text rest,
    on_recv sk = map RecvByte l ++ plan
    /\ (length l <= recv_limit)%nat
    /\ (forall k, (0 < k <= length l)%nat -> ends_with token (take k l) = false)
    /\ recv_fault plan = Some (errno, text, rest)
    /\ e = ProtocolError errno text
    /\ w' = with_self_sock None (upd r (after_close (with_on_recv rest sk)) w).
Proof.
  intros Hsk Hcur Hrun. pose proof (lookup_lt_Some _ _ _ Hsk) as Hr.
  unfold _sock_recv_until in Hrun. rewrite <- (upd_id r sk w Hsk) in Hrun.
  apply (sock_recv_loop_outcome r token w Hr Hcur) in Hrun; [| simpl; lia].
  destruct Hrun as (l & plan & Hp & Hfree & _ & Hlast & Hlen & errno & text & rest & He & Hf & Hw).
  simpl in Hlen, Hfree, Hlast. exists l, plan, errno, text, rest.
  repeat split; try assumption.
  intros k Hk. destruct (decide (k = length l)) as [->|Hn].
  - rewrite firstn_all. destruct Hlast as [-> | Hlast]; [simpl in Hk; lia | exact Hlast].
  - apply Hfree. lia.
Qed.

(** The connection is reset in the middle of a line. *)
Definition resets_mid_line : pysocket :=
  with_connected true
    (listening [] (arriving (b "ab") ++ [RecvError 104 "Connection reset by peer"])).

Lemma sock_recv_until_raises_witness :
  exists l plan errno text rest,
    on_recv resets_mid_line = map RecvByte l ++ plan
    /\ (length l <= recv_limit)%nat
    /\ (forall k, (0 < k <= length l)%nat -> ends_with newline (take k l) = false)
    /\ recv_fault plan = Some (errno, text, rest)
    /\ ProtocolError 104 "Connection reset by peer" = ProtocolError errno text
    /\ snd (_sock_recv_until (Some 0%nat) newline (connected_to resets_mid_line))
       = with_self_sock None
           (upd 0 (after_close (with_on_recv rest resets_mid_line))
                (connected_to resets_mid_line)).
Proof.
  apply (sock_recv_until_raises 0 newline (connected_to resets_mid_line)
           (snd (_sock_recv_until (Some 0%nat) newline (connected_to resets_mid_line)))
           resets_mid_line); vm_compute; reflexivity.
Defined.

End TransportProperties.

(** ** The socket client: closing, connecting, calling *)

Module ClientProperties.
Import Py Socket QemuGuestAgentClient WorldFacts SendFacts RecvFacts HandshakeFacts.
Import TeardownFacts CallFacts ConnectFacts Examples TransportProperties.

(** The socket [socket.socket()] hands out next. *)
Definition next_socket (w : world) : pysocket :=
  match incoming w with sk :: _ => sk | [] => refused end.

Lemma heap_with_new_socket (w : world) :
  heap (with_new_socket w) = heap w ++ [next_socket w].
Proof. reflexivity. Qed.

Lemma lookup_new_socket (w : world) :
  heap (with_new_socket w) !! length (heap w) = Some (next_socket w).
Proof.
  rewrite heap_with_new_socket, lookup_app_r by lia. now rewrite Nat.sub_diag.
Qed.

Lemma new_socket_valid (w : world) :
  (length (heap w) < length (heap (with_new_socket w)))%nat.
Proof. rewrite heap_with_new_socket, length_app. simpl. lia. Qed.

Lemma sock_close_run (r : nat) (sk : pysocket) (w : world) :
  (r < length (heap w))%nat ->
  _sock_close (Some r) (upd r sk w) = (Ok tt, upd r (after_close sk) w).
Proof.
  intros L. unfold _sock_close, try_except, bind, on_object, shutdown, close.
  rewrite method_upd by exact L. simpl fst; simpl snd. unfold after_close.
  destruct (on_shutdown sk) as [[errno strerror]|]; simpl.
  - reflexivity.
  - rewrite method_upd by exact L. reflexivity.
Qed.

(** X5. [_sock_close] on a socket object never raises. It calls
    [shutdown] once; when that has raised [socket.error] the socket is
    left as it was, not closed; otherwise it is closed. What was sent
    and what is still to be read are not touched. On [None] it raises
    [AttributeError]. *)
Theorem sock_close_best_effort :
  (forall (r : nat) (w : world) (sk : pysocket),
      heap w !! r = Some sk ->
      exists sk',
        _sock_close (Some r) w = (Ok tt, upd r sk' w)
        /\ shutdown_calls sk' = S (shutdown_calls sk)
        /\ wire sk' = wire sk /\ on_recv sk' = on_recv sk /\ on_send sk' = on_send sk
        /\ match on_shutdown sk with
           | Some _ => closed sk' = closed sk /\ connected sk' = connected sk
           | None => closed sk' = true /\ connected sk' = false
           end)
  /\ (forall w : world, _sock_close None w = (Raise AttributeError, w)).
Proof.
  split.
  - intros r w sk Hsk. pose proof (lookup_lt_Some _ _ _ Hsk) as L.
    exists (after_close sk). rewrite <- (upd_id r sk w Hsk) at 1.
    rewrite (sock_close_run r sk w L).
    destruct (after_close_fields sk) as (Hw & Hr & Hs & Hc).
    repeat split; try assumption.
    unfold after_close. now destruct (on_shutdown sk).
  - reflexivity.
Qed.

Lemma sock_close_best_effort_witness :
  (exists sk',
      _sock_close (Some 0%nat) (connected_to (listening [] []))
      = (Ok tt, upd 0 sk' (connected_to (listening [] [])))
      /\ shutdown_calls sk' = 1%nat
      /\ wire sk' = [] /\ on_recv sk' = [] /\ on_send sk' = []
      /\ closed sk' = true /\ connected sk' = false)
  /\ _sock_close None (connected_to (listening [] []))
     = (Raise AttributeError, connected_to (listening [] [])).
Proof.
  split.
  - apply (proj1 sock_close_best_effort 0%nat (connected_to (listening [] []))
             (with_connected true (listening [] []))).
    reflexivity.
  - apply (proj2 sock_close_best_effort).
Defined.

Section Client.
Context `{Json.Codec}.

(** [_connect] once [connect] has raised: the handler runs on the new
    socket. *)
Lemma connect_raises (w : world) (e : exn) :
  fst (connect (length (heap w)) (self_where (with_new_socket w)) (with_new_socket w))
  = Raise e ->
  connect_and_sync (with_new_socket w) = (Raise e, with_new_socket w).
Proof.
  unfold connect_and_sync, bind at 1, get_self_sock. simpl self_sock.
  unfold bind at 1, get. unfold bind at 1, on_object.
  unfold connect, method. rewrite lookup_new_socket.
  destruct (on_connect (next_socket w)); simpl; intros [= <-].
  - now rewrite (upd_id _ _ _ (lookup_new_socket w)).
  - now rewrite (upd_id _ _ _ (lookup_new_socket w)).
Qed.

Lemma close_new_socket {A} (errno : Z) (msg : string) (w : world) :
  @close_and_raise A errno msg (with_new_socket w)
  = (Raise (ProtocolError errno msg),
     with_self_sock None
       (upd (length (heap w)) (after_close (next_socket w)) (with_new_socket w))).
Proof.
  rewrite <- (upd_id _ _ _ (lookup_new_socket w)) at 1.
  apply close_and_raise_current; [apply new_socket_valid | reflexivity].
Qed.

(** X6. [_connect] when [connect] fails: the new socket goes through
    [_sock_close], [self.sock] is [None] again, nothing has been sent,
    and the exception is [ProtocolError(-1, "Timed out")] for a timeout
    and [ProtocolError(errno, "Connection failed: " + strerror)] for a
    socket error. *)
Theorem connect_failure_is_reported (w : world) :
  (on_connect (next_socket w) = ConnectTimeout ->
   _connect w
   = (Raise (ProtocolError (-1) "Timed out"),
      with_self_sock None
        (upd (length (heap w)) (after_close (next_socket w)) (with_new_socket w))))
  /\ (forall (errno : Z) (strerror : string),
         on_connect (next_socket w) = ConnectError errno strerror ->
         _connect w
         = (Raise (ProtocolError errno ("Connection failed: " +:+ strerror)),
            with_self_sock None
              (upd (length (heap w)) (after_close (next_socket w)) (with_new_socket w))))
  /\ wire (after_close (next_socket w)) = wire (next_socket w).
Proof.
  split; [| split].
  - intros Hc. rewrite connect_unfold. unfold try_except.
    rewrite (connect_raises w socket_timeout).
    + apply close_new_socket.
    + unfold connect, method. rewrite lookup_new_socket, Hc. reflexivity.
  - intros errno strerror Hc. rewrite connect_unfold. unfold try_except.
    rewrite (connect_raises w (socket_error errno strerror)).
    + apply close_new_socket.
    + unfold connect, method. rewrite lookup_new_socket, Hc. reflexivity.
  - apply after_close_fields.
Qed.

(** [_connect] once [connect] has returned: the handshake runs on the
    connected socket. *)
Lemma connect_returns (w : world) :
  on_connect (next_socket w) = ConnectOk ->
  connect_and_sync (with_new_socket w)
  = _reset_conn (Some (length (heap w)))
                (upd (length (heap w)) (with_connected true (next_socket w))
                     (with_new_socket w)).
Proof.
  intros Hc. unfold connect_and_sync, bind at 1, get_self_sock. simpl self_sock.
  unfold bind at 1, get. unfold bind at 1, on_object.
  unfold connect, method. rewrite lookup_new_socket, Hc. reflexivity.
Qed.

(** X7. A fault of [send] during the handshake of [_connect]: the
    [ProtocolError] of [_sock_send] leaves [_connect] as it is, without
    the prefix ["Connection failed: "], and the handlers of [_connect]
    do not run: the socket has gone through [_sock_close] once, and
    [self.sock] is [None]. *)
Theorem connect_handshake_fault (w : world) (text : str) (ns : list nat)
        (tail rest : list send_outcome) (errno : Z) (reason : string) :
  on_connect (next_socket w) = ConnectOk ->
  Json.dumps (HandshakeTheorems.sync_request w) = Ok text ->
  on_send (next_socket w) = map SendAccept ns ++ tail ->
  send_fault tail = Some (errno, reason, rest) ->
  Forall (fun n => 0 < n)%nat ns ->
  (sum_list ns < length (Utf8.encode text))%nat ->
  exists sk',
    _connect w
    = (Raise (ProtocolError errno reason),
       with_self_sock None (upd (length (heap w)) sk' (with_new_socket w)))
    /\ wire sk' = wire (next_socket w) ++ take (sum_list ns) (Utf8.encode text)
    /\ shutdown_calls sk' = S (shutdown_calls (next_socket w)).
Proof.
  intros Hc Htext Hs Hfault Hpos Hcap.
  exists (after_close (sent_on (with_connected true (next_socket w))
                               (take (sum_list ns) (Utf8.encode text)) rest)).
  split; [| split].
  - rewrite connect_unfold. unfold try_except. rewrite (connect_returns w Hc).
    unfold _reset_conn, bind at 1, time_time.
    change (now (upd (length (heap w)) (with_connected true (next_socket w))
                     (with_new_socket w))) with (now w).
    fold (HandshakeTheorems.token w). fold (HandshakeTheorems.sync_request w).
    unfold bind at 1, lift. rewrite Htext. unfold bind at 1.
    pose proof (sock_send_loop_fault (length (heap w)) (Utf8.encode text) (with_new_socket w)
                  (new_socket_valid w) ns (length (Utf8.encode text)) 0
                  (with_connected true (next_socket w)) tail rest errno reason
                  eq_refl Hs Hfault Hpos) as Hrun.
    rewrite drop_0 in Hrun. unfold _sock_send. rewrite Hrun by lia. reflexivity.
  - destruct (after_close_fields (sent_on (with_connected true (next_socket w))
                                          (take (sum_list ns) (Utf8.encode text)) rest))
      as (Hw & _). rewrite Hw. reflexivity.
  - destruct (after_close_fields (sent_on (with_connected true (next_socket w))
                                          (take (sum_list ns) (Utf8.encode text)) rest))
      as (_ & _ & _ & Hn). rewrite Hn. reflexivity.
Qed.

(** [_reset_conn] on a stream that holds stale lines and then the
    answer. *)
Lemma reset_conn_run (r : nat) (w : world) (sk : pysocket) (text : str)
      (ns : list nat) (n : nat) (tail : list send_outcome)
      (lines : list bytes) (answer : bytes) (rest : list recv_outcome) :
  (r < length (heap w))%nat ->
  Json.dumps (HandshakeTheorems.sync_request w) = Ok text ->
  on_send sk = map SendAccept ns ++ SendAccept n :: tail ->
  Forall (fun n => 0 < n)%nat ns ->
  (sum_list ns < length (Utf8.encode text) <= sum_list ns + n)%nat ->
  on_recv sk = map RecvByte (stream lines ++ answer ++ newline) ++ rest ->
  Forall (stale (HandshakeTheorems.token w)) lines ->
  matching (HandshakeTheorems.token w) answer ->
  _reset_conn (Some r) (upd r sk w)
  = (Ok tt, upd r (with_on_recv rest (sent_on sk (Utf8.encode text) tail)) w).
Proof.
  intros L Htext Hs Hpos Hcap Hrecv Hstale Hmatch.
  unfold _reset_conn, bind at 1, time_time.
  change (now (upd r sk w)) with (now w).
  fold (HandshakeTheorems.token w). fold (HandshakeTheorems.sync_request w).
  unfold bind at 1, lift. rewrite Htext.
  unfold bind at 1, _sock_send.
  rewrite (sock_send_loop_exact r (Utf8.encode text) w L ns (length (Utf8.encode text)) 0 n
             sk tail Hs Hpos); [| lia | lia].
  rewrite drop_0.
  unfold bind at 1, recv_budget. rewrite heap_upd by exact L.
  change (on_recv (sent_on sk (Utf8.encode text) tail)) with (on_recv sk).
  rewrite map_app, <- app_assoc in Hrecv.
  assert (length lines <= length (on_recv sk))%nat as Hfuel.
  { rewrite Hrecv, length_app, length_map. pose proof (length_stream lines). lia. }
  replace (S (length (on_recv sk)))
    with (length lines + S (length (on_recv sk) - length lines))%nat by lia.
  rewrite (reset_conn_loop_discards r w (HandshakeTheorems.token w) L lines _
             (sent_on sk (Utf8.encode text) tail)
             (map RecvByte (answer ++ newline) ++ rest) Hrecv Hstale).
  rewrite (reset_conn_loop_matching r w (HandshakeTheorems.token w) L _ answer _ rest);
    [| reflexivity | exact Hmatch].
  reflexivity.
Qed.

(** What [_call] returns for the line it has read. *)
Definition unmarshal (line : bytes) : result QemuAgentRet :=
  match Utf8.decode (line ++ newline) with
  | Ok response => QemuAgentRet_init response
  | Raise e => Raise e
  end.

(** The request goes out whole and one line comes back. *)
Lemma exchange_line (r : nat) (w : world) (sk : pysocket) (json_str : str)
      (ns : list nat) (tail : list send_outcome) (line : bytes) (rest : list recv_outcome) :
  (r < length (heap w))%nat ->
  on_send sk = map SendAccept ns ++ tail ->
  Forall (fun n => 0 < n)%nat ns ->
  (length (Utf8.encode json_str) <= sum_list ns)%nat ->
  on_recv sk = map RecvByte (line ++ newline) ++ rest ->
  framed line ->
  exists unsent,
    exchange (Some r) json_str (upd r sk w)
    = (unmarshal line,
       upd r (with_on_recv rest (sent_on sk (Utf8.encode json_str) unsent)) w).
Proof.
  intros L Hs Hpos Hcap Hrecv [Hfree Hlen].
  destruct (HandshakeTheorems.sock_send_whole r (Utf8.encode json_str) w sk ns tail
              L Hs Hpos Hcap) as [unsent Hsend].
  exists unsent. unfold exchange, bind at 1. rewrite Hsend.
  unfold bind at 1.
  rewrite (sock_recv_until_line r w L line (sent_on sk (Utf8.encode json_str) unsent) rest
             Hrecv Hfree Hlen).
  unfold bind, lift, decode, unmarshal.
  destruct (Utf8.decode (line ++ newline)) as [response|e]; [| reflexivity].
  now destruct (QemuAgentRet_init response).
Qed.

(** X8. [_call] on a client that is connected: no new socket is made
    and no handshake runs; the request is written as [json.dumps] gives
    it, with no newline after it; one line is read, and what follows it
    stays unread; the result is the line unmarshalled, or the exception
    unmarshalling raises, and in both cases [self.sock] is kept. *)
Theorem call_reuses_connection (command : str) (args : pyval) (r : nat) (w : world)
        (sk : pysocket) (json_str : str) (ns : list nat) (tail : list send_outcome)
        (line : bytes) (rest : list recv_outcome) :
  heap w !! r = Some sk ->
  self_sock w = Some r ->
  Json.dumps (request command args) = Ok json_str ->
  on_send sk = map SendAccept ns ++ tail ->
  Forall (fun n => 0 < n)%nat ns ->
  (length (Utf8.encode json_str) <= sum_list ns)%nat ->
  on_recv sk = map RecvByte (line ++ newline) ++ rest ->
  framed line ->
  exists unsent,
    _call command args w
    = (unmarshal line,
       upd r (with_on_recv rest (sent_on sk (Utf8.encode json_str) unsent)) w)
    /\ wire (with_on_recv rest (sent_on sk (Utf8.encode json_str) unsent))
       = wire sk ++ Utf8.encode json_str.
Proof.
  intros Hsk Hself Hd Hs Hpos Hcap Hrecv Hline.
  pose proof (lookup_lt_Some _ _ _ Hsk) as L.
  destruct (exchange_line r w sk json_str ns tail line rest L Hs Hpos Hcap Hrecv Hline)
    as [unsent Hx].
  exists unsent. split; [| reflexivity].
  rewrite call_unfold, Hd, make_connection_unfold, Hself.
  rewrite <- (upd_id r sk w Hsk) at 1. exact Hx.
Qed.

(** X9. [_call] on a client without a connection: it makes a socket,
    connects, sends the [guest-sync] request, discards the stale lines,
    takes the answer to the handshake, and only then sends the command
    and reads its reply, all on the new socket, which it keeps in
    [self.sock]. *)
Theorem call_connects_first (command : str) (args : pyval) (w : world)
        (sync_text json_str : str) (ns1 : list nat) (n1 : nat) (ns2 : list nat)
        (tail : list send_outcome) (lines : list bytes) (answer line : bytes)
        (rest : list recv_outcome) :
  self_sock w = None ->
  on_connect (next_socket w) = ConnectOk ->
  Json.dumps (HandshakeTheorems.sync_request w) = Ok sync_text ->
  Json.dumps (request command args) = Ok json_str ->
  on_send (next_socket w) = map SendAccept ns1 ++ SendAccept n1 :: map SendAccept ns2 ++ tail ->
  Forall (fun n => 0 < n)%nat ns1 ->
  (sum_list ns1 < length (Utf8.encode sync_text) <= sum_list ns1 + n1)%nat ->
  Forall (fun n => 0 < n)%nat ns2 ->
  (length (Utf8.encode json_str) <= sum_list ns2)%nat ->
  on_recv (next_socket w)
  = map RecvByte (stream lines ++ answer ++ newline) ++ map RecvByte (line ++ newline) ++ rest ->
  Forall (stale (HandshakeTheorems.token w)) lines ->
  matching (HandshakeTheorems.token w) answer ->
  framed line ->
  exists sk',
    _call command args w = (unmarshal line, upd (length (heap w)) sk' (with_new_socket w))
    /\ self_sock (upd (length (heap w)) sk' (with_new_socket w)) = Some (length (heap w))
    /\ wire sk' = wire (next_socket w) ++ Utf8.encode sync_text ++ Utf8.encode json_str
    /\ on_recv sk' = rest
    /\ connected sk' = true /\ closed sk' = closed (next_socket w).
Proof.
  intros Hself Hc Hsync Hd Hs Hpos1 Hcap1 Hpos2 Hcap2 Hrecv Hstale Hmatch Hline.
  set (r := length (heap w)). set (W := with_new_socket w).
  pose proof (new_socket_valid w) as L. fold r W in L.
  pose proof (reset_conn_run r W (with_connected true (next_socket w)) sync_text
                ns1 n1 (map SendAccept ns2 ++ tail) lines answer
                (map RecvByte (line ++ newline) ++ rest) L Hsync Hs Hpos1 Hcap1 Hrecv
                Hstale Hmatch) as Hreset.
  set (sk1 := with_on_recv (map RecvByte (line ++ newline) ++ rest)
                (sent_on (with_connected true (next_socket w)) (Utf8.encode sync_text)
                         (map SendAccept ns2 ++ tail))) in *.
  destruct (exchange_line r W sk1 json_str ns2 tail line rest L eq_refl Hpos2 Hcap2
              eq_refl Hline) as [unsent Hx].
  exists (with_on_recv rest (sent_on sk1 (Utf8.encode json_str) unsent)).
  split; [| split; [reflexivity | split; [| split; [reflexivity | split; reflexivity]]]].
  - rewrite call_unfold, Hd, make_connection_unfold, Hself, connect_unfold.
    unfold try_except. fold W. unfold W at 1. rewrite (connect_returns w Hc).
    fold r W. rewrite Hreset. simpl self_sock. fold r. rewrite Hx. reflexivity.
  - simpl. now rewrite <- app_assoc.
Qed.

(** X10. A [_call] on a connected client that ends in another
    exception than [ProtocolError] (a reply that cannot be unmarshalled,
    the end of the stream, arguments that cannot be marshalled) keeps
    the connection: [self.sock] is the same socket, and it has not gone
    through [_sock_close]. *)
Theorem call_failure_keeps_connection (command : str) (args : pyval) (r : nat)
        (w w' : world) (sk : pysocket) (e : exn) :
  heap w !! r = Some sk ->
  self_sock w = Some r ->
  _call command args w = (Raise e, w') ->
  ~ is_protocol_error e ->
  self_sock w' = Some r
  /\ exists sk', heap w' = <[r := sk']> (heap w)
                 /\ shutdown_calls sk' = shutdown_calls sk
                 /\ closed sk' = closed sk.
Proof.
  intros Hsk Hself Hcall Hnpe.
  pose proof (lookup_lt_Some _ _ _ Hsk) as L.
  rewrite call_unfold in Hcall.
  destruct (Json.dumps (request command args)) as [json_str|e0].
  2:{ injection Hcall as <- <-. split; [exact Hself|].
      exists sk. now rewrite list_insert_id. }
  rewrite make_connection_unfold, Hself in Hcall.
  unfold exchange, bind at 1 in Hcall.
  destruct (_sock_send (Some r) (Utf8.encode json_str) w) as [res1 w1] eqn:Hsend.
  unfold _sock_send in Hsend. rewrite <- (upd_id r sk w Hsk) in Hsend.
  apply (sock_send_loop_prefix r (Utf8.encode json_str) w L Hself) in Hsend; [| lia | lia].
  destruct Hsend as (sk1 & k & _ & Hh1 & _ & _ & Hres1).
  destruct res1 as [[]|e1].
  2:{ injection Hcall as <- <-. destruct Hres1 as ((errno & text & ->) & _).
      now destruct Hnpe. }
  destruct Hres1 as (_ & Hself1 & Hsd1 & Hcl1).
  assert (heap w1 !! r = Some sk1) as Hsk1
      by (rewrite Hh1; now apply list_lookup_insert_eq).
  pose proof (lookup_lt_Some _ _ _ Hsk1) as L1.
  unfold bind at 1 in Hcall.
  destruct (_sock_recv_until (Some r) newline w1) as [res2 w2] eqn:Hrecv.
  unfold _sock_recv_until in Hrecv. rewrite <- (upd_id r sk1 w1 Hsk1) in Hrecv.
  apply (sock_recv_loop_outcome r newline w1 L1 Hself1) in Hrecv; [| simpl; lia].
  destruct Hrecv as (l & plan & _ & _ & _ & Hres2).
  assert (forall (x : result QemuAgentRet),
             (x, w2) = (Raise e, w') ->
             w2 = upd r (with_on_recv plan sk1) w1 ->
             self_sock w' = Some r
             /\ exists sk', heap w' = <[r := sk']> (heap w)
                            /\ shutdown_calls sk' = shutdown_calls sk
                            /\ closed sk' = closed sk) as Hdone.
  { intros x [= _ <-] ->. split; [exact Hself1|].
    exists (with_on_recv plan sk1). simpl. rewrite Hh1, list_insert_insert_eq.
    repeat split; assumption. }
  destruct res2 as [[d|]|e2].
  - destruct Hres2 as (_ & _ & _ & Hw2). unfold bind, lift in Hcall.
    destruct (decode (Some d)) as [response|e3]; [| now apply (Hdone _ Hcall)].
    destruct (QemuAgentRet_init response); now apply (Hdone _ Hcall).
  - destruct Hres2 as (_ & _ & Hw2). unfold bind, lift in Hcall. simpl in Hcall.
    now apply (Hdone _ Hcall).
  - injection Hcall as <- <-. destruct Hres2 as (_ & _ & errno & text & rest & -> & _).
    now destruct Hnpe.
Qed.

(** X11. A [_call] on a connection the peer has closed: the request
    still goes out, the read meets the end of the stream and returns
    [None], and [None.decode] raises [AttributeError]. No handler runs:
    the socket stays open and in [self.sock], with the end of the stream
    still first to be read, so the next call meets the same. *)
Theorem call_after_peer_closed (command : str) (args : pyval) (r : nat) (w : world)
        (sk : pysocket) (json_str : str) (ns : list nat) (tail : list send_outcome)
        (rest : list recv_outcome) :
  heap w !! r = Some sk ->
  self_sock w = Some r ->
  Json.dumps (request command args) = Ok json_str ->
  on_send sk = map SendAccept ns ++ tail ->
  Forall (fun n => 0 < n)%nat ns ->
  (length (Utf8.encode json_str) <= sum_list ns)%nat ->
  on_recv sk = RecvEOF :: rest ->
  exists sk',
    _call command args w = (Raise AttributeError, upd r sk' w)
    /\ self_sock (upd r sk' w) = Some r
    /\ wire sk' = wire sk ++ Utf8.encode json_str
    /\ on_recv sk' = RecvEOF :: rest
    /\ closed sk' = closed sk /\ shutdown_calls sk' = shutdown_calls sk.
Proof.
  intros Hsk Hself Hd Hs Hpos Hcap Hrecv.
  pose proof (lookup_lt_Some _ _ _ Hsk) as L.
  destruct (HandshakeTheorems.sock_send_whole r (Utf8.encode json_str) w sk ns tail
              L Hs Hpos Hcap) as [unsent Hsend].
  exists (sent_on sk (Utf8.encode json_str) unsent).
  split; [| repeat split; assumption].
  rewrite call_unfold, Hd, make_connection_unfold, Hself.
  rewrite <- (upd_id r sk w Hsk) at 1.
  unfold exchange, bind at 1. rewrite Hsend. unfold bind at 1.
  rewrite (sock_recv_until_eof r newline w L [] (sent_on sk (Utf8.encode json_str) unsent) rest);
    [| exact Hrecv | simpl; lia | intros k Hk; simpl in Hk; lia].
  unfold bind, lift, decode. simpl fst; simpl snd.
  rewrite <- Hrecv.
  change (on_recv sk) with (on_recv (sent_on sk (Utf8.encode json_str) unsent)).
  now rewrite with_on_recv_id.
Qed.

(** X12. A reply of more than 4096 bytes before its newline: the read
    gives up after 4097 bytes, [_call] raises [AttributeError], and the
    rest of that reply stays in the stream. The connection is kept, so
    the next [_call] takes the rest of the old reply for the reply to
    its own request. *)
Theorem oversized_reply_desynchronises (command1 command2 : str) (args1 args2 : pyval)
        (r : nat) (w : world) (sk : pysocket) (json1 json2 : str)
        (ns1 : list nat) (n1 : nat) (ns2 : list nat) (tail : list send_outcome)
        (big line : bytes) (rest : list recv_outcome) :
  heap w !! r = Some sk ->
  self_sock w = Some r ->
  Json.dumps (request command1 args1) = Ok json1 ->
  Json.dumps (request command2 args2) = Ok json2 ->
  on_send sk = map SendAccept ns1 ++ SendAccept n1 :: map SendAccept ns2 ++ tail ->
  Forall (fun n => 0 < n)%nat ns1 ->
  (sum_list ns1 < length (Utf8.encode json1) <= sum_list ns1 + n1)%nat ->
  Forall (fun n => 0 < n)%nat ns2 ->
  (length (Utf8.encode json2) <= sum_list ns2)%nat ->
  on_recv sk = map RecvByte big ++ map RecvByte (line ++ newline) ++ rest ->
  length big = S recv_limit ->
  forallb not_newline big = true ->
  framed line ->
  exists sk1,
    _call command1 args1 w = (Raise AttributeError, upd r sk1 w)
    /\ self_sock (upd r sk1 w) = Some r
    /\ closed sk1 = closed sk
    /\ exists unsent,
        _call command2 args2 (upd r sk1 w)
        = (unmarshal line,
           upd r (with_on_recv rest (sent_on sk1 (Utf8.encode json2) unsent)) w).
Proof.
  intros Hsk Hself Hd1 Hd2 Hs Hpos1 Hcap1 Hpos2 Hcap2 Hrecv Hbig Hfree Hline.
  pose proof (lookup_lt_Some _ _ _ Hsk) as L.
  set (sk0 := sent_on sk (Utf8.encode json1) (map SendAccept ns2 ++ tail)).
  set (sk1 := with_on_recv (map RecvByte (line ++ newline) ++ rest) sk0).
  exists sk1. split; [| split; [exact Hself | split; [reflexivity|]]].
  - rewrite call_unfold, Hd1, make_connection_unfold, Hself.
    rewrite <- (upd_id r sk w Hsk) at 1.
    unfold exchange, bind at 1, _sock_send.
    rewrite (sock_send_loop_exact r (Utf8.encode json1) w L ns1 (length (Utf8.encode json1))
               0 n1 sk _ Hs Hpos1); [| lia | lia].
    rewrite drop_0. fold sk0. unfold bind at 1.
    rewrite (sock_recv_until_overrun r newline w L big sk0
               (map RecvByte (line ++ newline) ++ rest) Hrecv Hbig
               (newline_free_prefixes big Hfree)).
    reflexivity.
  - destruct (exchange_line r w sk1 json2 ns2 tail line rest L eq_refl Hpos2 Hcap2
                eq_refl Hline) as [unsent Hx].
    exists unsent.
    rewrite call_unfold, Hd2, make_connection_unfold.
    change (self_sock (upd r sk1 w)) with (self_sock w). rewrite Hself.
    exact Hx.
Qed.

End Client.

Import Json.

(** A socket whose [connect] times out. *)
Definition unreachable : pysocket :=
  {| on_connect := ConnectTimeout; on_send := []; on_recv := [];
     on_shutdown := None; connected := false; wire := []; shutdown_calls := 0;
     closed := false |}.

Lemma connect_failure_is_reported_witness :
  _connect (disconnected unreachable)
  = (Raise (ProtocolError (-1) "Timed out"),
     with_self_sock None
       (upd 0 (after_close unreachable) (with_new_socket (disconnected unreachable))))
  /\ _connect (disconnected refused)
     = (Raise (ProtocolError 111 "Connection failed: Connection refused"),
        with_self_sock None
          (upd 0 (after_close refused) (with_new_socket (disconnected refused)))).
Proof.
  split.
  - apply (proj1 (connect_failure_is_reported (disconnected unreachable))). reflexivity.
  - apply (proj1 (proj2 (connect_failure_is_reported (disconnected refused)))
             111 "Connection refused").
    reflexivity.
Defined.

(** The socket connects and takes ten bytes of the handshake, then the
    pipe breaks. *)
Definition breaks_in_handshake : pysocket :=
  listening [SendAccept 10; SendError 32 "Broken pipe"] [].

Lemma connect_handshake_fault_witness :
  exists sk',
    _connect (disconnected breaks_in_handshake)
    = (Raise (ProtocolError 32 "Broken pipe"),
       with_self_sock None
         (upd 0 sk' (with_new_socket (disconnected breaks_in_handshake))))
    /\ wire sk'
       = [] ++ take 10 (Utf8.encode
                          (text_of (HandshakeTheorems.sync_request
                                      (disconnected breaks_in_handshake))))
    /\ shutdown_calls sk' = 1%nat.
Proof.
  apply (connect_handshake_fault (disconnected breaks_in_handshake)
           (text_of (HandshakeTheorems.sync_request (disconnected breaks_in_handshake)))
           [10%nat] [SendError 32 "Broken pipe"] [] 32 "Broken pipe").
  - reflexivity.
  - vm_compute. reflexivity.
  - reflexivity.
  - reflexivity.
  - repeat constructor.
  - apply Nat.ltb_lt. vm_compute. reflexivity.
Defined.

Lemma framed_reply_empty : framed (reply (returning (PyDict []))).
Proof. split; [vm_compute; reflexivity | apply Nat.leb_le; vm_compute; reflexivity]. Qed.

(** The agent answers [{"return": {}}] and has a second line ready. *)
Definition answers_ping : pysocket :=
  listening [SendAccept 1000]
            (arriving (reply (returning (PyDict [])) ++ newline)
             ++ arriving (reply (returning (PyInt 7)) ++ newline)).

Lemma call_reuses_connection_witness :
  exists unsent,
    _call "guest-ping" (PyDict []) (connected_to answers_ping)
    = (unmarshal (reply (returning (PyDict []))),
       upd 0 (with_on_recv (arriving (reply (returning (PyInt 7)) ++ newline))
                (sent_on (with_connected true answers_ping)
                         (Utf8.encode (text_of (request "guest-ping" (PyDict []))))
                         unsent))
           (connected_to answers_ping))
    /\ wire (with_on_recv (arriving (reply (returning (PyInt 7)) ++ newline))
               (sent_on (with_connected true answers_ping)
                        (Utf8.encode (text_of (request "guest-ping" (PyDict []))))
                        unsent))
       = [] ++ Utf8.encode (text_of (request "guest-ping" (PyDict []))).
Proof.
  apply (call_reuses_connection "guest-ping" (PyDict []) 0 (connected_to answers_ping)
           (with_connected true answers_ping)
           (text_of (request "guest-ping" (PyDict [])))
           [1000%nat] [] (reply (returning (PyDict [])))
           (arriving (reply (returning (PyInt 7)) ++ newline))).
  - reflexivity.
  - reflexivity.
  - vm_compute. reflexivity.
  - reflexivity.
  - repeat constructor.
  - apply Nat.leb_le. vm_compute. reflexivity.
  - reflexivity.
  - exact framed_reply_empty.
Defined.

(** The agent has two replies of an earlier client buffered, then
    answers the handshake and the command. *)
Definition fresh_agent : pysocket :=
  listening [SendAccept 10; SendAccept 1000; SendAccept 1000]
            HandshakeTheorems.stale_then_sync.

Lemma stale_left_over :
  stale (HandshakeTheorems.token (disconnected fresh_agent))
        (reply (returning (PyStr "left over"))).
Proof.
  split; [split; [vm_compute; reflexivity | apply Nat.leb_le; vm_compute; reflexivity]|].
  exists [("return", PyStr "left over")]. split; [| reflexivity].
  exists (string_of_list_byte (reply (returning (PyStr "left over")) ++ newline)).
  split; vm_compute; reflexivity.
Qed.

Lemma stale_error_reply :
  stale (HandshakeTheorems.token (disconnected fresh_agent))
        (reply (PyDict [("error", PyDict [("class", PyStr "CommandNotFound")])])).
Proof.
  split; [split; [vm_compute; reflexivity | apply Nat.leb_le; vm_compute; reflexivity]|].
  exists [("error", PyDict [("class", PyStr "CommandNotFound")])]. split; [| exact I].
  exists (string_of_list_byte
            (reply (PyDict [("error", PyDict [("class", PyStr "CommandNotFound")])])
             ++ newline)).
  split; vm_compute; reflexivity.
Qed.

Lemma matching_sync_reply :
  matching (HandshakeTheorems.token (disconnected fresh_agent))
           (reply (returning (PyInt 1700000000))).
Proof.
  split; [split; [vm_compute; reflexivity | apply Nat.leb_le; vm_compute; reflexivity]|].
  exists [("return", PyInt 1700000000)], (PyInt 1700000000).
  split; [| split; vm_compute; reflexivity].
  exists (string_of_list_byte (reply (returning (PyInt 1700000000)) ++ newline)).
  split; vm_compute; reflexivity.
Qed.

Lemma call_connects_first_witness :
  exists sk',
    _call "guest-ping" (PyDict []) (disconnected fresh_agent)
    = (unmarshal (reply (returning (PyDict []))),
       upd 0 sk' (with_new_socket (disconnected fresh_agent)))
    /\ self_sock (upd 0 sk' (with_new_socket (disconnected fresh_agent))) = Some 0%nat
    /\ wire sk'
       = [] ++ Utf8.encode (text_of (HandshakeTheorems.sync_request (disconnected fresh_agent)))
            ++ Utf8.encode (text_of (request "guest-ping" (PyDict [])))
    /\ on_recv sk' = []
    /\ connected sk' = true /\ closed sk' = false.
Proof.
  apply (call_connects_first "guest-ping" (PyDict []) (disconnected fresh_agent)
           (text_of (HandshakeTheorems.sync_request (disconnected fresh_agent)))
           (text_of (request "guest-ping" (PyDict [])))
           [10%nat] 1000%nat [1000%nat] []
           [reply (returning (PyStr "left over"));
            reply (PyDict [("error", PyDict [("class", PyStr "CommandNotFound")])])]
           (reply (returning (PyInt 1700000000)))
           (reply (returning (PyDict []))) []).
  - reflexivity.
  - reflexivity.
  - vm_compute. reflexivity.
  - vm_compute. reflexivity.
  - reflexivity.
  - repeat constructor.
  - split; [apply Nat.ltb_lt | apply Nat.leb_le]; vm_compute; reflexivity.
  - repeat constructor.
  - apply Nat.leb_le. vm_compute. reflexivity.
  - vm_compute. reflexivity.
  - apply List.Forall_cons; [exact stale_left_over |].
    apply List.Forall_cons; [exact stale_error_reply | apply List.Forall_nil].
  - exact matching_sync_reply.
  - exact framed_reply_empty.
Defined.

(** The agent answers with an object that has neither ['error'] nor
    ['return']. *)
Definition answers_nothing : pysocket :=
  listening [SendAccept 1000] (arriving (reply (PyDict []) ++ newline)).

Lemma call_failure_keeps_connection_witness :
  self_sock (snd (_call "guest-ping" (PyDict []) (connected_to answers_nothing))) = Some 0%nat
  /\ exists sk',
      heap (snd (_call "guest-ping" (PyDict []) (connected_to answers_nothing)))
      = <[0%nat := sk']> (heap (connected_to answers_nothing))
      /\ shutdown_calls sk' = 0%nat
      /\ closed sk' = false.
Proof.
  apply (call_failure_keeps_connection "guest-ping" (PyDict []) 0
           (connected_to answers_nothing)
           (snd (_call "guest-ping" (PyDict []) (connected_to answers_nothing)))
           (with_connected true answers_nothing) KeyError).
  - reflexivity.
  - reflexivity.
  - vm_compute. reflexivity.
  - exact id.
Defined.

(** The peer has closed the connection. *)
Definition hung_up : pysocket :=
  listening [SendAccept 1000; SendAccept 1000] [RecvEOF].

Lemma call_after_peer_closed_witness :
  exists sk',
    _call "guest-ping" (PyDict []) (connected_to hung_up)
    = (Raise AttributeError, upd 0 sk' (connected_to hung_up))
    /\ self_sock (upd 0 sk' (connected_to hung_up)) = Some 0%nat
    /\ wire sk' = [] ++ Utf8.encode (text_of (request "guest-ping" (PyDict [])))
    /\ on_recv sk' = [RecvEOF]
    /\ closed sk' = false /\ shutdown_calls sk' = 0%nat.
Proof.
  apply (call_after_peer_closed "guest-ping" (PyDict []) 0 (connected_to hung_up)
           (with_connected true hung_up)
           (text_of (request "guest-ping" (PyDict [])))
           [1000%nat] [SendAccept 1000] []).
  - reflexivity.
  - reflexivity.
  - vm_compute. reflexivity.
  - reflexivity.
  - repeat constructor.
  - apply Nat.leb_le. vm_compute. reflexivity.
  - reflexivity.
Defined.

(** The agent answers with 4097 bytes and more on one line. *)
Definition verbose_agent : pysocket :=
  listening [SendAccept 1000; SendAccept 1000]
            (arriving (repeat "a"%byte 4097)
             ++ arriving (reply (returning (PyDict [])) ++ newline) ++ []).

Lemma oversized_reply_desynchronises_witness :
  exists sk1,
    _call "guest-file-read" (PyDict [("handle", PyInt 3); ("count", PyInt 8192)])
          (connected_to verbose_agent)
    = (Raise AttributeError, upd 0 sk1 (connected_to verbose_agent))
    /\ self_sock (upd 0 sk1 (connected_to verbose_agent)) = Some 0%nat
    /\ closed sk1 = false
    /\ exists unsent,
        _call "guest-ping" (PyDict []) (upd 0 sk1 (connected_to verbose_agent))
        = (unmarshal (reply (returning (PyDict []))),
           upd 0 (with_on_recv []
                    (sent_on sk1 (Utf8.encode (text_of (request "guest-ping" (PyDict []))))
                             unsent))
               (connected_to verbose_agent)).
Proof.
  apply (oversized_reply_desynchronises
           "guest-file-read" "guest-ping"
           (PyDict [("handle", PyInt 3); ("count", PyInt 8192)]) (PyDict [])
           0 (connected_to verbose_agent) (with_connected true verbose_agent)
           (text_of (request "guest-file-read"
                             (PyDict [("handle", PyInt 3); ("count", PyInt 8192)])))
           (text_of (request "guest-ping" (PyDict [])))
           [] 1000%nat [1000%nat] []
           (repeat "a"%byte 4097) (reply (returning (PyDict []))) []).
  - reflexivity.
  - reflexivity.
  - vm_compute. reflexivity.
  - vm_compute. reflexivity.
  - reflexivity.
  - apply List.Forall_nil.
  - split; [apply Nat.ltb_lt | apply Nat.leb_le]; vm_compute; reflexivity.
  - repeat constructor.
  - apply Nat.leb_le. vm_compute. reflexivity.
  - reflexivity.
  - vm_compute. reflexivity.
  - vm_compute. reflexivity.
  - exact framed_reply_empty.
Defined.

End ClientProperties.

(** ** The handshake on lines that are not objects *)

Module HandshakeProperties.
Import Py Socket QemuGuestAgentClient WorldFacts SendFacts RecvFacts HandshakeFacts.
Import ConnectFacts Examples TransportProperties ClientProperties.

Section Handshake.
Context `{Json.Codec}.

(** A line the handshake reads and drops: an object as in [stale], or a
    list or a string. For a list or a string that holds ['return'],
    [resp_obj['return']] raises the [TypeError] the loop catches. *)
Definition discarded (seq : Z) (l : bytes) : Prop :=
  framed l /\
  exists v, parses_to l v /\
            match v with
            | PyDict d => match dict_get "return" d with
                          | None => True
                          | Some x => eq_int x seq = false
                          end
            | PyList _ | PyStr _ => True
            | _ => False
            end.

(** A line the handshake cannot go on from: text that is not JSON, or
    JSON that is no container, on which ['return' in resp_obj] raises. *)
Definition unreadable (l : bytes) (e : exn) : Prop :=
  framed l /\
  exists s, Utf8.decode (l ++ newline) = Ok s
            /\ ((e = ValueError /\ Json.loads s = Raise ValueError)
                \/ (e = TypeError
                    /\ exists v, Json.loads s = Ok v /\ contains "return" v = Raise TypeError)).

Section Loop.
Variables (r : nat) (w : world) (seq : Z).
Hypothesis r_valid : (r < length (heap w))%nat.

Lemma reset_conn_loop_discarded (fuel : nat) (l : bytes) (sk : pysocket)
      (rest : list recv_outcome) :
  on_recv sk = map RecvByte (l ++ newline) ++ rest ->
  discarded seq l ->
  reset_conn_loop (S fuel) (Some r) seq (upd r sk w)
  = reset_conn_loop fuel (Some r) seq (upd r (with_on_recv rest sk) w).
Proof.
  intros Hs [[Hfree Hlen] (v & (s & Hdec & Hload) & Hv)].
  rewrite reset_conn_loop_unfold. unfold bind at 1.
  rewrite (sock_recv_until_line r w r_valid l sk rest Hs Hfree Hlen).
  unfold bind at 1, lift, decode. rewrite Hdec.
  unfold bind at 1. rewrite Hload.
  unfold bind at 1, contains.
  destruct v as [| | | |t| |items|d]; try now destruct Hv.
  - destruct (str_in "return" t); reflexivity.
  - destruct (existsb _ items); reflexivity.
  - unfold dict_has. destruct (dict_get "return" d) as [x|] eqn:Hget; [| reflexivity].
    unfold bind at 1, try_except, bind, getitem, ret. rewrite Hget, Hv. reflexivity.
Qed.

Lemma reset_conn_loop_discards_all (lines : list bytes) :
  forall (fuel : nat) (sk : pysocket) (rest : list recv_outcome),
    on_recv sk = map RecvByte (stream lines) ++ rest ->
    Forall (discarded seq) lines ->
    reset_conn_loop (length lines + fuel) (Some r) seq (upd r sk w)
    = reset_conn_loop fuel (Some r) seq (upd r (with_on_recv rest sk) w).
Proof.
  induction lines as [|l lines IH]; intros fuel sk rest Hs Hall.
  - simpl in Hs. simpl. rewrite <- Hs. now rewrite with_on_recv_id.
  - inversion Hall as [|? ? Hl Hlines]; subst.
    change (stream (l :: lines)) with ((l ++ newline) ++ stream lines) in Hs.
    rewrite map_app, <- app_assoc in Hs.
    simpl length. simpl Nat.add.
    rewrite (reset_conn_loop_discarded _ l sk _ Hs Hl).
    rewrite (IH fuel (with_on_recv (map RecvByte (stream lines) ++ rest) sk) rest);
      [reflexivity | reflexivity | exact Hlines].
Qed.

Lemma reset_conn_loop_unreadable (fuel : nat) (l : bytes) (sk : pysocket)
      (rest : list recv_outcome) (e : exn) :
  on_recv sk = map RecvByte (l ++ newline) ++ rest ->
  unreadable l e ->
  reset_conn_loop (S fuel) (Some r) seq (upd r sk w)
  = (Raise e, upd r (with_on_recv rest sk) w).
Proof.
  intros Hs [[Hfree Hlen] (s & Hdec & Hwhy)].
  rewrite reset_conn_loop_unfold. unfold bind at 1.
  rewrite (sock_recv_until_line r w r_valid l sk rest Hs Hfree Hlen).
  unfold bind at 1, lift, decode. rewrite Hdec.
  unfold bind at 1.
  destruct Hwhy as [[-> Hload] | [-> (v & Hload & Hin)]]; rewrite Hload; [reflexivity|].
  unfold bind at 1. rewrite Hin. reflexivity.
Qed.

End Loop.

(** [_reset_conn] up to the loop: the request is sent whole. *)
Lemma reset_conn_sends (r : nat) (w : world) (sk : pysocket) (text : str)
      (ns : list nat) (n : nat) (tail : list send_outcome) :
  (r < length (heap w))%nat ->
  Json.dumps (HandshakeTheorems.sync_request w) = Ok text ->
  on_send sk = map SendAccept ns ++ SendAccept n :: tail ->
  Forall (fun n => 0 < n)%nat ns ->
  (sum_list ns < length (Utf8.encode text) <= sum_list ns + n)%nat ->
  _reset_conn (Some r) (upd r sk w)
  = reset_conn_loop (S (length (on_recv sk))) (Some r) (HandshakeTheorems.token w)
                    (upd r (sent_on sk (Utf8.encode text) tail) w).
Proof.
  intros L Htext Hs Hpos Hcap.
  unfold _reset_conn, bind at 1, time_time.
  change (now (upd r sk w)) with (now w).
  fold (HandshakeTheorems.token w). fold (HandshakeTheorems.sync_request w).
  unfold bind at 1, lift. rewrite Htext.
  unfold bind at 1, _sock_send.
  rewrite (sock_send_loop_exact r (Utf8.encode text) w L ns (length (Utf8.encode text)) 0 n
             sk tail Hs Hpos); [| lia | lia].
  rewrite drop_0.
  unfold bind at 1, recv_budget. rewrite heap_upd by exact L.
  reflexivity.
Qed.

(** X13. The handshake also discards lines that are JSON lists or
    strings, through the [TypeError] its loop catches when such a line
    holds ['return']: with any number of such lines and of stale objects
    before the answer, [_reset_conn] returns, and what is left to read
    is what followed the answer. *)
Theorem reset_conn_discards_containers
        (r : nat) (w : world) (sk : pysocket) (text : str)
        (ns : list nat) (n : nat) (tail : list send_outcome)
        (lines : list bytes) (answer : bytes) (rest : list recv_outcome) :
  heap w !! r = Some sk ->
  Json.dumps (HandshakeTheorems.sync_request w) = Ok text ->
  on_send sk = map SendAccept ns ++ SendAccept n :: tail ->
  Forall (fun n => 0 < n)%nat ns ->
  (sum_list ns < length (Utf8.encode text) <= sum_list ns + n)%nat ->
  on_recv sk = map RecvByte (stream lines ++ answer ++ newline) ++ rest ->
  Forall (discarded (HandshakeTheorems.token w)) lines ->
  matching (HandshakeTheorems.token w) answer ->
  _reset_conn (Some r) w
  = (Ok tt, upd r (with_on_recv rest (sent_on sk (Utf8.encode text) tail)) w).
Proof.
  intros Hsk Htext Hs Hpos Hcap Hrecv Hall Hmatch.
  pose proof (lookup_lt_Some _ _ _ Hsk) as L.
  rewrite <- (upd_id r sk w Hsk) at 1.
  rewrite (reset_conn_sends r w sk text ns n tail L Htext Hs Hpos Hcap).
  rewrite map_app, <- app_assoc in Hrecv.
  assert (length lines <= length (on_recv sk))%nat as Hfuel.
  { rewrite Hrecv, length_app, length_map. pose proof (length_stream lines). lia. }
  replace (S (length (on_recv sk)))
    with (length lines + S (length (on_recv sk) - length lines))%nat by lia.
  rewrite (reset_conn_loop_discards_all r w (HandshakeTheorems.token w) L lines _
             (sent_on sk (Utf8.encode text) tail)
             (map RecvByte (answer ++ newline) ++ rest) Hrecv Hall).
  now rewrite (reset_conn_loop_matching r w (HandshakeTheorems.token w) L _ answer _ rest).
Qed.

(** X14. A line in the handshake that is not JSON, or is JSON but no
    container ([null], a number): [json.loads] raises [ValueError], or
    ['return' in resp_obj] raises [TypeError], outside every handler. The
    first [_call] of a new client then ends in that exception with the
    socket open, connected and still in [self.sock], the command not
    sent, and the rest of the stream unread. *)
Theorem call_aborts_on_unreadable_line (command : str) (args : pyval) (w : world)
        (sync_text json_str : str) (ns : list nat) (n : nat) (tail : list send_outcome)
        (lines : list bytes) (bad : bytes) (rest : list recv_outcome) (e : exn) :
  self_sock w = None ->
  on_connect (next_socket w) = ConnectOk ->
  Json.dumps (HandshakeTheorems.sync_request w) = Ok sync_text ->
  Json.dumps (request command args) = Ok json_str ->
  on_send (next_socket w) = map SendAccept ns ++ SendAccept n :: tail ->
  Forall (fun n => 0 < n)%nat ns ->
  (sum_list ns < length (Utf8.encode sync_text) <= sum_list ns + n)%nat ->
  on_recv (next_socket w) = map RecvByte (stream lines ++ bad ++ newline) ++ rest ->
  Forall (discarded (HandshakeTheorems.token w)) lines ->
  unreadable bad e ->
  exists sk',
    _call command args w = (Raise e, upd (length (heap w)) sk' (with_new_socket w))
    /\ self_sock (upd (length (heap w)) sk' (with_new_socket w)) = Some (length (heap w))
    /\ wire sk' = wire (next_socket w) ++ Utf8.encode sync_text
    /\ on_send sk' = tail /\ on_recv sk' = rest
    /\ connected sk' = true
    /\ closed sk' = closed (next_socket w)
    /\ shutdown_calls sk' = shutdown_calls (next_socket w).
Proof.
  intros Hself Hc Hsync Hd Hs Hpos Hcap Hrecv Hall Hbad.
  set (r := length (heap w)). set (W := with_new_socket w).
  pose proof (new_socket_valid w) as L. fold r W in L.
  exists (with_on_recv rest (sent_on (with_connected true (next_socket w))
                                     (Utf8.encode sync_text) tail)).
  split; [| repeat split].
  rewrite call_unfold, Hd, make_connection_unfold, Hself, connect_unfold.
  unfold try_except. fold W. unfold W at 1. rewrite (connect_returns w Hc). fold r W.
  rewrite (reset_conn_sends r W (with_connected true (next_socket w)) sync_text ns n tail
             L Hsync Hs Hpos Hcap).
  change (on_recv (with_connected true (next_socket w))) with (on_recv (next_socket w)).
  change (HandshakeTheorems.token W) with (HandshakeTheorems.token w).
  rewrite map_app, <- app_assoc in Hrecv.
  assert (length lines <= length (on_recv (next_socket w)))%nat as Hfuel.
  { rewrite Hrecv, length_app, length_map. pose proof (length_stream lines). lia. }
  replace (S (length (on_recv (next_socket w))))
    with (length lines + S (length (on_recv (next_socket w)) - length lines))%nat by lia.
  rewrite (reset_conn_loop_discards_all r W (HandshakeTheorems.token w) L lines _
             (sent_on (with_connected true (next_socket w)) (Utf8.encode sync_text) tail)
             (map RecvByte (bad ++ newline) ++ rest) Hrecv Hall).
  rewrite (reset_conn_loop_unreadable r W (HandshakeTheorems.token w) L _ bad _ rest e);
    [| reflexivity | exact Hbad].
  simpl fst; simpl snd.
  destruct Hbad as [_ (s & _ & [[-> _] | [-> _]])]; reflexivity.
Qed.

End Handshake.

Import Json.

(** A list and a string that hold ['return'] are buffered before the
    answer to the handshake. *)
Definition chatty_agent : pysocket :=
  listening [SendAccept 10; SendAccept 1000]
            (arriving (stream [reply (PyList [PyStr "return"]); reply (PyStr "return")]
                       ++ reply (returning (PyInt 1700000000)) ++ newline)
             ++ arriving (b "next")).

Lemma discarded_list :
  discarded (HandshakeTheorems.token (connected_to chatty_agent))
            (reply (PyList [PyStr "return"])).
Proof.
  split; [split; [vm_compute; reflexivity | apply Nat.leb_le; vm_compute; reflexivity]|].
  exists (PyList [PyStr "return"]). split; [| exact I].
  exists (string_of_list_byte (reply (PyList [PyStr "return"]) ++ newline)).
  split; vm_compute; reflexivity.
Qed.

Lemma discarded_string :
  discarded (HandshakeTheorems.token (connected_to chatty_agent))
            (reply (PyStr "return")).
Proof.
  split; [split; [vm_compute; reflexivity | apply Nat.leb_le; vm_compute; reflexivity]|].
  exists (PyStr "return"). split; [| exact I].
  exists (string_of_list_byte (reply (PyStr "return") ++ newline)).
  split; vm_compute; reflexivity.
Qed.

Lemma matching_answer :
  matching (HandshakeTheorems.token (connected_to chatty_agent))
           (reply (returning (PyInt 1700000000))).
Proof.
  split; [split; [vm_compute; reflexivity | apply Nat.leb_le; vm_compute; reflexivity]|].
  exists [("return", PyInt 1700000000)], (PyInt 1700000000).
  split; [| split; vm_compute; reflexivity].
  exists (string_of_list_byte (reply (returning (PyInt 1700000000)) ++ newline)).
  split; vm_compute; reflexivity.
Qed.

Lemma reset_conn_discards_containers_witness :
  _reset_conn (Some 0%nat) (connected_to chatty_agent)
  = (Ok tt,
     upd 0 (with_on_recv (arriving (b "next"))
              (sent_on (with_connected true chatty_agent)
                       (Utf8.encode
                          (text_of (HandshakeTheorems.sync_request
                                      (connected_to chatty_agent))))
                       []))
         (connected_to chatty_agent)).
Proof.
  apply (reset_conn_discards_containers 0 (connected_to chatty_agent)
           (with_connected true chatty_agent)
           (text_of (HandshakeTheorems.sync_request (connected_to chatty_agent)))
           [10%nat] 1000%nat []
           [reply (PyList [PyStr "return"]); reply (PyStr "return")]
           (reply (returning (PyInt 1700000000)))
           (arriving (b "next"))).
  - reflexivity.
  - vm_compute. reflexivity.
  - reflexivity.
  - repeat constructor.
  - split; [apply Nat.ltb_lt | apply Nat.leb_le]; vm_compute; reflexivity.
  - reflexivity.
  - apply List.Forall_cons; [exact discarded_list |].
    apply List.Forall_cons; [exact discarded_string | apply List.Forall_nil].
  - exact matching_answer.
Defined.

(** A bare number is buffered where the answer to the handshake should
    come. *)
Definition confused_agent : pysocket :=
  listening [SendAccept 1000]
            (arriving (stream [] ++ reply (PyInt 5) ++ newline)
             ++ arriving (reply (returning (PyInt 1700000000)) ++ newline)).

Lemma unreadable_number : unreadable (reply (PyInt 5)) TypeError.
Proof.
  split; [split; [vm_compute; reflexivity | apply Nat.leb_le; vm_compute; reflexivity]|].
  exists (string_of_list_byte (reply (PyInt 5) ++ newline)).
  split; [vm_compute; reflexivity|]. right. split; [reflexivity|].
  exists (PyInt 5). split; vm_compute; reflexivity.
Qed.

Lemma call_aborts_on_unreadable_line_witness :
  exists sk',
    _call "guest-ping" (PyDict []) (disconnected confused_agent)
    = (Raise TypeError, upd 0 sk' (with_new_socket (disconnected confused_agent)))
    /\ self_sock (upd 0 sk' (with_new_socket (disconnected confused_agent))) = Some 0%nat
    /\ wire sk'
       = [] ++ Utf8.encode (text_of (HandshakeTheorems.sync_request
                                       (disconnected confused_agent)))
    /\ on_send sk' = []
    /\ on_recv sk' = arriving (reply (returning (PyInt 1700000000)) ++ newline)
    /\ connected sk' = true
    /\ closed sk' = false
    /\ shutdown_calls sk' = 0%nat.
Proof.
  apply (call_aborts_on_unreadable_line "guest-ping" (PyDict []) (disconnected confused_agent)
           (text_of (HandshakeTheorems.sync_request (disconnected confused_agent)))
           (text_of (request "guest-ping" (PyDict [])))
           [] 1000%nat [] [] (reply (PyInt 5))
           (arriving (reply (returning (PyInt 1700000000)) ++ newline)) TypeError).
  - reflexivity.
  - reflexivity.
  - vm_compute. reflexivity.
  - vm_compute. reflexivity.
  - reflexivity.
  - apply List.Forall_nil.
  - split; [apply Nat.ltb_lt | apply Nat.leb_le]; vm_compute; reflexivity.
  - reflexivity.
  - apply List.Forall_nil.
  - exact unreadable_number.
Defined.

End HandshakeProperties.

(** ** Teardown on transport faults, and the call after *)

Module ReconnectTheorems.
Import Py Socket QemuGuestAgentClient WorldFacts SendFacts RecvFacts HandshakeFacts.
Import TeardownFacts CallFacts ConnectFacts Examples TransportProperties ClientProperties.
Import HandshakeProperties.



Section Client.
Context `{Json.Codec}.






End Client.

Import Json.












End ReconnectTheorems.

(** ** Unmarshalling, the API and the libvirt client *)

Module ApiProperties.
Import Py Socket QemuGuestAgentClient Examples.

Section Client.
Context `{Json.Codec}.

(** X15. A reply that is JSON but not an object never makes a
    Response: [QemuAgentRet.__init__] raises [TypeError] for [null], a
    number, a string, a list (also for a list or a string that holds
    ["error"]), and the [ValueError] of [json.loads] for a text that is
    not JSON. *)
Theorem QemuAgentRet_needs_an_object :
  (forall (text : str) (v : pyval),
      Json.loads text = Ok v ->
      (forall d, v <> PyDict d) ->
      QemuAgentRet_init text = Raise TypeError)
  /\ (forall (text : str) (e : exn),
         Json.loads text = Raise e ->
         e = ValueError /\ QemuAgentRet_init text = Raise ValueError).
Proof.
  split.
  - intros text v Hl Hnd. unfold QemuAgentRet_init. rewrite Hl.
    destruct v as [| | | |s| |l|d]; try reflexivity.
    + unfold contains. now destruct (str_in "error" s).
    + unfold contains. now destruct (existsb _ l).
    + now destruct (Hnd d).
  - intros text e. unfold QemuAgentRet_init, Json.loads.
    destruct (Json.decoder text); [discriminate|]. intros [= <-]. now split.
Qed.

(** X16. A libvirt client relays: made for the guest [guest], it has
    looked up [qemuAgentCommand] once, and a call hands that guest's
    uuid and the marshalled request to [qemuAgentCommand], once. The
    result is the answer unmarshalled; an exception of the hypervisor
    comes out as it is. *)
Theorem Libvirt_client_relays (guest command : str) (args : pyval) (h h1 : hypervisor)
        (self : LibvirtClient) (text : str) :
  Libvirt_init guest h = (Ok self, h1) ->
  Json.dumps (request command args) = Ok text ->
  exists f,
    qemuAgentCommand h = Some f
    /\ Libvirt_call self command args h1
       = (match f (events h ++ [Probe]) guest text with
          | Ok response => QemuAgentRet_init response
          | Raise e => Raise e
          end,
          {| qemuAgentCommand := Some f; missing := missing h;
             events := events h ++ [Probe; Command guest text] |}).
Proof.
  intros Hi Hd. unfold Libvirt_init, bind, try_except in Hi.
  destruct (qemuAgentCommand h) as [f|] eqn:Hq.
  - simpl in Hi. injection Hi as <- <-. exists f. split; [reflexivity|].
    unfold Libvirt_call, bind at 1, lift. rewrite Hd.
    unfold bind at 1. simpl. rewrite Hq.
    unfold record_event. simpl. rewrite Hq, <- app_assoc. simpl.
    destruct (f (events h ++ [Probe]) guest text) as [response|e]; [| reflexivity].
    unfold lift. now destruct (QemuAgentRet_init response).
  - simpl in Hi. destruct (missing h); discriminate Hi.
Qed.

End Client.

Section API.
Context {S : Type} (client_call : str -> pyval -> M S QemuAgentRet).

(** X17. [file_read] when the payload has no buffer. It makes the one
    call; an exception of the call comes out as it is; a Response whose
    [data] is false ([None], an empty object) is returned as it is; an
    object without ['buf-b64'] raises [KeyError]; a payload that is not
    an object raises [TypeError]. *)
Theorem file_read_without_buffer (handle count : pyval) (st st' : S) :
  (forall e,
      client_call "guest-file-read" (PyDict [("handle", handle); ("count", count)]) st
      = (Raise e, st') ->
      file_read client_call handle count st = (Raise e, st'))
  /\ (forall r,
         client_call "guest-file-read" (PyDict [("handle", handle); ("count", count)]) st
         = (Ok r, st') ->
         (truthy (data r) = false -> file_read client_call handle count st = (Ok r, st'))
         /\ (forall d, data r = PyDict d -> d <> [] -> dict_get "buf-b64" d = None ->
                       file_read client_call handle count st = (Raise KeyError, st'))
         /\ (truthy (data r) = true -> (forall d, data r <> PyDict d) ->
             file_read client_call handle count st = (Raise TypeError, st'))).
Proof.
  split.
  - intros e Hc. unfold file_read, bind. now rewrite Hc.
  - intros r Hc. split; [| split].
    + intros Hf. unfold file_read, bind. now rewrite Hc, Hf.
    + intros d Hd Hne Hb. unfold file_read, bind. rewrite Hc, Hd.
      destruct d as [|p d]; [now destruct Hne|]. simpl truthy. cbv iota.
      unfold lift, getitem. now rewrite Hb.
    + intros Ht Hnd. unfold file_read, bind. rewrite Hc, Ht.
      unfold lift, getitem. destruct (data r) as [| | | | | | |d]; try reflexivity.
      now destruct (Hnd d).
Qed.

End API.

Import Json.

Lemma QemuAgentRet_needs_an_object_witness :
  QemuAgentRet_init (text_of (PyList [PyStr "error"])) = Raise TypeError
  /\ (ValueError = ValueError /\ QemuAgentRet_init "{" = Raise ValueError).
Proof.
  split.
  - apply (proj1 QemuAgentRet_needs_an_object (text_of (PyList [PyStr "error"]))
             (PyList [PyStr "error"])).
    + vm_compute. reflexivity.
    + discriminate.
  - apply (proj2 QemuAgentRet_needs_an_object "{" ValueError).
    vm_compute. reflexivity.
Defined.

(** A hypervisor interface that answers every command with
    [{"return": {}}]. *)
Definition obliging : hypervisor :=
  {| qemuAgentCommand := Some (fun _ _ _ => Ok (text_of (returning (PyDict []))));
     missing := AttributeError; events := [] |}.

Lemma Libvirt_client_relays_witness :
  exists f,
    qemuAgentCommand obliging = Some f
    /\ Libvirt_call {| uuid := "guest-1" |} "guest-ping" (PyDict []) (record_event Probe obliging)
       = (match f ([] ++ [Probe]) "guest-1" (text_of (request "guest-ping" (PyDict []))) with
          | Ok response => QemuAgentRet_init response
          | Raise e => Raise e
          end,
          {| qemuAgentCommand := Some f; missing := AttributeError;
             events := [] ++ [Probe; Command "guest-1"
                                             (text_of (request "guest-ping" (PyDict [])))] |}).
Proof.
  apply (Libvirt_client_relays "guest-1" "guest-ping" (PyDict []) obliging
           (record_event Probe obliging) {| uuid := "guest-1" |}
           (text_of (request "guest-ping" (PyDict [])))).
  - reflexivity.
  - vm_compute. reflexivity.
Defined.

(** A client whose call returns the Response [r] and counts the calls. *)
Definition answering (r : QemuAgentRet) : str -> pyval -> M nat QemuAgentRet :=
  fun _ _ n => (Ok r, S n).

Lemma file_read_without_buffer_witness :
  file_read (answering {| error := PyNone; data := PyDict [] |}) (PyInt 3) (PyInt 10) 0%nat
  = (Ok {| error := PyNone; data := PyDict [] |}, 1%nat)
  /\ file_read (answering {| error := PyNone; data := PyDict [("count", PyInt 0)] |})
               (PyInt 3) (PyInt 10) 0%nat
     = (Raise KeyError, 1%nat)
  /\ file_read (answering {| error := PyNone; data := PyInt 5 |}) (PyInt 3) (PyInt 10) 0%nat
     = (Raise TypeError, 1%nat).
Proof.
  split; [| split].
  - apply (proj1 (proj2 (file_read_without_buffer
                           (answering {| error := PyNone; data := PyDict [] |})
                           (PyInt 3) (PyInt 10) 0%nat 1%nat)
                        {| error := PyNone; data := PyDict [] |} eq_refl)).
    reflexivity.
  - apply (proj1 (proj2 (proj2 (file_read_without_buffer
                                  (answering {| error := PyNone;
                                                data := PyDict [("count", PyInt 0)] |})
                                  (PyInt 3) (PyInt 10) 0%nat 1%nat)
                               {| error := PyNone; data := PyDict [("count", PyInt 0)] |}
                               eq_refl))
             [("count", PyInt 0)]).
    + reflexivity.
    + discriminate.
    + reflexivity.
  - apply (proj2 (proj2 (proj2 (file_read_without_buffer
                                  (answering {| error := PyNone; data := PyInt 5 |})
                                  (PyInt 3) (PyInt 10) 0%nat 1%nat)
                               {| error := PyNone; data := PyInt 5 |} eq_refl))).
    + reflexivity.
    + discriminate.
Defined.

End ApiProperties.

(** ** The host collectors: what they compute and how they fail *)

Module MemoryProperties.
Import Py Collector.

(** [HostMemory.__init__]: the two files are open and no counter has
    been read yet. *)
Definition init (meminfo_text vmstat_text : string) : HostMemory.self :=
  {| HostMemory.meminfo := meminfo_text; HostMemory.vmstat := vmstat_text;
     HostMemory.swap_in_prev := None; HostMemory.swap_in_cur := None;
     HostMemory.swap_out_prev := None; HostMemory.swap_out_cur := None |}.

(** The files hold something else at the next read. *)
Definition reread (meminfo_text vmstat_text : string) (s : HostMemory.self)
  : HostMemory.self :=
  {| HostMemory.meminfo := meminfo_text; HostMemory.vmstat := vmstat_text;
     HostMemory.swap_in_prev := HostMemory.swap_in_prev s;
     HostMemory.swap_in_cur := HostMemory.swap_in_cur s;
     HostMemory.swap_out_prev := HostMemory.swap_out_prev s;
     HostMemory.swap_out_cur := HostMemory.swap_out_cur s |}.

(** The swap counters after a read of [pswpin] and [pswpout]. *)
Definition counted (pswpin pswpout : Z) (s : HostMemory.self) : HostMemory.self :=
  HostMemory.with_swap_out (Some (default pswpout (HostMemory.swap_out_cur s))) (Some pswpout)
    (HostMemory.with_swap_in (Some (default pswpin (HostMemory.swap_in_cur s))) (Some pswpin) s).

Section Collect.
Variable parse_int : string -> string -> result value.

(** What [/proc/meminfo] and [/proc/vmstat] hold for [parse_int]. *)
Record reading : Type := {
  mem_total : value; anon_pages : value;
  mem_free : Z; buffers : Z; cached : Z;
  swap_total : Z; swap_free : Z;
  pswpin : Z; pswpout : Z
}.

Definition reads (s : HostMemory.self) (v : reading) : Prop :=
  parse_int "^MemTotal: (.*) kB" (HostMemory.meminfo s) = Ok (mem_total v)
  /\ parse_int "^AnonPages: (.*) kB" (HostMemory.meminfo s) = Ok (anon_pages v)
  /\ parse_int "^MemFree: (.*) kB" (HostMemory.meminfo s) = Ok (Some (mem_free v))
  /\ parse_int "^Buffers: (.*) kB" (HostMemory.meminfo s) = Ok (Some (buffers v))
  /\ parse_int "^Cached: (.*) kB" (HostMemory.meminfo s) = Ok (Some (cached v))
  /\ parse_int "^SwapTotal: (.*) kB" (HostMemory.meminfo s) = Ok (Some (swap_total v))
  /\ parse_int "^SwapFree: (.*) kB" (HostMemory.meminfo s) = Ok (Some (swap_free v))
  /\ parse_int "^pswpin (.*)" (HostMemory.vmstat s) = Ok (Some (pswpin v))
  /\ parse_int "^pswpout (.*)" (HostMemory.vmstat s) = Ok (Some (pswpout v)).

(** The mapping [collect] builds from a reading. *)
Definition report (s : HostMemory.self) (v : reading) : gmap string value :=
  <["swap_usage" := Some (swap_total v - swap_free v)]>
  (<["swap_total" := Some (swap_total v)]>
   (<["anon_pages" := anon_pages v]>
    (<["swap_out" := Some (pswpout v - default (pswpout v) (HostMemory.swap_out_cur s))]>
     (<["swap_in" := Some (pswpin v - default (pswpin v) (HostMemory.swap_in_cur s))]>
      (<["mem_free" := Some (mem_free v + buffers v + cached v)]>
       (<["mem_unused" := Some (mem_free v)]>
        (<["mem_available" := mem_total v]> ∅))))))).

Lemma collect_run (s : HostMemory.self) (v : reading) :
  reads s v ->
  HostMemory.collect parse_int s = (Ok (report s v), counted (pswpin v) (pswpout v) s).
Proof.
  intros (H1 & H2 & H3 & H4 & H5 & H6 & H7 & H8 & H9).
  unfold HostMemory.collect, bind, get, lift, HostMemory.modify, ret. cbv beta.
  rewrite H1, H2, H3, H4, H5, H6, H7. simpl. rewrite H8, H9. simpl.
  unfold report, counted.
  destruct (HostMemory.swap_in_cur s) as [a|], (HostMemory.swap_out_cur s) as [c|];
    simpl; reflexivity.
Qed.

(** X18. [HostMemory.collect] on files that hold every field: it
    returns, [mem_free] is [MemFree + Buffers + Cached], [swap_usage] is
    [SwapTotal - SwapFree], the other meminfo values are as parsed
    ([mem_available] and [anon_pages] may be [None]), [swap_in] and
    [swap_out] are the counters minus their value at the collect before
    (minus themselves at the first collect), and the counters read are
    kept for the next collect. *)
Theorem collect_reports_reading (s : HostMemory.self) (v : reading) :
  reads s v ->
  exists data s',
    HostMemory.collect parse_int s = (Ok data, s')
    /\ data !! "mem_available" = Some (mem_total v)
    /\ data !! "anon_pages" = Some (anon_pages v)
    /\ data !! "mem_unused" = Some (Some (mem_free v))
    /\ data !! "mem_free" = Some (Some (mem_free v + buffers v + cached v))
    /\ data !! "swap_total" = Some (Some (swap_total v))
    /\ data !! "swap_usage" = Some (Some (swap_total v - swap_free v))
    /\ data !! "swap_in"
       = Some (Some (pswpin v - default (pswpin v) (HostMemory.swap_in_cur s)))
    /\ data !! "swap_out"
       = Some (Some (pswpout v - default (pswpout v) (HostMemory.swap_out_cur s)))
    /\ HostMemory.swap_in_cur s' = Some (pswpin v)
    /\ HostMemory.swap_out_cur s' = Some (pswpout v).
Proof.
  intros Hr. exists (report s v), (counted (pswpin v) (pswpout v) s).
  split; [now apply collect_run|].
  unfold report. repeat split; reflexivity.
Qed.

(** X19. Two collects of a new [HostMemory]: the first reports
    [swap_in = swap_out = 0] whatever the counters of [/proc/vmstat]
    are; the second reports how much the counters have grown since the
    first. *)
Theorem swap_is_counted_between_collects (meminfo1 vmstat1 : string) (v1 : reading) :
  reads (init meminfo1 vmstat1) v1 ->
  exists data1 s1,
    HostMemory.collect parse_int (init meminfo1 vmstat1) = (Ok data1, s1)
    /\ data1 !! "swap_in" = Some (Some 0)
    /\ data1 !! "swap_out" = Some (Some 0)
    /\ forall (meminfo2 vmstat2 : string) (v2 : reading),
        reads (reread meminfo2 vmstat2 s1) v2 ->
        exists data2 s2,
          HostMemory.collect parse_int (reread meminfo2 vmstat2 s1) = (Ok data2, s2)
          /\ data2 !! "swap_in" = Some (Some (pswpin v2 - pswpin v1))
          /\ data2 !! "swap_out" = Some (Some (pswpout v2 - pswpout v1)).
Proof.
  intros Hr1.
  exists (report (init meminfo1 vmstat1) v1),
         (counted (pswpin v1) (pswpout v1) (init meminfo1 vmstat1)).
  split; [now apply collect_run|]. split; [| split].
  - unfold report. simpl. rewrite !Z.sub_diag. reflexivity.
  - unfold report. simpl. rewrite !Z.sub_diag. reflexivity.
  - intros meminfo2 vmstat2 v2 Hr2.
    exists (report (reread meminfo2 vmstat2
                      (counted (pswpin v1) (pswpout v1) (init meminfo1 vmstat1))) v2),
           (counted (pswpin v2) (pswpout v2)
              (reread meminfo2 vmstat2
                 (counted (pswpin v1) (pswpout v1) (init meminfo1 vmstat1)))).
    split; [now apply collect_run|]. split; reflexivity.
Qed.

(** X20. A [collect] that fails. When [MemFree], [Buffers] or [Cached]
    is missing in [/proc/meminfo], the sum raises [TypeError] before
    the swap counters are touched: the collector is as it was. When only
    [SwapFree] is missing, [TypeError] comes after the counters of
    [/proc/vmstat] have been taken over: the next collect counts from
    the one that failed. *)
Theorem collect_failures (s : HostMemory.self) :
  (forall (avail anon unused buffers cached : value),
      parse_int "^MemTotal: (.*) kB" (HostMemory.meminfo s) = Ok avail ->
      parse_int "^AnonPages: (.*) kB" (HostMemory.meminfo s) = Ok anon ->
      parse_int "^MemFree: (.*) kB" (HostMemory.meminfo s) = Ok unused ->
      parse_int "^Buffers: (.*) kB" (HostMemory.meminfo s) = Ok buffers ->
      parse_int "^Cached: (.*) kB" (HostMemory.meminfo s) = Ok cached ->
      unused = None \/ buffers = None \/ cached = None ->
      HostMemory.collect parse_int s = (Raise TypeError, s))
  /\ (forall (avail anon : value) (unused buffers cached total i o : Z),
         parse_int "^MemTotal: (.*) kB" (HostMemory.meminfo s) = Ok avail ->
         parse_int "^AnonPages: (.*) kB" (HostMemory.meminfo s) = Ok anon ->
         parse_int "^MemFree: (.*) kB" (HostMemory.meminfo s) = Ok (Some unused) ->
         parse_int "^Buffers: (.*) kB" (HostMemory.meminfo s) = Ok (Some buffers) ->
         parse_int "^Cached: (.*) kB" (HostMemory.meminfo s) = Ok (Some cached) ->
         parse_int "^SwapTotal: (.*) kB" (HostMemory.meminfo s) = Ok (Some total) ->
         parse_int "^SwapFree: (.*) kB" (HostMemory.meminfo s) = Ok None ->
         parse_int "^pswpin (.*)" (HostMemory.vmstat s) = Ok (Some i) ->
         parse_int "^pswpout (.*)" (HostMemory.vmstat s) = Ok (Some o) ->
         HostMemory.collect parse_int s = (Raise TypeError, counted i o s)).
Proof.
  split.
  - intros avail anon unused buffers cached H1 H2 H3 H4 H5 Hnone.
    unfold HostMemory.collect, bind, get, lift. cbv beta.
    rewrite H1, H2, H3, H4, H5.
    destruct unused as [u|]; [| reflexivity].
    destruct buffers as [bf|]; [| reflexivity].
    destruct cached as [c|]; [| reflexivity].
    destruct Hnone as [Hn | [Hn | Hn]]; discriminate Hn.
  - intros avail anon unused buffers cached total i o H1 H2 H3 H4 H5 H6 H7 H8 H9.
    unfold HostMemory.collect, bind, get, lift, HostMemory.modify, ret. cbv beta.
    rewrite H1, H2, H3, H4, H5, H6, H7. simpl. rewrite H8, H9. simpl.
    unfold counted.
    destruct (HostMemory.swap_in_cur s) as [a|], (HostMemory.swap_out_cur s) as [c|];
      simpl; reflexivity.
Qed.

End Collect.

Import CollectorExamples.

Definition sample_reading : reading :=
  {| mem_total := Some 16384; anon_pages := Some 1024;
     mem_free := 4096; buffers := 512; cached := 2048;
     swap_total := 8192; swap_free := 8000; pswpin := 10; pswpout := 25 |}.

Lemma reads_sample : reads sample_parse_int sample_memory sample_reading.
Proof. repeat split; vm_compute; reflexivity. Qed.

Lemma collect_reports_reading_witness :
  exists data s',
    HostMemory.collect sample_parse_int sample_memory = (Ok data, s')
    /\ data !! "mem_available" = Some (Some 16384)
    /\ data !! "anon_pages" = Some (Some 1024)
    /\ data !! "mem_unused" = Some (Some 4096)
    /\ data !! "mem_free" = Some (Some (4096 + 512 + 2048))
    /\ data !! "swap_total" = Some (Some 8192)
    /\ data !! "swap_usage" = Some (Some (8192 - 8000))
    /\ data !! "swap_in" = Some (Some (10 - 10))
    /\ data !! "swap_out" = Some (Some (25 - 25))
    /\ HostMemory.swap_in_cur s' = Some 10
    /\ HostMemory.swap_out_cur s' = Some 25.
Proof.
  apply (collect_reports_reading sample_parse_int sample_memory sample_reading).
  exact reads_sample.
Defined.

(** [/proc/vmstat] some time later. *)
Definition later_vmstat : string :=
  "pswpin 14" +:+ nl +:+ "pswpout 40" +:+ nl.

Definition later_reading : reading :=
  {| mem_total := Some 16384; anon_pages := Some 1024;
     mem_free := 4096; buffers := 512; cached := 2048;
     swap_total := 8192; swap_free := 8000; pswpin := 14; pswpout := 40 |}.

Lemma swap_is_counted_between_collects_witness :
  exists data1 s1,
    HostMemory.collect sample_parse_int (init sample_meminfo sample_vmstat) = (Ok data1, s1)
    /\ data1 !! "swap_in" = Some (Some 0)
    /\ data1 !! "swap_out" = Some (Some 0)
    /\ exists data2 s2,
        HostMemory.collect sample_parse_int (reread sample_meminfo later_vmstat s1)
        = (Ok data2, s2)
        /\ data2 !! "swap_in" = Some (Some (14 - 10))
        /\ data2 !! "swap_out" = Some (Some (40 - 25)).
Proof.
  destruct (swap_is_counted_between_collects sample_parse_int sample_meminfo sample_vmstat
              sample_reading reads_sample) as (data1 & s1 & Hc & Hi & Ho & Hnext).
  exists data1, s1. split; [exact Hc|]. split; [exact Hi|]. split; [exact Ho|].
  apply (Hnext sample_meminfo later_vmstat later_reading).
  repeat split; vm_compute; reflexivity.
Defined.

(** [/proc/meminfo] without the line of [Buffers], and without the
    line of [SwapFree]. *)
Definition meminfo_without_buffers : string :=
  "MemTotal: 16384 kB" +:+ nl +:+ "MemFree: 4096 kB" +:+ nl +:+
  "Cached: 2048 kB" +:+ nl +:+
  "SwapTotal: 8192 kB" +:+ nl +:+ "SwapFree: 8000 kB" +:+ nl +:+
  "AnonPages: 1024 kB" +:+ nl.

Definition meminfo_without_swapfree : string :=
  "MemTotal: 16384 kB" +:+ nl +:+ "MemFree: 4096 kB" +:+ nl +:+
  "Buffers: 512 kB" +:+ nl +:+ "Cached: 2048 kB" +:+ nl +:+
  "SwapTotal: 8192 kB" +:+ nl +:+ "AnonPages: 1024 kB" +:+ nl.

Lemma collect_failures_witness :
  HostMemory.collect sample_parse_int (init meminfo_without_buffers sample_vmstat)
  = (Raise TypeError, init meminfo_without_buffers sample_vmstat)
  /\ HostMemory.collect sample_parse_int (init meminfo_without_swapfree sample_vmstat)
     = (Raise TypeError, counted 10 25 (init meminfo_without_swapfree sample_vmstat)).
Proof.
  split.
  - apply (proj1 (collect_failures sample_parse_int
                    (init meminfo_without_buffers sample_vmstat))
             (Some 16384) (Some 1024) (Some 4096) None (Some 2048));
      try (vm_compute; reflexivity).
    right. left. reflexivity.
  - apply (proj2 (collect_failures sample_parse_int
                    (init meminfo_without_swapfree sample_vmstat))
             (Some 16384) (Some 1024) 4096 512 2048 8192 10 25);
      vm_compute; reflexivity.
Defined.

End MemoryProperties.

Module KsmProperties.
Import Py Collector CollectorFacts.

(** The file of a key of [sysfs_keys]. *)
Definition path (datum : string) : string := "/sys/kernel/mm/ksm/" +:+ datum.

(** [self.files] after [open_files]. *)
Definition opened : list (string * string) :=
  map (fun datum => (datum, path datum)) HostKSM.sysfs_keys.

Lemma NoDup_sysfs_keys : NoDup HostKSM.sysfs_keys.
Proof. apply (bool_decide_unpack _). vm_compute. exact I. Qed.

Lemma files_set_fresh (datum f : string) (d : list (string * string)) :
  ~ In datum (map fst d) -> HostKSM.files_set datum f d = d ++ [(datum, f)].
Proof.
  induction d as [|[k v] d IH]; simpl; intros Hnot; [reflexivity|].
  destruct (String.eqb k datum) eqn:E.
  - apply String.eqb_eq in E. tauto.
  - rewrite IH; [reflexivity | tauto].
Qed.

Lemma ksm_key_inj (a c : string) : "ksm_" +:+ a = "ksm_" +:+ c -> a = c.
Proof. intros Heq. cbv in Heq. now injection Heq. Qed.

Section KSM.
Variable h : HostKSM.host.

(** The loop of [open_files] stops at the first file that cannot be
    opened. *)
Lemma open_files_loop_stops (pre : list string) :
  forall (datum : string) (post : list string) (acc : list (string * string))
         (strerror : string),
    (forall k, In k pre -> HostKSM.open_error h ("/sys/kernel/mm/ksm/" +:+ k) = None) ->
    HostKSM.open_error h ("/sys/kernel/mm/ksm/" +:+ datum) = Some strerror ->
    HostKSM.open_files_loop h (pre ++ datum :: post) acc
    = Raise (FatalError ("HostKSM: open " +:+ ("/sys/kernel/mm/ksm/" +:+ datum)
                         +:+ " failed: " +:+ strerror)).
Proof.
  induction pre as [|k pre IH]; intros datum post acc strerror Hpre Hbad.
  - simpl app. cbn [HostKSM.open_files_loop]. now rewrite Hbad.
  - simpl app. cbn [HostKSM.open_files_loop].
    rewrite (Hpre k) by now left.
    apply IH; [| exact Hbad]. intros k' Hk'. apply Hpre. now right.
Qed.

(** When every file opens, the loop adds one entry per key. *)
Lemma open_files_loop_all (keys : list string) :
  forall acc : list (string * string),
    NoDup (map fst acc ++ keys) ->
    (forall k, In k keys -> HostKSM.open_error h ("/sys/kernel/mm/ksm/" +:+ k) = None) ->
    HostKSM.open_files_loop h keys acc
    = Ok (acc ++ map (fun datum => (datum, path datum)) keys).
Proof.
  induction keys as [|k keys IH]; intros acc Hnd Hopen.
  - simpl. now rewrite app_nil_r.
  - cbn [HostKSM.open_files_loop]. rewrite (Hopen k) by now left.
    assert (~ In k (map fst acc)) as Hfresh.
    { apply NoDup_app in Hnd as (_ & Hdisj & _). intros Hin.
      apply (Hdisj k); [now apply list_elem_of_In | left]. }
    rewrite (files_set_fresh k _ acc Hfresh).
    rewrite IH.
    + simpl. now rewrite <- app_assoc.
    + rewrite map_app. simpl. now rewrite <- app_assoc.
    + intros k' Hk'. apply Hopen. now right.
Qed.

Lemma open_files_opened :
  (forall k, In k HostKSM.sysfs_keys ->
             HostKSM.open_error h ("/sys/kernel/mm/ksm/" +:+ k) = None) ->
  HostKSM.open_files h = Ok opened.
Proof.
  intros Hopen. unfold HostKSM.open_files.
  rewrite open_files_loop_all; [reflexivity | exact NoDup_sysfs_keys | exact Hopen].
Qed.

(** X21. [HostKSM.__init__] when a file of [sysfs_keys] cannot be
    opened: it raises [FatalError] with the name and the error of the
    first such file in the order of [sysfs_keys], whatever [properties]
    holds and whether [ksmd] runs or not. *)
Theorem init_reports_first_unopenable (properties : gmap string Z)
        (pre : list string) (datum : string) (post : list string) (strerror : string) :
  HostKSM.sysfs_keys = pre ++ datum :: post ->
  (forall k, In k pre -> HostKSM.open_error h ("/sys/kernel/mm/ksm/" +:+ k) = None) ->
  HostKSM.open_error h ("/sys/kernel/mm/ksm/" +:+ datum) = Some strerror ->
  HostKSM.init h properties
  = Raise (FatalError ("HostKSM: open /sys/kernel/mm/ksm/" +:+ datum
                       +:+ " failed: " +:+ strerror)).
Proof.
  intros Hkeys Hpre Hbad. unfold HostKSM.init, HostKSM.open_files.
  rewrite Hkeys, (open_files_loop_stops pre datum post [] strerror Hpre Hbad).
  reflexivity.
Qed.

(** X22. [HostKSM.__init__] when every file opens: [self.files] has
    the nine keys in the order of [sysfs_keys], each with its file under
    [/sys/kernel/mm/ksm/]; without ['interval'] in [properties] it
    raises [KeyError]; with it, the pid of [ksmd] is looked up once and
    [last_jiff] starts at the jiffies [ksmd] has used so far. *)
Theorem init_opens_every_file (properties : gmap string Z) :
  (forall k, In k HostKSM.sysfs_keys ->
             HostKSM.open_error h ("/sys/kernel/mm/ksm/" +:+ k) = None) ->
  (properties !! "interval" = None -> HostKSM.init h properties = Raise KeyError)
  /\ (forall (i : Z) (p : option Z) (j : Z),
         properties !! "interval" = Some i ->
         HostKSM._get_ksmd_pid h = Ok p ->
         HostKSM.get_ksmd_jiffies h p = Ok j ->
         HostKSM.init h properties
         = Ok {| HostKSM.files := opened; HostKSM.interval := i;
                 HostKSM.pid := p; HostKSM.last_jiff := j |}).
Proof.
  intros Hopen. unfold HostKSM.init. rewrite (open_files_opened Hopen). split.
  - now intros ->.
  - intros i p j -> -> ->. reflexivity.
Qed.

Section Files.
Variable parse_int : string -> string -> result value.
Variable vals : string -> value.

(** The loop of [collect] on files that all parse: every key gets the
    value of its file, and no other entry changes. *)
Lemma collect_files_values (fs : list (string * string)) :
  forall data : gmap string value,
    NoDup (map fst fs) ->
    (forall k f, In (k, f) fs -> parse_int "(.*)" (HostKSM.read h f) = Ok (vals k)) ->
    exists data',
      HostKSM.collect_files parse_int h fs data = Ok data'
      /\ (forall k, In k (map fst fs) -> data' !! ("ksm_" +:+ k) = Some (vals k))
      /\ (forall key, (forall k, In k (map fst fs) -> key <> "ksm_" +:+ k) ->
                      data' !! key = data !! key).
Proof.
  induction fs as [|[datum file] fs IH]; intros data Hnd Hparse.
  - exists data. split; [reflexivity|]. split; [intros k [] | reflexivity].
  - simpl in Hnd. apply NoDup_cons in Hnd as [Hfresh Hnd].
    cbn [HostKSM.collect_files]. rewrite (Hparse datum file) by now left.
    destruct (IH (<["ksm_" +:+ datum := vals datum]> data) Hnd) as (data' & Hrun & Hin & Hout).
    { intros k f Hk. apply Hparse. now right. }
    exists data'. split; [exact Hrun|]. split.
    + intros k [<- | Hk].
      * simpl fst. rewrite Hout.
        -- apply lookup_insert_eq.
        -- intros k Hk Heq. apply ksm_key_inj in Heq as <-.
           apply Hfresh. now apply list_elem_of_In.
      * now apply Hin.
    + intros key Hkey. rewrite Hout.
      * apply lookup_insert_ne. intros Heq. apply (Hkey datum); [now left | now symmetry].
      * intros k Hk. apply Hkey. now right.
Qed.

(** X23. [HostKSM.collect] on a collector made by [__init__], when
    every file parses: the entry ['ksm_' + key] is the number read from
    the file of that key, for each of the nine keys, [ksm_shareable] is
    the answer of [get_shareable_mem] and [ksmd_cpu_usage] that of
    [get_ksmd_cpu_usage]. *)
Theorem collect_reports_files (s s' : HostKSM.self) (m u : value) :
  HostKSM.files s = opened ->
  (forall k, In k HostKSM.sysfs_keys ->
             parse_int "(.*)" (HostKSM.read h ("/sys/kernel/mm/ksm/" +:+ k)) = Ok (vals k)) ->
  HostKSM.get_shareable_mem h = Ok m ->
  HostKSM.get_ksmd_cpu_usage h s = (Ok u, s') ->
  exists data,
    HostKSM.collect parse_int h s = (Ok data, s')
    /\ (forall k, In k HostKSM.sysfs_keys -> data !! ("ksm_" +:+ k) = Some (vals k))
    /\ data !! "ksm_shareable" = Some m
    /\ data !! "ksmd_cpu_usage" = Some u.
Proof.
  intros Hfiles Hparse Hm Hu.
  assert (map fst opened = HostKSM.sysfs_keys) as Hkeys.
  { reflexivity. }
  destruct (collect_files_values opened ∅) as (d & Hrun & Hin & _).
  { rewrite Hkeys. exact NoDup_sysfs_keys. }
  { intros k f Hk. unfold opened in Hk. apply in_map_iff in Hk as (k' & [= <- <-] & Hk').
    now apply Hparse. }
  rewrite Hkeys in Hin.
  exists (<["ksmd_cpu_usage" := u]> (<["ksm_shareable" := m]> d)).
  split; [| split; [| split]].
  - unfold HostKSM.collect, bind at 1, get. unfold bind at 1, lift.
    rewrite Hfiles, Hrun. unfold bind at 1. rewrite Hm. unfold bind at 1. rewrite Hu.
    reflexivity.
  - intros k Hk.
    rewrite lookup_insert_ne by discriminate.
    rewrite lookup_insert_ne; [now apply Hin|].
    unfold HostKSM.sysfs_keys in Hk. simpl in Hk.
    intuition (subst; discriminate).
  - rewrite lookup_insert_ne by discriminate. apply lookup_insert_eq.
  - apply lookup_insert_eq.
Qed.

End Files.

(** X24. [get_ksmd_cpu_usage] with counters that fit 32 bits: the
    jiffies of the interval are the difference of the two readings, and
    the difference plus [2^32] when the counter has wrapped around; the
    usage is their percentage of [SC_CLK_TCK * interval], truncated, and
    is not negative; the reading is kept in [last_jiff]. *)
Theorem cpu_usage_wraps_around (s : HostKSM.self) (cur : Z) :
  HostKSM.get_ksmd_jiffies h (HostKSM.pid s) = Ok cur ->
  0 < HostKSM.clk_tck h * HostKSM.interval s ->
  0 <= HostKSM.last_jiff s < 2 ^ 32 ->
  0 <= cur < 2 ^ 32 ->
  exists u,
    HostKSM.get_ksmd_cpu_usage h s = (Ok (Some u), HostKSM.with_last_jiff cur s)
    /\ 0 <= u
    /\ u = Z.quot (100 * (if HostKSM.last_jiff s <=? cur
                          then cur - HostKSM.last_jiff s
                          else cur - HostKSM.last_jiff s + 2 ^ 32))
                  (HostKSM.clk_tck h * HostKSM.interval s).
Proof.
  intros Hj Htotal Hlast Hcur.
  unfold HostKSM.get_ksmd_cpu_usage, bind, get, lift, put, ret. cbv beta. rewrite Hj.
  simpl fst; simpl snd. cbv beta iota.
  destruct (HostKSM.clk_tck h * HostKSM.interval s =? 0) eqn:Hz;
    [apply Z.eqb_eq in Hz; lia|].
  eexists. split; [reflexivity|].
  assert ((cur - HostKSM.last_jiff s) mod 2 ^ 32
          = if HostKSM.last_jiff s <=? cur
            then cur - HostKSM.last_jiff s
            else cur - HostKSM.last_jiff s + 2 ^ 32) as ->.
  { change (2 ^ 32) with 4294967296 in *.
    destruct (HostKSM.last_jiff s <=? cur) eqn:Hle.
    - apply Z.leb_le in Hle. apply Z.mod_small. lia.
    - apply Z.leb_gt in Hle. symmetry.
      apply (Z.mod_unique_pos _ _ (-1)); lia. }
  split; [| reflexivity].
  apply Z.quot_pos; [| lia].
  change (2 ^ 32) with 4294967296 in *.
  destruct (HostKSM.last_jiff s <=? cur) eqn:Hle;
    [apply Z.leb_le in Hle | apply Z.leb_gt in Hle]; lia.
Qed.

(** X25. A collector whose [SC_CLK_TCK * interval] is zero:
    [get_ksmd_cpu_usage] raises [ZeroDivisionError], yet it has already
    taken the reading over into [last_jiff]; no [collect] of it ever
    returns. *)
Theorem zero_interval_never_collects (parse_int : string -> string -> result value)
        (s : HostKSM.self) :
  HostKSM.clk_tck h * HostKSM.interval s = 0 ->
  (forall cur, HostKSM.get_ksmd_jiffies h (HostKSM.pid s) = Ok cur ->
               HostKSM.get_ksmd_cpu_usage h s
               = (Raise ZeroDivisionError, HostKSM.with_last_jiff cur s))
  /\ exists e, fst (HostKSM.collect parse_int h s) = Raise e.
Proof.
  intros Hz.
  assert (forall cur, HostKSM.get_ksmd_jiffies h (HostKSM.pid s) = Ok cur ->
                      HostKSM.get_ksmd_cpu_usage h s
                      = (Raise ZeroDivisionError, HostKSM.with_last_jiff cur s)) as Hu.
  { intros cur Hj.
    unfold HostKSM.get_ksmd_cpu_usage, bind, get, lift, put, raise. cbv beta.
    rewrite Hj. simpl fst; simpl snd. cbv beta iota. now rewrite Hz. }
  split; [exact Hu|].
  unfold HostKSM.collect, bind at 1, get. unfold bind at 1, lift.
  destruct (HostKSM.collect_files parse_int h (HostKSM.files s) ∅) as [d|e]; [| simpl; eauto].
  unfold bind at 1.
  destruct (HostKSM.get_shareable_mem h) as [m|e]; [| simpl; eauto].
  unfold bind at 1.
  destruct (HostKSM.get_ksmd_jiffies h (HostKSM.pid s)) as [cur|e] eqn:Hj.
  - rewrite (Hu cur eq_refl). simpl. eauto.
  - unfold HostKSM.get_ksmd_cpu_usage, bind, get, lift. cbv beta. rewrite Hj. simpl. eauto.
Qed.

(** X26. [get_shareable_mem] and [pgrep]: when [pgrep] cannot be run,
    [CollectionError] is raised, and a [collect] fails with the
    collector as it was, the jiffies not read; when [pgrep] finds no
    process, the answer is [0] and [ps] is not asked. *)
Theorem shareable_mem_needs_pgrep (parse_int : string -> string -> result value) :
  (HostKSM.pgrep_qemu h = None ->
   HostKSM.get_shareable_mem h = Raise (CollectionError "HostKSM: Unable to execute pgrep")
   /\ forall s, exists e, HostKSM.collect parse_int h s = (Raise e, s))
  /\ (HostKSM.pgrep_qemu h = Some [] -> HostKSM.get_shareable_mem h = Ok (Some 0)).
Proof.
  split.
  - intros Hp. unfold HostKSM.get_shareable_mem. rewrite Hp. split; [reflexivity|].
    intros s. unfold HostKSM.collect, bind at 1, get. unfold bind at 1, lift.
    destruct (HostKSM.collect_files parse_int h (HostKSM.files s) ∅) as [d|e]; [| simpl; eauto].
    unfold bind at 1, HostKSM.get_shareable_mem. rewrite Hp. simpl. eauto.
  - intros Hp. unfold HostKSM.get_shareable_mem. now rewrite Hp.
Qed.

End KSM.

(** X27. A collector made while [ksmd] was not running never looks
    for it again: [pid] is [None], and every [get_ksmd_cpu_usage]
    returns [0] and leaves the collector as it is, on whatever host,
    also one where [ksmd] runs by now. *)
Theorem no_ksmd_no_usage (h0 h : HostKSM.host) (properties : gmap string Z)
        (s0 : HostKSM.self) :
  HostKSM.pidof_ksmd h0 = None ->
  HostKSM.init h0 properties = Ok s0 ->
  HostKSM.clk_tck h * HostKSM.interval s0 <> 0 ->
  HostKSM.pid s0 = None
  /\ HostKSM.get_ksmd_cpu_usage h s0 = (Ok (Some 0), s0).
Proof.
  intros Hp Hi Hz. unfold HostKSM.init in Hi.
  destruct (HostKSM.open_files h0) as [fs|e]; [| discriminate].
  destruct (properties !! "interval") as [i|]; [| discriminate].
  unfold HostKSM._get_ksmd_pid in Hi. rewrite Hp in Hi. simpl in Hi.
  injection Hi as <-. split; [reflexivity|].
  unfold HostKSM.get_ksmd_cpu_usage, bind, get, lift, put, ret. simpl in *.
  apply Z.eqb_neq in Hz. rewrite Hz. reflexivity.
Qed.

Import CollectorExamples.

(** Two of the files cannot be opened. *)
Definition locked_host : HostKSM.host :=
  {| HostKSM.open_error := fun name =>
       if String.eqb name "/sys/kernel/mm/ksm/pages_unshared" then Some "Permission denied"
       else if String.eqb name "/sys/kernel/mm/ksm/run" then Some "No such file or directory"
       else None;
     HostKSM.read := HostKSM.read sample_host;
     HostKSM.pidof_ksmd := HostKSM.pidof_ksmd sample_host;
     HostKSM.stat_13_15 := HostKSM.stat_13_15 sample_host;
     HostKSM.pgrep_qemu := HostKSM.pgrep_qemu sample_host;
     HostKSM.ps_vsz := HostKSM.ps_vsz sample_host;
     HostKSM.clk_tck := HostKSM.clk_tck sample_host |}.

Lemma init_reports_first_unopenable_witness :
  HostKSM.init locked_host ∅
  = Raise (FatalError
             "HostKSM: open /sys/kernel/mm/ksm/pages_unshared failed: Permission denied").
Proof.
  apply (init_reports_first_unopenable locked_host ∅ ["full_scans"; "pages_sharing"]
           "pages_unshared"
           ["run"; "pages_shared"; "pages_to_scan"; "pages_volatile";
            "sleep_millisecs"; "merge_across_nodes"]
           "Permission denied").
  - reflexivity.
  - intros k [<- | [<- | []]]; reflexivity.
  - reflexivity.
Defined.

Lemma init_opens_every_file_witness :
  HostKSM.init sample_host ∅ = Raise KeyError
  /\ HostKSM.init sample_host {[ "interval" := 10 ]}
     = Ok {| HostKSM.files := opened; HostKSM.interval := 10;
             HostKSM.pid := Some 37; HostKSM.last_jiff := 150 |}.
Proof.
  split.
  - apply (proj1 (init_opens_every_file sample_host ∅ (fun k _ => eq_refl))).
    reflexivity.
  - apply (proj2 (init_opens_every_file sample_host {[ "interval" := 10 ]}
                    (fun k _ => eq_refl)) 10 (Some 37) 150);
      vm_compute; reflexivity.
Defined.

Lemma collect_reports_files_witness :
  exists data,
    HostKSM.collect sample_parse_int sample_host sample_ksm
    = (Ok data, snd (HostKSM.get_ksmd_cpu_usage sample_host sample_ksm))
    /\ (forall k, In k HostKSM.sysfs_keys -> data !! ("ksm_" +:+ k) = Some (Some 1))
    /\ data !! "ksm_shareable" = Some (Some 6291456)
    /\ data !! "ksmd_cpu_usage" = Some (Some 0).
Proof.
  apply (collect_reports_files sample_host sample_parse_int (fun _ => Some 1) sample_ksm
           (snd (HostKSM.get_ksmd_cpu_usage sample_host sample_ksm))
           (Some 6291456) (Some 0)).
  - vm_compute. reflexivity.
  - intros k _. vm_compute. reflexivity.
  - vm_compute. reflexivity.
  - vm_compute. reflexivity.
Defined.

(** The collector just before the counter of [ksmd] wraps around. *)
Definition before_wrap : HostKSM.self :=
  {| HostKSM.files := opened; HostKSM.interval := 10;
     HostKSM.pid := Some 37; HostKSM.last_jiff := 4294967290 |}.

Lemma cpu_usage_wraps_around_witness :
  exists u,
    HostKSM.get_ksmd_cpu_usage sample_host before_wrap
    = (Ok (Some u), HostKSM.with_last_jiff 150 before_wrap)
    /\ 0 <= u
    /\ u = Z.quot (100 * (150 - 4294967290 + 2 ^ 32)) (100 * 10).
Proof.
  apply (cpu_usage_wraps_around sample_host before_wrap 150).
  - reflexivity.
  - reflexivity.
  - split; [discriminate | reflexivity].
  - split; [discriminate | reflexivity].
Defined.

(** A collector with the interval [0]. *)
Definition stalled : HostKSM.self :=
  {| HostKSM.files := opened; HostKSM.interval := 0;
     HostKSM.pid := Some 37; HostKSM.last_jiff := 100 |}.

Lemma zero_interval_never_collects_witness :
  HostKSM.get_ksmd_cpu_usage sample_host stalled
  = (Raise ZeroDivisionError, HostKSM.with_last_jiff 150 stalled)
  /\ exists e, fst (HostKSM.collect sample_parse_int sample_host stalled) = Raise e.
Proof.
  destruct (zero_interval_never_collects sample_host sample_parse_int stalled eq_refl)
    as [Hu Hc].
  split; [apply (Hu 150); reflexivity | exact Hc].
Defined.

(** A host where [pgrep] cannot be run, and one where no [qemu] runs. *)
Definition without_pgrep : HostKSM.host :=
  {| HostKSM.open_error := HostKSM.open_error sample_host;
     HostKSM.read := HostKSM.read sample_host;
     HostKSM.pidof_ksmd := HostKSM.pidof_ksmd sample_host;
     HostKSM.stat_13_15 := HostKSM.stat_13_15 sample_host;
     HostKSM.pgrep_qemu := None;
     HostKSM.ps_vsz := HostKSM.ps_vsz sample_host;
     HostKSM.clk_tck := HostKSM.clk_tck sample_host |}.

Definition without_guests : HostKSM.host :=
  {| HostKSM.open_error := HostKSM.open_error sample_host;
     HostKSM.read := HostKSM.read sample_host;
     HostKSM.pidof_ksmd := HostKSM.pidof_ksmd sample_host;
     HostKSM.stat_13_15 := HostKSM.stat_13_15 sample_host;
     HostKSM.pgrep_qemu := Some [];
     HostKSM.ps_vsz := fun _ => Raise ValueError;
     HostKSM.clk_tck := HostKSM.clk_tck sample_host |}.

Lemma shareable_mem_needs_pgrep_witness :
  (HostKSM.get_shareable_mem without_pgrep
   = Raise (CollectionError "HostKSM: Unable to execute pgrep")
   /\ forall s, exists e, HostKSM.collect sample_parse_int without_pgrep s = (Raise e, s))
  /\ HostKSM.get_shareable_mem without_guests = Ok (Some 0).
Proof.
  split.
  - apply (proj1 (shareable_mem_needs_pgrep without_pgrep sample_parse_int)). reflexivity.
  - apply (proj2 (shareable_mem_needs_pgrep without_guests sample_parse_int)). reflexivity.
Defined.

(** A host where [ksmd] does not run. *)
Definition without_ksmd : HostKSM.host :=
  {| HostKSM.open_error := HostKSM.open_error sample_host;
     HostKSM.read := HostKSM.read sample_host;
     HostKSM.pidof_ksmd := None;
     HostKSM.stat_13_15 := HostKSM.stat_13_15 sample_host;
     HostKSM.pgrep_qemu := HostKSM.pgrep_qemu sample_host;
     HostKSM.ps_vsz := HostKSM.ps_vsz sample_host;
     HostKSM.clk_tck := HostKSM.clk_tck sample_host |}.

Definition unaware : HostKSM.self :=
  {| HostKSM.files := opened; HostKSM.interval := 10;
     HostKSM.pid := None; HostKSM.last_jiff := 0 |}.

Lemma no_ksmd_no_usage_witness :
  HostKSM.pid unaware = None
  /\ HostKSM.get_ksmd_cpu_usage sample_host unaware = (Ok (Some 0), unaware).
Proof.
  apply (no_ksmd_no_usage without_ksmd sample_host {[ "interval" := 10 ]} unaware).
  - reflexivity.
  - vm_compute. reflexivity.
  - discriminate.
Defined.

End KsmProperties.
